(** * CineSync: media identification and destination resolution

    A shallow embedding of the pure and effectful parts of
    [Scripts/library.py] and [MediaHub/api/tmdb_api.py], with the
    properties of the specification stated over it.

    Text is modelled as a list of code points below 256 (type [ascii]),
    classified the way Python's [str] methods and the [re] module classify
    them.  Regular expressions are kept as syntax trees and run by a
    backtracking matcher with the priorities of [re]: leftmost match,
    ordered alternation, greedy and lazy repetition. *)

From Stdlib Require Import ZArith List Ascii String Bool Lia DecimalString.
From stdpp Require Import base option list gmap strings.

Local Open Scope list_scope.

(** ** Python text primitives *)

Abbreviation pystr := (list ascii).

Module Py.

Definition code (c : ascii) : N := N_of_ascii c.

Definition between (lo hi : N) (c : ascii) : bool :=
  ((lo <=? code c) && (code c <=? hi))%N.

Definition is_code (n : N) (c : ascii) : bool := (code c =? n)%N.

(** [\d]: the decimal digits.  Below 256 these are [0] to [9]; the
    decimal digits of other scripts, which [\d] and [int] accept as well,
    lie above and are not text of this model. *)
Definition is_digit (c : ascii) : bool := between 48 57 c.

Definition is_upper (c : ascii) : bool :=
  between 65 90 c || (between 192 222 c && negb (is_code 215 c)).

(** [str.isalnum] above the ASCII range: letters, superscript digits and
    vulgar fractions of Latin-1. *)
Definition is_alnum_high (c : ascii) : bool :=
  is_code 170 c || is_code 178 c || is_code 179 c || is_code 181 c || is_code 185 c || is_code 186 c
  || between 188 190 c || between 192 214 c || between 216 246 c
  || between 248 255 c.

(** [\w]: alphanumeric or underscore. *)
Definition is_word (c : ascii) : bool :=
  is_digit c || between 65 90 c || between 97 122 c || is_code 95 c
  || is_alnum_high c.

(** [\s] and [str.isspace]. *)
Definition is_space (c : ascii) : bool :=
  between 9 13 c || between 28 32 c || is_code 133 c || is_code 160 c.

Definition is_newline (c : ascii) : bool := is_code 10 c.

(** [str.lower] on one character. *)
Definition lower (c : ascii) : ascii :=
  if is_upper c then ascii_of_N (code c + 32) else c.

Definition lower_str (s : pystr) : pystr := map lower s.

Fixpoint lstrip (s : pystr) : pystr :=
  match s with
  | c :: s' => if is_space c then lstrip s' else s
  | [] => []
  end.

Definition rstrip (s : pystr) : pystr := rev (lstrip (rev s)).

(** [str.strip()] without argument. *)
Definition strip (s : pystr) : pystr := rstrip (lstrip s).

Definition eqb_str (a b : pystr) : bool := bool_decide (a = b).

Fixpoint starts_with (p s : pystr) : bool :=
  match p, s with
  | [], _ => true
  | a :: p', b :: s' => bool_decide (a = b) && starts_with p' s'
  | _ :: _, [] => false
  end.

(** [needle in hay] on strings. *)
Fixpoint contains (needle hay : pystr) : bool :=
  starts_with needle hay ||
  match hay with
  | [] => false
  | _ :: hay' => contains needle hay'
  end.

(** [str.replace(old, new)] for a one-character [old]. *)
Definition replace_char (old : ascii) (new : pystr) (s : pystr) : pystr :=
  flat_map (fun c => if bool_decide (c = old) then new else [c]) s.

(** [int(s)] for a string of decimal digits. *)
Definition digit_val (c : ascii) : Z := (Z.of_N (code c) - 48)%Z.

Definition int_of_digits (s : pystr) : Z :=
  fold_left (fun acc c => (10 * acc + digit_val c)%Z) s 0%Z.

(** [str(n)] for an integer. *)
Definition str_of_Z (z : Z) : pystr :=
  list_ascii_of_string (NilZero.string_of_int (Z.to_int z)).

(** [s.zfill(2)] when [s] carries no sign. *)
Definition zfill2 (s : pystr) : pystr :=
  match s with
  | [] => list_ascii_of_string "00"
  | [c] => "0"%char :: s
  | _ => s
  end.

(** The format [{n:02d}]: the sign counts in the width, so that a negative
    number is printed as it is. *)
Definition fmt_02d (z : Z) : pystr :=
  if (z <? 0)%Z then str_of_Z z else zfill2 (str_of_Z z).

End Py.


(** A string literal, as a list of characters. *)
Abbreviation str := list_ascii_of_string.

(** ** Python values, exceptions and the state monad *)

(** The values a [year] argument takes: [None], an [int] or a [str]. *)
Inductive pyval : Type :=
| PNone
| PInt (z : Z)
| PStr (s : pystr).

Global Instance pyval_eq_dec : EqDecision pyval.
Proof. solve_decision. Defined.

Global Instance pyval_countable : Countable pyval.
Proof.
  refine (inj_countable'
    (fun v => match v with
              | PNone => inl ()
              | PInt z => inr (inl z)
              | PStr s => inr (inr s)
              end)
    (fun x => match x with
              | inl _ => PNone
              | inr (inl z) => PInt z
              | inr (inr s) => PStr s
              end) _).
  now intros [].
Defined.

Module PyVal.

(** Truth value, as tested by [if year:] and [not year]. *)
Definition truthy (v : pyval) : bool :=
  match v with
  | PNone => false
  | PInt z => negb (z =? 0)%Z
  | PStr s => negb (bool_decide (s = []))
  end.

(** [a == b]; an [int] never equals a [str]. *)
Definition eqb (a b : pyval) : bool := bool_decide (a = b).

(** [a or b]. *)
Definition por (a b : pyval) : pyval := if truthy a then a else b.

Definition of_int (o : option Z) : pyval :=
  match o with Some z => PInt z | None => PNone end.

Definition of_str (o : option pystr) : pyval :=
  match o with Some s => PStr s | None => PNone end.

(** How an f-string prints the value. *)
Definition fmt (v : pyval) : pystr :=
  match v with
  | PNone => str "None"
  | PInt z => Py.str_of_Z z
  | PStr s => s
  end.

End PyVal.

Inductive level : Type := DEBUG | INFO | WARNING | ERROR.

Inductive exn : Type :=
| TypeError
| NameError
| ValueError
| IndexError
| AttributeError
| OSError.

Inductive outcome (A : Type) : Type :=
| Ret (a : A)
| Raise (e : exn).
Arguments Ret {A} a.
Arguments Raise {A} e.

(** Computations over a state [S] that return or raise. *)
Definition M (S A : Type) : Type := S -> outcome A * S.

Definition ret {S A} (a : A) : M S A := fun w => (Ret a, w).

Definition raise {S A} (e : exn) : M S A := fun w => (Raise e, w).

Definition bind {S A B} (m : M S A) (f : A -> M S B) : M S B :=
  fun w =>
    match m w with
    | (Ret a, w') => f a w'
    | (Raise e, w') => (Raise e, w')
    end.

Definition gets {S A} (f : S -> A) : M S A := fun w => (Ret (f w), w).

Definition modify {S} (f : S -> S) : M S unit := fun w => (Ret tt, f w).

(** [try: m except OSError: h]. *)
Definition catch {S A} (m : M S A) (h : exn -> M S A) : M S A :=
  fun w =>
    match m w with
    | (Ret a, w') => (Ret a, w')
    | (Raise e, w') => h e w'
    end.

Notation "'let*' x ':=' m 'in' k" := (bind m (fun x => k))
  (at level 10, x pattern, m at level 100, k at level 200).
Notation "'do' m 'then' k" := (bind m (fun _ => k))
  (at level 10, m at level 100, k at level 200).

(** ** [os.path] and the file system *)

Module Path.

Definition is_sep (c : ascii) : bool := bool_decide (c = "/"%char).

Fixpoint drop_seps (s : pystr) : pystr :=
  match s with
  | c :: s' => if is_sep c then drop_seps s' else s
  | [] => []
  end.

(** [s.rstrip('/')]. *)
Definition rstrip_sep (s : pystr) : pystr := rev (drop_seps (rev s)).

(** The text after the last separator, read from the reversed path. *)
Fixpoint tail_rev (r : pystr) : pystr :=
  match r with
  | c :: r' => if is_sep c then [] else c :: tail_rev r'
  | [] => []
  end.

(** [os.path.basename]: [p[p.rfind('/') + 1:]]. *)
Definition basename (p : pystr) : pystr := rev (tail_rev (rev p)).

(** [p[:p.rfind('/') + 1]]. *)
Definition head_raw (p : pystr) : pystr :=
  take (length p - length (basename p)) p.

(** [os.path.dirname]. *)
Definition dirname (p : pystr) : pystr :=
  let head := head_raw p in
  if forallb is_sep head then head else rstrip_sep head.

(** [os.path.split]. *)
Definition split (p : pystr) : pystr * pystr := (dirname p, basename p).

(** [os.path.join(a, b)]. *)
Definition join (a b : pystr) : pystr :=
  match b with
  | c :: _ =>
      if is_sep c then b
      else match last a with
           | None => b
           | Some l => if is_sep l then a ++ b else a ++ "/"%char :: b
           end
  | [] =>
      match last a with
      | None => []
      | Some l => if is_sep l then a else a ++ ["/"%char]
      end
  end.

Definition join_all (a : pystr) (ps : list pystr) : pystr :=
  fold_left join ps a.

(** [os.path.splitext(p)[1]]: from the last dot of the last component,
    unless only dots precede it there. *)
Definition splitext_ext (p : pystr) : pystr :=
  let name := basename p in
  let ext_rev :=
    (fix go (r : pystr) : option pystr :=
       match r with
       | c :: r' =>
           if bool_decide (c = "."%char) then Some [c]
           else match go r' with
                | Some e => Some (c :: e)
                | None => None
                end
       | [] => None
       end) (rev name) in
  match ext_rev with
  | Some e =>
      let stem := take (length name - length e) name in
      if forallb (fun c => bool_decide (c = "."%char)) stem then []
      else rev e
  | None => []
  end.

End Path.

Module Fs.

Inductive node : Type :=
| File
| Dir
| Symlink (target : pystr).

Global Instance node_eq_dec : EqDecision node.
Proof. solve_decision. Defined.

(** The tree, keyed by path; the root directory is always there. *)
Abbreviation tree := (gmap pystr node).

Definition is_root (p : pystr) : bool :=
  negb (bool_decide (p = [])) && forallb Path.is_sep p.

(** The entry under a path, looked up as the path is written; [direct]
    below says for which paths this is what the operating system finds. *)
Definition node_at (t : tree) (p : pystr) : option node :=
  match p with
  | [] => None
  | _ => if is_root p then Some Dir else t !! p
  end.

(** The node a path leads to, symbolic links followed; the target of a
    link is looked up as it is written. *)
Fixpoint resolve (fuel : nat) (t : tree) (p : pystr) : option node :=
  match node_at t p with
  | Some (Symlink q) =>
      match fuel with
      | O => None
      | S fuel' => resolve fuel' t q
      end
  | o => o
  end.

(** [os.path.exists], [os.path.isdir], [os.path.islink], [os.readlink]. *)
Definition exists_ (t : tree) (p : pystr) : bool :=
  bool_decide (is_Some (resolve (size t) t p)).

Definition isdir (t : tree) (p : pystr) : bool :=
  bool_decide (resolve (size t) t p = Some Dir).

Definition islink (t : tree) (p : pystr) : bool :=
  match node_at t p with
  | Some (Symlink _) => true
  | _ => false
  end.

Definition readlink (t : tree) (p : pystr) : option pystr :=
  match node_at t p with
  | Some (Symlink q) => Some q
  | _ => None
  end.

(** [os.mkdir]. *)
Definition mkdir (name : pystr) : M tree unit :=
  fun t =>
    match name, node_at t name with
    | [], _ | _, Some _ => (Raise OSError, t)
    | _, None =>
        if bool_decide (Path.dirname name = []) || isdir t (Path.dirname name)
        then (Ret tt, <[name := Dir]> t)
        else (Raise OSError, t)
    end.

(** [try: mkdir(name) except OSError: if not path.isdir(name): raise]. *)
Definition mkdir_exist_ok (name : pystr) : M tree unit :=
  fun t =>
    match mkdir name t with
    | (Raise e, t') => if isdir t' name then (Ret tt, t') else (Raise e, t')
    | r => r
    end.

(** The [head] and [tail] that [os.makedirs] works with. *)
Definition split_for_makedirs (name : pystr) : pystr * pystr :=
  let '(head, tail) := Path.split name in
  match tail with [] => Path.split head | _ => (head, tail) end.

(** [os.makedirs(name, exist_ok=True)]. *)
Fixpoint makedirs_go (fuel : nat) (name : pystr) : M tree unit :=
  fun t =>
    let '(head, tail) := split_for_makedirs name in
    if negb (bool_decide (head = [])) && negb (bool_decide (tail = []))
       && negb (exists_ t head)
    then
      match fuel with
      | O => (Raise OSError, t)
      | S fuel' =>
          let '(_, t1) := makedirs_go fuel' head t in
          if bool_decide (tail = str ".") then (Ret tt, t1)
          else mkdir_exist_ok name t1
      end
    else mkdir_exist_ok name t.

Definition makedirs (name : pystr) : M tree unit :=
  makedirs_go (length name) name.

(** [os.remove]. *)
Definition remove (p : pystr) : M tree unit :=
  fun t =>
    match node_at t p with
    | Some File | Some (Symlink _) => (Ret tt, delete p t)
    | _ => (Raise OSError, t)
    end.










(** [os.symlink(src, dst)]. *)
Definition symlink (src dst : pystr) : M tree unit :=
  fun t =>
    match node_at t dst with
    | Some _ => (Raise OSError, t)
    | None => (Ret tt, <[dst := Symlink src]> t)
    end.

(** The path with [root/] taken off, when it lies below [root]. *)
Definition below (root p : pystr) : option pystr :=
  if Py.starts_with (root ++ ["/"%char]) p
  then Some (drop (S (length root)) p) else None.

(** [shutil.copytree(src, dst, symlinks=True, dirs_exist_ok=True)]: the
    entries below the directory [src] reappear below [dst], symbolic links
    as links.  A copy onto the source itself fails, and so does in the end
    a copy to a place inside the source, which runs into what it has
    copied; what such a copy leaves behind is not modelled. *)
Definition copytree (src dst : pystr) : M tree unit :=
  fun t =>
    if isdir t src then
      match makedirs dst t with
      | (Ret _, t1) =>
          if bool_decide (dst = src) || bool_decide (is_Some (below src dst))
          then (Raise OSError, t1)
          else
            (Ret tt,
             map_fold (fun p n acc =>
                         match below src p with
                         | Some rel => <[dst ++ "/"%char :: rel := n]> acc
                         | None => acc
                         end) t1 t)
      | r => r
      end
    else (Raise OSError, t).

End Fs.

Module Walk.
Import Fs.

(** Every directory between [top] and [p] is a real directory. *)
Fixpoint chain_ok (fuel : nat) (t : tree) (top p : pystr) : bool :=
  match fuel with
  | O => false
  | S fuel' =>
      let d := Path.dirname p in
      if bool_decide (d = top) then true
      else match t !! d with
           | Some Dir => chain_ok fuel' t top d
           | _ => false
           end
  end.

(** The entries [os.walk(top)] comes across, in the order of the walk. *)
Definition entries (t : tree) (top : pystr) : list pystr :=
  if isdir t top then
    omap (fun '(p, _) =>
            match below top p with
            | Some _ => if chain_ok (length p) t top p then Some p else None
            | None => None
            end) (map_to_list t)
  else [].

(** The names in the [dirs] lists of the walk. *)
Definition dirs (t : tree) (top : pystr) : list pystr :=
  omap (fun p => if isdir t p then Some (Path.basename p) else None)
    (entries t top).

(** The pairs [(root, file)] of the [files] lists of the walk. *)
Definition files (t : tree) (top : pystr) : list (pystr * pystr) :=
  omap (fun p => if isdir t p then None
                 else Some (Path.dirname p, Path.basename p))
    (entries t top).

End Walk.

(** ** The metadata provider *)

Inductive media : Type := Movie | Tv.

(** A [query] parameter: a string, or the pair a cleaning function returns. *)
Inductive qval : Type :=
| QStr (s : pystr)
| QPair (title : pystr) (year : option pystr).

Global Instance media_eq_dec : EqDecision media.
Proof. solve_decision. Defined.

Global Instance qval_eq_dec : EqDecision qval.
Proof. solve_decision. Defined.

(** The HTTP requests the code sends. *)
Inductive request : Type :=
| ReqSearch (kind : media) (query : qval) (year : pyval)
      (* GET api.themoviedb.org/3/search/{movie,tv}; [year] is the
         primary_release_year or first_air_date_year parameter *)
| ReqWebSearch (query : pystr)
      (* GET www.themoviedb.org/search?query=... *)
| ReqDetails (kind : media) (id : pystr)
      (* GET api.themoviedb.org/3/{movie,tv}/{id} *)
| ReqCollection (id : pystr)
      (* GET api.themoviedb.org/3/movie/{id}, belongs_to_collection *)
| ReqExternalIds (kind : media) (id : pyval)
      (* GET api.themoviedb.org/3/{movie,tv}/{id}/external_ids *)
| ReqConfiguration
      (* GET api.themoviedb.org/3/configuration *)
| ReqEpisode (show : pyval) (season : Z) (episode : pystr)
      (* GET api.themoviedb.org/3/tv/{show}/season/{s}/episode/{e} *)
| ReqSeason (show : pyval) (season : Z).
      (* GET api.themoviedb.org/3/tv/{show}/season/{s} *)

(** What [requests.get] followed by [raise_for_status] and [json] gives:
    the body, an [HTTPError] with its status, or another
    [RequestException]. *)
Inductive reply (A : Type) : Type :=
| Ok (body : A)
| HttpError (status : nat)
| Failed.
Arguments Ok {A} body.
Arguments HttpError {A} status.
Arguments Failed {A}.

(** An entry of a [results] list or a details object: [id], [title] (or
    [name] for a show) and [release_date] (or [first_air_date]). *)
Record candidate : Type := {
  c_id : pyval;
  c_name : option pystr;
  c_date : option pystr;
}.

Record provider : Type := {
  search_api : media -> qval -> pyval -> reply (list candidate);
  search_web : pystr -> reply (option pystr);
      (* the href of the first [a.result] link of the page, if any *)
  details : media -> pystr -> reply (option candidate);
      (* [None] for an empty object *)
  collection : pystr -> reply (option (pystr * pyval));
      (* name and id of [belongs_to_collection] *)
  external_ids : media -> pyval -> reply (option pystr);
      (* the [imdb_id] entry *)
  configuration : reply unit;
  episode : pyval -> Z -> pystr -> reply (option pystr);
      (* the [name] entry *)
  season : pyval -> Z -> reply nat;
      (* the length of the [episodes] list *)
}.

Definition failed {A} (r : reply A) : bool :=
  match r with Ok _ => false | _ => true end.

(** A search that brings no candidate: the request failed, or the list of
    results is empty. *)
Definition no_results (r : reply (list candidate)) : bool :=
  match r with Ok (_ :: _) => false | _ => true end.

(** The provider that answers with an empty result where [p] fails on a
    search, a page, a details or an external-ids request. *)
Definition or_empty {A} (empty : A) (r : reply A) : reply A :=
  match r with Ok body => Ok body | _ => Ok empty end.

Definition soften (p : provider) : provider :=
  {| search_api := fun kind q y => or_empty [] (search_api p kind q y);
     search_web := fun q => or_empty None (search_web p q);
     details := fun kind id => or_empty None (details p kind id);
     collection := collection p;
     external_ids := fun kind id => or_empty None (external_ids p kind id);
     configuration := configuration p;
     episode := episode p;
     season := season p |}.

(** ** The matcher behind [re.search], [re.match] and [re.sub] *)

Module Re.

Inductive regex : Type :=
| Emp
| Cls (p : ascii -> bool)
| Cat (r1 r2 : regex)
| Alt (r1 r2 : regex)
| Rep (lo : nat) (hi : option nat) (greedy : bool) (r : regex)
| Grp (n : nat) (r : regex)
| Bol
| Eol
| WordB.

(** Captured groups, most recent first. *)
Definition caps := list (nat * pystr).

Definition word_opt (o : option ascii) : bool :=
  match o with Some c => Py.is_word c | None => false end.

Definition below (hi : option nat) (n : nat) : bool :=
  match hi with Some h => n <? h | None => true end.

(** The loop of a repetition [r{lo,hi}]: [n] iterations are done, [step]
    runs one more.  An iteration that consumes nothing is given up. *)
Fixpoint rep_loop {R : Type}
    (step : option ascii -> pystr -> caps ->
            (option ascii -> pystr -> caps -> option R) -> option R)
    (lo : nat) (hi : option nat) (greedy : bool)
    (k : option ascii -> pystr -> caps -> option R)
    (fuel n : nat) (pv : option ascii) (s : pystr) (g : caps)
    {struct fuel} : option R :=
  let more (_ : unit) :=
    match fuel with
    | O => None
    | S fuel' =>
        if below hi n then
          step pv s g (fun pv' s' g' =>
            if (length s' <? length s)%nat
            then rep_loop step lo hi greedy k fuel' (S n) pv' s' g'
            else None)
        else None
    end in
  if (n <? lo)%nat then more tt
  else if greedy then
    match more tt with
    | Some x => Some x
    | None => k pv s g
    end
  else
    match k pv s g with
    | Some x => Some x
    | None => more tt
    end.

(** [exec r pv s g k]: match [r] at a position whose preceding character
    is [pv] and whose remaining text is [s]; [k] continues after it. *)
Fixpoint exec {R : Type} (r : regex) (pv : option ascii) (s : pystr)
    (g : caps) (k : option ascii -> pystr -> caps -> option R)
    {struct r} : option R :=
  match r with
  | Emp => k pv s g
  | Cls p =>
      match s with
      | c :: s' => if p c then k (Some c) s' g else None
      | [] => None
      end
  | Cat r1 r2 => exec r1 pv s g (fun pv' s' g' => exec r2 pv' s' g' k)
  | Alt r1 r2 =>
      match exec r1 pv s g k with
      | Some x => Some x
      | None => exec r2 pv s g k
      end
  | Rep lo hi greedy r1 =>
      rep_loop (exec r1) lo hi greedy k (S (length s)) O pv s g
  | Grp n r1 =>
      exec r1 pv s g (fun pv' s' g' =>
        k pv' s' ((n, take (length s - length s') s) :: g'))
  | Bol => match pv with None => k pv s g | Some _ => None end
  | Eol =>
      match s with
      | [] => k pv s g
      | [c] => if Py.is_newline c then k pv s g else None
      | _ => None
      end
  | WordB =>
      if xorb (word_opt pv) (word_opt (head s)) then k pv s g else None
  end.

(** The character before the position reached after reading [t]. *)
Definition adv (pv : option ascii) (t : pystr) : option ascii :=
  match last t with Some c => Some c | None => pv end.

(** A match object: [start()], [group(0)] and the numbered groups. *)
Record mtch := { m_start : nat; m_text : pystr; m_caps : caps }.

Definition match_here (r : regex) (pv : option ascii) (s : pystr)
    : option (pystr * caps) :=
  exec r pv s [] (fun _ s' g => Some (s', g)).

Definition mk_match (i : nat) (s s' : pystr) (g : caps) : mtch :=
  {| m_start := i; m_text := take (length s - length s') s; m_caps := g |}.

Fixpoint search_from (r : regex) (i : nat) (pv : option ascii) (s : pystr)
    : option mtch :=
  match match_here r pv s with
  | Some (s', g) => Some (mk_match i s s' g)
  | None =>
      match s with
      | [] => None
      | c :: s' => search_from r (S i) (Some c) s'
      end
  end.

(** [re.search(r, s)]. *)
Definition search (r : regex) (s : pystr) : option mtch :=
  search_from r 0 None s.

(** [re.match(r, s)]. *)
Definition rmatch (r : regex) (s : pystr) : option mtch :=
  match match_here r None s with
  | Some (s', g) => Some (mk_match 0 s s' g)
  | None => None
  end.

(** [m.group(n)] for [n >= 1]; [None] when the group took no part. *)
Fixpoint assoc (n : nat) (g : caps) : option pystr :=
  match g with
  | [] => None
  | (i, t) :: g' => if (i =? n)%nat then Some t else assoc n g'
  end.

Definition group (n : nat) (m : mtch) : option pystr := assoc n (m_caps m).

(** [re.sub(r, repl, s)]: the non-overlapping matches from left to right
    are replaced; after an empty match the scan moves one character on. *)
Fixpoint sub_from (r : regex) (repl : mtch -> pystr) (fuel : nat)
    (pv : option ascii) (s : pystr) : pystr :=
  match fuel with
  | O => s
  | S fuel' =>
      match match_here r pv s with
      | Some (s', g) =>
          if (length s' <? length s)%nat then
            repl (mk_match 0 s s' g)
              ++ sub_from r repl fuel'
                   (last (take (length s - length s') s)) s'
          else
            repl (mk_match 0 s s' g)
              ++ match s with
                 | [] => []
                 | c :: s'' => c :: sub_from r repl fuel' (Some c) s''
                 end
      | None =>
          match s with
          | [] => []
          | c :: s'' => c :: sub_from r repl fuel' (Some c) s''
          end
      end
  end.

Definition sub (r : regex) (repl : pystr) (s : pystr) : pystr :=
  sub_from r (fun _ => repl) (S (length s)) None s.

Definition sub_fun (r : regex) (repl : mtch -> pystr) (s : pystr) : pystr :=
  sub_from r repl (S (length s)) None s.

(** [re.findall(r, s)] for a pattern without groups. *)
Fixpoint findall_from (r : regex) (fuel : nat) (pv : option ascii)
    (s : pystr) : list pystr :=
  match fuel with
  | O => []
  | S fuel' =>
      let next :=
        match s with
        | [] => []
        | c :: s'' => findall_from r fuel' (Some c) s''
        end in
      match match_here r pv s with
      | Some (s', _) =>
          let t := take (length s - length s') s in
          if (length s' <? length s)%nat
          then t :: findall_from r fuel' (last t) s'
          else t :: next
      | None => next
      end
  end.

Definition findall (r : regex) (s : pystr) : list pystr :=
  findall_from r (S (length s)) None s.

(** *** Pattern syntax *)

Definition chr (c : ascii) : regex := Cls (fun x => bool_decide (x = c)).

(** A literal character under [re.IGNORECASE]. *)
Definition chr_ci (c : ascii) : regex :=
  Cls (fun x => bool_decide (Py.lower x = Py.lower c)).

Fixpoint cat_all (rs : list regex) : regex :=
  match rs with
  | [] => Emp
  | [r] => r
  | r :: rs' => Cat r (cat_all rs')
  end.

Definition lit (s : pystr) : regex := cat_all (map chr s).
Definition lit_ci (s : pystr) : regex := cat_all (map chr_ci s).

Fixpoint alt_all (rs : list regex) : regex :=
  match rs with
  | [] => Emp
  | [r] => r
  | r :: rs' => Alt r (alt_all rs')
  end.

Definition digit : regex := Cls Py.is_digit.            (* \d *)
Definition wordc : regex := Cls Py.is_word.             (* \w *)
Definition space : regex := Cls Py.is_space.            (* \s *)
Definition dot : regex := Cls (fun c => negb (Py.is_newline c)).  (* . *)
Definition oneof (s : pystr) : regex :=
  Cls (fun c => bool_decide (c ∈ s)).                   (* [...] *)

Definition star (r : regex) : regex := Rep 0 None true r.        (* r* *)
Definition plus (r : regex) : regex := Rep 1 None true r.        (* r+ *)
Definition opt (r : regex) : regex := Rep 0 (Some 1%nat) true r. (* r? *)
Definition star_lazy (r : regex) : regex := Rep 0 None false r.  (* r*? *)
Definition plus_lazy (r : regex) : regex := Rep 1 None false r.  (* r+? *)
Definition times (n : nat) (r : regex) : regex :=
  Rep n (Some n) true r.                                         (* r{n} *)
Definition range (lo hi : nat) (r : regex) : regex :=
  Rep lo (Some hi) true r.                                       (* r{lo,hi} *)
Definition at_least (lo : nat) (r : regex) : regex :=
  Rep lo None true r.                                            (* r{lo,} *)

End Re.

(** ** [Scripts/library.py]: text normalisation *)

Module Library.
Import Re.

(** [extract_year] *)
Definition paren_year_end_re : regex :=              (* \((\d{4})\)$ *)
  cat_all [chr "("; Grp 1 (times 4 digit); chr ")"; Eol].
Definition year_end_re : regex :=                    (* (\d{4})$ *)
  cat_all [Grp 1 (times 4 digit); Eol].

Definition int_group (m : mtch) : option Z :=
  match group 1 m with
  | Some t => Some (Py.int_of_digits t)
  | None => None
  end.

Definition extract_year (query : pystr) : option Z :=
  match search paren_year_end_re (Py.strip query) with
  | Some m => int_group m
  | None =>
      match search year_end_re (Py.strip query) with
      | Some m => int_group m
      | None => None
      end
  end.

(** [extract_folder_year] *)
Definition resolutions : list pystr :=
  map str ["1080"; "480"; "720"; "2160"]%string.

Definition paren_year_re : regex :=                  (* \((\d{4})\) *)
  cat_all [chr "("; Grp 1 (times 4 digit); chr ")"].
Definition dotted_year_re : regex :=                 (* \.(\d{4})\. *)
  cat_all [chr "."; Grp 1 (times 4 digit); chr "."].

Definition year_unless_resolution (m : option mtch) : option Z :=
  match m with
  | Some m =>
      match group 1 m with
      | Some year =>
          if bool_decide (year ∈ resolutions) then None
          else Some (Py.int_of_digits year)
      | None => None
      end
  | None => None
  end.

Definition extract_folder_year (folder_name : pystr) : option Z :=
  match year_unless_resolution (search paren_year_re folder_name) with
  | Some y => Some y
  | None => year_unless_resolution (search dotted_year_re folder_name)
  end.

(** [clean_query] *)
Definition remove_keywords : list pystr :=
  map str
    [ "Unrated"; "Remastered"; "IMAX"; "Extended"; "BDRemux"; "ITA"; "ENG";
      "x265"; "H265"; "HDR10"; "WebDl"; "Rip"; "4K"; "HDR"; "DV"; "2160p";
      "BDRip"; "AC3"; "5.1"; "Sub"; "NAHOM"; "mkv"; "Complete" ]%string.

(** [r'\b' + re.escape(keyword) + r'\b'] under [re.IGNORECASE]. *)
Definition keyword_re (keyword : pystr) : regex :=
  Cat WordB (Cat (lit_ci keyword) WordB).

Definition season_tail_re : regex :=                 (* \bS\d{2}\b.* *)
  cat_all [WordB; chr_ci "S"; times 2 digit; WordB; star dot].
Definition empty_parens_re : regex :=                (* \(\s*\) *)
  cat_all [chr "("; star space; chr ")"].
Definition spaces_re : regex := plus space.          (* \s+ *)
Definition year_token_re : regex :=                  (* \b(\d{4})\b *)
  cat_all [WordB; Grp 1 (times 4 digit); WordB].

Definition strip_keywords (query : pystr) : pystr :=
  fold_left (fun q keyword => sub (keyword_re keyword) [] q)
    remove_keywords query.

Definition clean_query (query : pystr) : pystr * option pystr :=
  let query := strip_keywords query in
  let query := sub season_tail_re [] query in
  let query := sub empty_parens_re [] query in
  let query := Py.strip (sub spaces_re (str " ") query) in
  match search year_token_re query with
  | Some match_year =>
      (Py.strip (take (m_start match_year) query), group 1 match_year)
  | None => (query, None)
  end.

(** [normalize_query] *)
Definition punct_re : regex := oneof (str "._-").   (* [._-] *)
Definition junk_re : regex :=                        (* [^\w\s\(\)-] *)
  Cls (fun c => negb (Py.is_word c || Py.is_space c
                      || bool_decide (c ∈ str "()-"))).

Definition normalize_query (query : pystr) : pystr :=
  let normalized_query := sub punct_re (str " ") query in
  let normalized_query := sub junk_re [] normalized_query in
  Py.strip (sub spaces_re (str " ") normalized_query).


(** [check_existing_variations]: the tests of the loop body and the
    choice among the partial matches. *)
Definition exact_match (normalized_query : pystr) (year : pyval)
    (d : pystr) : bool :=
  let normalized_d := normalize_query d in
  let d_year := PyVal.of_int (extract_year d) in
  bool_decide (normalized_query = normalized_d)
  && (PyVal.eqb d_year year || negb (PyVal.truthy year)
      || negb (PyVal.truthy d_year)).

Definition abs_diff (a b : nat) : nat := (a - b) + (b - a).

Definition partial_match (normalized_query : pystr) (d : pystr) : bool :=
  let normalized_d := normalize_query d in
  (Py.contains normalized_query normalized_d
   || Py.contains normalized_d normalized_query)
  && (abs_diff (length normalized_query) (length normalized_d) <? 5)%nat.

(** The key [(len(x[0]), x[1] != year)] and the order of such pairs. *)
Definition match_key (year : pyval) (x : pystr * pyval) : nat * bool :=
  (length (fst x), negb (PyVal.eqb (snd x) year)).

Definition key_lt (a b : nat * bool) : bool :=
  (fst a <? fst b)%nat
  || ((fst a =? fst b)%nat && negb (snd a) && snd b).


(** A directory name with the year [extract_year] reads in it. *)
Definition with_year (d : pystr) : pystr * pyval :=
  (d, PyVal.of_int (extract_year d)).

(** [min(l, key=key)]: the first element whose key is least. *)
Fixpoint min_from {A} (key : A -> nat * bool) (best : A) (l : list A) : A :=
  match l with
  | [] => best
  | x :: l' =>
      min_from key (if key_lt (key x) (key best) then x else best) l'
  end.

Inductive variation : Type :=
| Exact (d : pystr)
| Closest (d : pystr)
| NoVariation.

Fixpoint scan_variations (normalized_query : pystr) (year : pyval)
    (dirs : list pystr) (partial_matches : list (pystr * pyval))
    : pystr + list (pystr * pyval) :=
  match dirs with
  | [] => inr partial_matches
  | d :: dirs' =>
      if exact_match normalized_query year d then inl d
      else if partial_match normalized_query d then
        scan_variations normalized_query year dirs'
          (partial_matches ++ [with_year d])
      else scan_variations normalized_query year dirs' partial_matches
  end.

(** The result of [check_existing_variations] when the walk of
    [dest_dir] comes across the directory names [dirs]. *)
Definition find_variation (name : pystr) (year : pyval)
    (dirs : list pystr) : variation :=
  match scan_variations (normalize_query name) year dirs [] with
  | inl d => Exact d
  | inr (first :: others) =>
      Closest (fst (min_from (match_key year) first others))
  | inr [] => NoVariation
  end.

Definition variation_name (v : variation) : option pystr :=
  match v with
  | Exact d | Closest d => Some d
  | NoVariation => None
  end.

(** [extract_movie_name_and_year] *)
Definition numbering_re : regex :=                   (* ^\d{1,2}\.\s+ *)
  cat_all [Bol; range 1 2 digit; chr "."; plus space].
Definition numbering_sub_re : regex :=               (* ^\d{1,2}\.\s* *)
  cat_all [Bol; range 1 2 digit; chr "."; star space].
Definition name_bracket_year_re : regex :=           (* (.+?)\s*\[(\d{4})\] *)
  cat_all [Grp 1 (plus_lazy dot); star space; chr "[";
           Grp 2 (times 4 digit); chr "]"].
Definition name_paren_year_re : regex :=             (* (.+?)\s*\((\d{4})\) *)
  cat_all [Grp 1 (plus_lazy dot); star space; chr "(";
           Grp 2 (times 4 digit); chr ")"].
Definition name_year_re : regex :=                   (* (.+?)\s*(\d{4}) *)
  cat_all [Grp 1 (plus_lazy dot); star space; Grp 2 (times 4 digit)].
Definition brackets_re : regex := oneof (str "[]").  (* [\[\]] *)

Definition some_or_empty (o : option pystr) : pystr :=
  match o with Some s => s | None => [] end.

Fixpoint first_match (rs : list regex) (s : pystr) : option mtch :=
  match rs with
  | [] => None
  | r :: rs' =>
      match search r s with
      | Some m => Some m
      | None => first_match rs' s
      end
  end.

Definition extract_movie_name_and_year (filename : pystr)
    : option pystr * option pystr :=
  let filename :=
    match rmatch numbering_re filename with
    | Some _ => sub numbering_sub_re [] filename
    | None => filename
    end in
  match first_match
          [name_bracket_year_re; name_paren_year_re; name_year_re]
          filename with
  | Some m =>
      let name :=
        Py.strip (Py.replace_char "-" (str " ")
                    (Py.replace_char "." (str " ")
                       (some_or_empty (group 1 m)))) in
      let name := Py.strip (sub brackets_re [] name) in
      (Some name, group 2 m)
  | None => (None, None)
  end.

(** [extract_resolution_from_filename] *)
Definition resolution_re : regex :=
(* (4K|2160p|1080p|720p|1080|2160|480p), re.IGNORECASE *)
Grp 1 (alt_all (map (fun s => lit_ci (str s))
                  ["4K"; "2160p"; "1080p"; "720p"; "1080"; "2160";
                   "480p"]%string)).
Definition remux_re : regex := Grp 1 (lit_ci (str "Remux")).

Definition extract_resolution_from_filename (filename : pystr)
    : option pystr :=
  match search resolution_re filename with
  | Some resolution_match =>
      let resolution :=
        Py.lower_str (some_or_empty (group 1 resolution_match)) in
      match search remux_re filename with
      | Some _ => Some (resolution ++ str "Remux")
      | None => Some resolution
      end
  | None => None
  end.

(** [standardize_title] *)
Definition replacements : list (ascii * pystr) :=
  map (fun '(c, s) => (c, str s))
    [ ("0"%char, "o"); ("1"%char, "i"); ("4"%char, "a"); ("5"%char, "s");
      ("7"%char, "t"); ("9"%char, "g"); ("@"%char, "a"); ("#"%char, "h");
      ("$"%char, "s"); ("%"%char, "p"); ("&"%char, "and"); ("*"%char, "x");
      ("3"%char, "e") ]%string.

Fixpoint lookup_char (c : ascii) (l : list (ascii * pystr)) : option pystr :=
  match l with
  | [] => None
  | (k, v) :: l' => if bool_decide (k = c) then Some v else lookup_char c l'
  end.

Definition replacement_func (m : mtch) : pystr :=
  match m_text m with
  | [c] => match lookup_char c replacements with Some v => v | None => [c] end
  | t => t
  end.

Definition word_re : regex := cat_all [WordB; plus wordc; WordB]. (* \b\w+\b *)
Definition stylized_re : regex := oneof (str "014579@#$%&*3").
Definition stylized_sub_re : regex :=                (* [0-9@#$%&*3] *)
  Cls (fun c => Py.is_digit c || bool_decide (c ∈ str "@#$%&*3")).

Definition standardize_title (title : pystr) : pystr :=
  let words := findall word_re title in
  let affected_count :=
    length (filter (fun word => is_Some (search stylized_re word)) words) in
  let standardized_title :=
    if (4 <? affected_count)%nat
    then sub_fun stylized_sub_re replacement_func title
    else title in
  Py.strip (sub spaces_re (str " ") standardized_title).

(** [remove_genre_names] *)
Definition genre_names : list pystr :=
  map str
    [ "Action"; "Comedy"; "Drama"; "Thriller"; "Horror"; "Romance";
      "Adventure"; "Sci-Fi"; "Fantasy"; "Mystery"; "Crime"; "Documentary";
      "Animation"; "Family"; "Music"; "War"; "Western"; "History";
      "Biography" ]%string.

Definition remove_genre_names (query : pystr) : pystr :=
  let query :=
    fold_left (fun q genre => sub (keyword_re genre) [] q) genre_names query in
  Py.strip (sub spaces_re (str " ") query).

(** The patterns of [process_show] and [process_file]. *)
Definition d2 : regex := times 2 digit.              (* \d{2} *)
Definition digits : regex := plus digit.             (* \d+ and [0-9]+ *)

Definition sxxeyy_re : regex :=                      (* S\d{2}[eE]\d{2} *)
  cat_all [chr "S"; d2; oneof (str "eE"); d2].
Definition season_suffix_re : regex :=
(* \s*(S\d{2}.*|Season \d+).* *)
cat_all [star space;
         Grp 1 (Alt (cat_all [chr "S"; d2; star dot])
                    (cat_all [lit (str "Season "); digits]));
         star dot].
Definition nxm_re : regex :=                         (* [0-9]+x[0-9]+ *)
  cat_all [digits; chr "x"; digits].
Definition season_of_nxm_re : regex :=               (* ([0-9]+)x *)
  cat_all [Grp 1 digits; chr "x"].
Definition sxxyy_re : regex :=                       (* S\d{2}[0-9]+ *)
  cat_all [chr "S"; d2; digits].
Definition xxeyy_re : regex :=                       (* [0-9]+e[0-9]+ *)
  cat_all [digits; chr "e"; digits].
Definition ep_re : regex :=                          (* Ep\.?\s*\d+, I *)
  cat_all [lit_ci (str "Ep"); opt (chr "."); star space; digits].
Definition ep_number_re : regex :=                   (* Ep\.?\s*(\d+), I *)
  cat_all [lit_ci (str "Ep"); opt (chr "."); star space; Grp 1 digits].
Definition s_season_re : regex :=                    (* S(\d{2}), I *)
  cat_all [chr_ci "S"; Grp 1 d2].
Definition season_episode_re : regex :=              (* S(\d{2})E\d{2}, I *)
  cat_all [chr_ci "S"; Grp 1 d2; chr_ci "E"; d2].
Definition number_re : regex := Grp 1 digits.        (* ([0-9]+) *)
Definition folder_season_re : regex :=
(* S(\d{2})|Season\s*(\d+), I *)
Alt (cat_all [chr_ci "S"; Grp 1 d2])
    (cat_all [lit_ci (str "Season"); star space; Grp 2 digits]).
Definition trailing_re : regex :=                    (* \s+$|_+$|-+$|(\()$ *)
  alt_all [cat_all [plus space; Eol]; cat_all [plus (chr "_"); Eol];
           cat_all [plus (chr "-"); Eol]; cat_all [Grp 1 (chr "("); Eol]].
Definition paren_year_tail_re : regex :=             (* \(\d{4}\)$ *)
  cat_all [chr "("; times 4 digit; chr ")"; Eol].
Definition year_tail_re : regex :=                   (* \d{4}$ *)
  cat_all [times 4 digit; Eol].
Definition tmdb_tag_re : regex :=                    (* ' \{tmdb-\d+\}$' *)
  cat_all [lit (str " {tmdb-"); digits; chr "}"; Eol].
Definition tmdb_id_re : regex :=                     (* \{tmdb-(\d+)\}$ *)
  cat_all [lit (str "{tmdb-"); Grp 1 digits; chr "}"; Eol].
Definition e_number_re : regex :=                    (* E(\d+) *)
  cat_all [chr "E"; Grp 1 digits].
Definition dashes_re : regex := at_least 2 (chr "-").  (* -{2,} *)

(** The pattern [process_file] looks for in the file name, under
    [re.IGNORECASE]. *)
Definition episode_re : regex :=
  cat_all
    [ Grp 1 (star_lazy dot);
      Grp 2 (alt_all
        [ cat_all [chr_ci "S"; d2; chr_ci "E"; d2];    (* S\d{2}E\d{2} *)
          cat_all [chr_ci "S"; d2; chr_ci "e"; d2];    (* S\d{2}e\d{2} *)
          cat_all [digits; chr_ci "x"; digits];        (* [0-9]+x[0-9]+ *)
          cat_all [chr_ci "S"; d2; digits];            (* S\d{2}[0-9]+ *)
          cat_all [digits; chr_ci "e"; digits];        (* [0-9]+e[0-9]+ *)
          cat_all [lit_ci (str "ep"); opt (chr "."); star space; digits];
          cat_all [lit_ci (str "Ep"); opt (chr "."); star space; digits];
          cat_all [lit_ci (str "EP"); opt (chr "."); star space; digits] ]) ].

(** [s.split(sep)] and [s.strip('-')]. *)
Fixpoint split_on (sep : ascii) (s : pystr) : list pystr :=
  match s with
  | [] => [[]]
  | c :: s' =>
      if bool_decide (c = sep) then [] :: split_on sep s'
      else match split_on sep s' with
           | w :: ws => (c :: w) :: ws
           | [] => [[c]]
           end
  end.

Fixpoint lstrip_char (x : ascii) (s : pystr) : pystr :=
  match s with
  | c :: s' => if bool_decide (c = x) then lstrip_char x s' else s
  | [] => []
  end.

Definition strip_char (x : ascii) (s : pystr) : pystr :=
  rev (lstrip_char x (rev (lstrip_char x s))).

(** The resolution folders of shows and of movies. *)
Definition show_resolution_folder (file : pystr) : pystr :=
  let resolution := extract_resolution_from_filename file in
  if Py.contains (str "remux") (Py.lower_str file) then
    if Py.contains (str "2160") file
       || Py.contains (str "4k") (Py.lower_str file)
    then str "UltraHDRemuxShows"
    else if Py.contains (str "1080") file then str "1080pRemuxLibrary"
    else str "RemuxShows"
  else
    match resolution with
    | Some r =>
        if bool_decide (r = str "2160p") then str "UltraHD"
        else if bool_decide (r = str "4k") then str "UltraHD"
        else if bool_decide (r = str "1080p") then str "FullHD"
        else if bool_decide (r = str "720p") then str "SDClassics"
        else if bool_decide (r = str "480p") then str "Retro480p"
        else if bool_decide (r = str "DVD") then str "RetroDVD"
        else str "Shows"
    | None => str "Shows"
    end.

Definition movie_resolution_folder (file : pystr) : pystr :=
  let resolution := extract_resolution_from_filename file in
  if Py.contains (str "remux") (Py.lower_str file) then
    if Py.contains (str "2160") file
       || Py.contains (str "4k") (Py.lower_str file)
    then str "4KRemux"
    else if Py.contains (str "1080") file then str "1080pRemux"
    else str "MoviesRemux"
  else
    match resolution with
    | Some r =>
        if bool_decide (r = str "2160p") then str "UltraHD"
        else if bool_decide (r = str "4k") then str "UltraHD"
        else if bool_decide (r = str "1080p") then str "FullHD"
        else if bool_decide (r = str "720p") then str "SDMovies"
        else if bool_decide (r = str "480p") then str "Retro480p"
        else if bool_decide (r = str "DVD") then str "DVDClassics"
        else str "Movies"
    | None => str "Movies"
    end.

(** *** The environment and the state of a run *)

Record env : Type := {
  environ : gmap pystr pystr;       (* os.environ *)
  net : provider;                   (* what the provider answers *)
  stdin : nat -> pystr;             (* the lines [input()] reads *)
  quote_plus : pystr -> pystr;      (* urllib.parse.quote_plus *)
  normpath : pystr -> pystr;        (* os.path.normpath *)
}.

Definition with_net (E : env) (p : provider) : env :=
  {| environ := environ E; net := p; stdin := stdin E;
     quote_plus := quote_plus E; normpath := normpath E |}.

(** What [search_movie] returns: a string, a dict or [None]. *)
Inductive movie_ret : Type :=
| MStr (s : pystr)
| MDict (c : candidate)
| MNone.

Record world : Type := {
  w_fs : Fs.tree;
  w_api_cache : gmap (pystr * pyval) pystr;             (* _api_cache *)
  w_lru_tv : gmap (pystr * pyval * bool) pystr;         (* lru_cache *)
  w_lru_movie : gmap (pystr * pyval * bool) movie_ret;  (* lru_cache *)
  w_requests : list request;        (* the requests sent, oldest first *)
  w_log : list (level * string);    (* the calls of log_message *)
  w_stdout : list string;           (* the calls of print *)
  w_api_warning_logged : bool;
  w_stdin_pos : nat;
}.

Definition set_fs (t : Fs.tree) (w : world) : world :=
  {| w_fs := t; w_api_cache := w_api_cache w; w_lru_tv := w_lru_tv w;
     w_lru_movie := w_lru_movie w; w_requests := w_requests w;
     w_log := w_log w; w_stdout := w_stdout w;
     w_api_warning_logged := w_api_warning_logged w;
     w_stdin_pos := w_stdin_pos w |}.

Definition set_api_cache (c : gmap (pystr * pyval) pystr) (w : world)
    : world :=
  {| w_fs := w_fs w; w_api_cache := c; w_lru_tv := w_lru_tv w;
     w_lru_movie := w_lru_movie w; w_requests := w_requests w;
     w_log := w_log w; w_stdout := w_stdout w;
     w_api_warning_logged := w_api_warning_logged w;
     w_stdin_pos := w_stdin_pos w |}.

Definition set_lru_tv (c : gmap (pystr * pyval * bool) pystr) (w : world)
    : world :=
  {| w_fs := w_fs w; w_api_cache := w_api_cache w; w_lru_tv := c;
     w_lru_movie := w_lru_movie w; w_requests := w_requests w;
     w_log := w_log w; w_stdout := w_stdout w;
     w_api_warning_logged := w_api_warning_logged w;
     w_stdin_pos := w_stdin_pos w |}.

Definition set_lru_movie (c : gmap (pystr * pyval * bool) movie_ret)
    (w : world) : world :=
  {| w_fs := w_fs w; w_api_cache := w_api_cache w; w_lru_tv := w_lru_tv w;
     w_lru_movie := c; w_requests := w_requests w;
     w_log := w_log w; w_stdout := w_stdout w;
     w_api_warning_logged := w_api_warning_logged w;
     w_stdin_pos := w_stdin_pos w |}.

Definition set_requests (l : list request) (w : world) : world :=
  {| w_fs := w_fs w; w_api_cache := w_api_cache w; w_lru_tv := w_lru_tv w;
     w_lru_movie := w_lru_movie w; w_requests := l;
     w_log := w_log w; w_stdout := w_stdout w;
     w_api_warning_logged := w_api_warning_logged w;
     w_stdin_pos := w_stdin_pos w |}.

Definition set_log (l : list (level * string)) (w : world) : world :=
  {| w_fs := w_fs w; w_api_cache := w_api_cache w; w_lru_tv := w_lru_tv w;
     w_lru_movie := w_lru_movie w; w_requests := w_requests w;
     w_log := l; w_stdout := w_stdout w;
     w_api_warning_logged := w_api_warning_logged w;
     w_stdin_pos := w_stdin_pos w |}.

Definition set_stdout (l : list string) (w : world) : world :=
  {| w_fs := w_fs w; w_api_cache := w_api_cache w; w_lru_tv := w_lru_tv w;
     w_lru_movie := w_lru_movie w; w_requests := w_requests w;
     w_log := w_log w; w_stdout := l;
     w_api_warning_logged := w_api_warning_logged w;
     w_stdin_pos := w_stdin_pos w |}.

Definition set_api_warning_logged (b : bool) (w : world) : world :=
  {| w_fs := w_fs w; w_api_cache := w_api_cache w; w_lru_tv := w_lru_tv w;
     w_lru_movie := w_lru_movie w; w_requests := w_requests w;
     w_log := w_log w; w_stdout := w_stdout w;
     w_api_warning_logged := b;
     w_stdin_pos := w_stdin_pos w |}.

Definition set_stdin_pos (n : nat) (w : world) : world :=
  {| w_fs := w_fs w; w_api_cache := w_api_cache w; w_lru_tv := w_lru_tv w;
     w_lru_movie := w_lru_movie w; w_requests := w_requests w;
     w_log := w_log w; w_stdout := w_stdout w;
     w_api_warning_logged := w_api_warning_logged w;
     w_stdin_pos := n |}.

(** A fresh process over a given tree. *)
Definition fresh (t : Fs.tree) : world :=
  {| w_fs := t; w_api_cache := ∅; w_lru_tv := ∅; w_lru_movie := ∅;
     w_requests := []; w_log := []; w_stdout := [];
     w_api_warning_logged := false; w_stdin_pos := 0 |}.

(** [log_message(message, level)]: the call is recorded with the text of
    the format string as it stands in the source. *)
Definition log_message (message : string) (lv : level) : M world unit :=
  modify (fun w => set_log (w_log w ++ [(lv, message)]) w).

Definition print (message : string) : M world unit :=
  modify (fun w => set_stdout (w_stdout w ++ [message]) w).

(** A file-system operation inside a run. *)
Definition on_fs {A} (m : M Fs.tree A) : M world A :=
  fun w => let '(r, t) := m (w_fs w) in (r, set_fs t w).

Definition sent (r : request) : M world unit :=
  modify (fun w => set_requests (w_requests w ++ [r]) w).


(** *** Configuration and the provider calls *)

Section Run.
Variable E : env.

Definition getenv (name : string) : option pystr := environ E !! str name.

(** [os.getenv(name, default).lower() in ['true', '1', 'yes']]. *)
Definition flag (name default : string) : bool :=
  let v := match getenv name with Some v => v | None => str default end in
  bool_decide (Py.lower_str v ∈ map str ["true"; "1"; "yes"]%string).

Definition is_tmdb_folder_id_enabled : bool :=
  flag "TMDB_FOLDER_ID" "true".
Definition is_rename_enabled : bool :=
  flag "RENAME_ENABLED" "false".
Definition is_movie_collection_enabled : bool :=
  flag "MOVIE_COLLECTION_ENABLED" "false".
Definition is_skip_extras_folder_enabled : bool :=
  flag "SKIP_EXTRAS_FOLDER" "false".

(** A key that [get_api_key] accepts. *)
Definition usable_key (k : option pystr) : Prop :=
  exists key, k = Some key /\ key <> []
              /\ key <> str "your_tmdb_api_key_here".

Definition get_api_key : M world (option pystr) :=
  let api_key := getenv "TMDB_API_KEY" in
  let missing :=
    match api_key with
    | None => true
    | Some k => bool_decide (k = [])
                || bool_decide (k = str "your_tmdb_api_key_here")
    end in
  if missing then
    let* warned := gets w_api_warning_logged in
    do (if warned then ret tt
        else
          do log_message
               "TMDb API key not found or is a placeholder. TMDb functionality is not enabled."
               WARNING
          then modify (set_api_warning_logged true))
    then ret None
  else ret api_key.

(** [input(prompt)]. *)
Definition input : M world pystr :=
  let* n := gets w_stdin_pos in
  do modify (set_stdin_pos (S n)) then ret (stdin E n).

(** [requests.get(url, params)], [raise_for_status()] and [json()]. *)
Definition get_search (kind : media) (query : qval) (year : pyval)
    : M world (reply (list candidate)) :=
  do sent (ReqSearch kind query year)
  then ret (search_api (net E) kind query year).

Definition get_web (query : pystr) : M world (reply (option pystr)) :=
  do sent (ReqWebSearch query) then ret (search_web (net E) query).

Definition get_details (kind : media) (id : pystr)
    : M world (reply (option candidate)) :=
  do sent (ReqDetails kind id) then ret (details (net E) kind id).

(** [date.split('-')[0] if date else "Unknown Year"]. *)
Fixpoint before_dash (s : pystr) : pystr :=
  match s with
  | c :: s' => if bool_decide (c = "-"%char) then [] else c :: before_dash s'
  | [] => []
  end.

Definition year_of_date (date : option pystr) : pystr :=
  match date with
  | Some ((_ :: _) as d) => before_dash d
  | _ => str "Unknown Year"
  end.

Definition fmt_opt (o : option pystr) : pystr :=
  match o with Some s => s | None => str "None" end.

(** [f"{name} ({year}) {{tmdb-{id}}}"]. *)
Definition tmdb_name (name : option pystr) (year : pystr) (id : pyval)
    : pystr :=
  fmt_opt name ++ str " (" ++ year ++ str ") {tmdb-" ++ PyVal.fmt id
    ++ str "}".

(** [str.isdigit] and [int] on the line the user typed. *)
Definition isdigit (s : pystr) : bool :=
  negb (bool_decide (s = []))
  && forallb (fun c => Py.is_digit c || Py.is_code 178 c
                       || Py.is_code 179 c || Py.is_code 185 c) s.

Definition int_of_str (s : pystr) : M world Z :=
  if forallb Py.is_digit s && negb (bool_decide (s = []))
  then ret (Py.int_of_digits s) else raise ValueError.

(** [choice = input(...).strip()] and the pick among [results]. *)
Definition ask_choice (results : list candidate)
    : M world (option candidate) :=
  let* line := input in
  let choice := Py.strip line in
  if isdigit choice then
    let* n := int_of_str choice in
    if ((1 <=? n) && (n <=? 3))%Z then
      match results !! Z.to_nat (n - 1) with
      | Some c => ret (Some c)
      | None => raise IndexError
      end
    else ret None
  else ret None.

(** The loop over [enumerate(results[:3])]. *)
Fixpoint log_each {A} (l : list A) (message : string) : M world unit :=
  match l with
  | [] => ret tt
  | _ :: l' => do log_message message INFO then log_each l' message
  end.

Definition cache_put (key : pystr * pyval) (v : pystr) : M world unit :=
  modify (fun w => set_api_cache (<[key := v]> (w_api_cache w)) w).

(** [search_tv_show], the decorated function's body. *)
Definition search_tv_show_body (query : pystr) (year : pyval)
    (auto_select : bool) : M world pystr :=
  let cache_key := (query, year) in
  let* cache := gets w_api_cache in
  match cache !! cache_key with
  | Some v => ret v
  | None =>
      let* api_key := get_api_key in
      match api_key with
      | None => ret query
      | Some _ =>
          let* r := get_search Tv (QStr query)
                      (if PyVal.truthy year then year else PNone) in
          match r with
          | Ok [] => do cache_put cache_key query then ret query
          | Ok ((first :: _) as results) =>
              let chosen_show := if auto_select then Some first else None in
              let chosen_show :=
                if negb auto_select && (length results =? 1)%nat
                then Some first else chosen_show in
              let* chosen_show :=
                match chosen_show with
                | Some c => ret (Some c)
                | None =>
                    do log_message "Multiple shows found for query '{query}':" INFO
                    then do log_each (take 3 results)
                           "{idx + 1}: {show_name} ({show_year}) [tmdb-{show_id}]"
                    then ask_choice results
                end in
              match chosen_show with
              | Some c =>
                  let proper_name :=
                    tmdb_name (c_name c) (year_of_date (c_date c)) (c_id c) in
                  do cache_put cache_key proper_name then ret proper_name
              | None =>
                  do log_message
                       "No valid selection made for query '{query}', skipping."
                       WARNING
                  then do cache_put cache_key query then ret query
              end
          | _ =>
              do log_message "Error fetching data: {e}" ERROR
              then ret query
          end
      end
  end.

(** [@lru_cache(maxsize=None)]: a normal return is remembered under the
    arguments of the call; an exception is not. *)
Definition search_tv_show (query : pystr) (year : pyval)
    (auto_select : bool) : M world pystr :=
  let* memo := gets w_lru_tv in
  match memo !! (query, year, auto_select) with
  | Some v => ret v
  | None =>
      let* v := search_tv_show_body query year auto_select in
      do modify (fun w =>
           set_lru_tv (<[(query, year, auto_select) := v]> (w_lru_tv w)) w)
      then ret v
  end.

(** [perform_search(params, url)]. *)
Definition perform_search (kind : media) (query : qval) (year : pyval)
    : M world (list candidate) :=
  let* r := get_search kind query year in
  match r with
  | Ok results => ret results
  | _ => do log_message "Error fetching data: {e}" ERROR then ret []
  end.

End Run.

(** *** Looking the destination tree over *)

Definition check_existing_variations (name : pystr) (year : pyval)
    (dest_dir : pystr) : M world (option pystr) :=
  do log_message "Checking existing variations for: {name} ({year})" DEBUG
  then
    let* t := gets w_fs in
    let found := find_variation name year (Walk.dirs t dest_dir) in
    do match found with
       | Exact _ => log_message "Found exact matching variation: {d}" DEBUG
       | Closest _ =>
           log_message "Found closest matching variation: {closest_match[0]}"
             DEBUG
       | NoVariation =>
           log_message "No matching variations found for: {name} ({year})"
             DEBUG
       end
    then ret (variation_name found).

(** [build_dest_index]: the paths below [dest_dir]. *)
Definition build_dest_index (dest_dir : pystr) : M world (list pystr) :=
  let* t := gets w_fs in ret (Walk.entries t dest_dir).

(** *** [search_movie] and the other provider calls of [library.py] *)

Definition movie_href_re : regex :=                  (* /movie/(\d+) *)
  cat_all [lit (str "/movie/"); Grp 1 digits].
Definition punctuation_re : regex :=                 (* [^\w\s] *)
  Cls (fun c => negb (Py.is_word c || Py.is_space c)).

Section Pipeline.
Variable E : env.

(** The scraping shared by [perform_fallback_search] and the search by
    year: the first result link of the page, then the details of the
    movie it names. *)
Definition scrape_movie (web_query : pystr) : M world (option candidate) :=
  let* page := get_web E web_query in
  match page with
  | Ok (Some href) =>
      match search movie_href_re href with
      | Some movie_id =>
          let tmdb_id := some_or_empty (group 1 movie_id) in
          let* d := get_details E Movie tmdb_id in
          match d with
          | Ok (Some movie_details) =>
              ret (Some {| c_id := PStr tmdb_id;
                           c_name := c_name movie_details;
                           c_date := c_date movie_details |})
          | Ok None => ret None
          | _ => do log_message "Error fetching data: {e}" ERROR
                 then ret None
          end
      | None => ret None
      end
  | Ok None => ret None
  | _ => do log_message "Error fetching data: {e}" ERROR then ret None
  end.

Definition perform_fallback_search (query : pystr)
    : M world (list candidate) :=
  let cleaned_query := remove_genre_names query in
  let* found := scrape_movie (quote_plus E cleaned_query) in
  match found with
  | Some c => ret [c]
  | None => ret []
  end.

Definition as_dict (chosen_movie : candidate) : candidate :=
  {| c_id := c_id chosen_movie; c_name := c_name chosen_movie;
     c_date := c_date chosen_movie |}.

Definition search_movie_body (query : pystr) (year : pyval)
    (auto_select : bool) : M world movie_ret :=
  let* api_key := get_api_key E in
  match api_key with
  | None => do print "API key is missing." then ret (MStr query)
  | Some _ =>
      let cache_key := (query, year) in
      let* cache := gets w_api_cache in
      match cache !! cache_key with
      | Some v => ret (MStr v)
      | None =>
          let '(title, year_from_query) := clean_query query in
          let normalized_query := normalize_query title in
          let standardized_query := standardize_title normalized_query in
          let encoded_query := quote_plus E standardized_query in
          let* results :=
            perform_search E Movie (QStr encoded_query)
              (if PyVal.truthy year then year else PNone) in
          let* results :=
            match results with
            | [] =>
                let simplified_query :=
                  sub punctuation_re [] standardized_query in
                perform_fallback_search simplified_query
            | _ => ret results
            end in
          let* by_year :=
            match results, year_from_query with
            | [], Some ((_ :: _) as year_query) =>
                scrape_movie (quote_plus E year_query)
            | _, _ => ret None
            end in
          match by_year with
          | Some c => ret (MDict c)
          | None =>
              match results with
              | first :: _ =>
                  let* chosen_movie :=
                    if auto_select then ret (Some first)
                    else if (length results =? 1)%nat then ret (Some first)
                    else
                      do log_message
                           "Multiple movies found for query '{query}':" INFO
                      then do log_each (take 3 results)
                             "{idx + 1}: {movie_name} ({movie_year}) [tmdb-{movie_id}]"
                      then ask_choice E results in
                  match chosen_movie with
                  | Some c => ret (MDict (as_dict c))
                  | None =>
                      do log_message
                           "No valid selection for '{query}', skipping." INFO
                      then ret MNone
                  end
              | [] =>
                  do log_message "No results for '{query}'." INFO
                  then ret MNone
              end
          end
      end
  end.

Definition search_movie (query : pystr) (year : pyval)
    (auto_select : bool) : M world movie_ret :=
  let* memo := gets w_lru_movie in
  match memo !! (query, year, auto_select) with
  | Some v => ret v
  | None =>
      let* v := search_movie_body query year auto_select in
      do modify (fun w =>
           set_lru_movie
             (<[(query, year, auto_select) := v]> (w_lru_movie w)) w)
      then ret v
  end.

Definition get_episode_name (show_id : pystr)
    (season_number episode_number : Z) : M world (option pystr) :=
  let* api_key := get_api_key E in
  match api_key with
  | None =>
      do log_message "TMDb API key not found in environment variables."
           ERROR
      then ret None
  | Some _ =>
      do sent (ReqEpisode (PStr show_id) season_number
                 (Py.str_of_Z episode_number))
      then match episode (net E) (PStr show_id) season_number
                   (Py.str_of_Z episode_number) with
           | Ok name => ret name
           | _ => do log_message "Error fetching episode data: {e}" ERROR
                  then ret None
           end
  end.

Definition get_movie_collection (movie_id : pystr)
    : M world (option (pystr * pyval)) :=
  let* api_key := get_api_key E in
  match api_key with
  | None => ret None
  | Some _ =>
      do sent (ReqCollection movie_id)
      then match collection (net E) movie_id with
           | Ok c => ret c
           | _ =>
               do log_message "Error fetching movie collection data: {e}"
                    ERROR
               then ret None
           end
  end.

End Pipeline.

(** *** [process_show] *)

(** What the first part of [process_show] works out from the names. *)
Record show_parts : Type := {
  show_name : pystr;
  season_number : pystr;
  episode_identifier : option pystr;
  create_extras_folder : bool;
}.

Definition clean_dots (s : pystr) : pystr :=
  Py.strip (Py.replace_char "." (str " ") s).

Definition is_match (r : regex) (s : pystr) : bool :=
  bool_decide (is_Some (rmatch r s)).

Definition group1 (r : regex) (s : pystr) : option pystr :=
  search r s ≫= group 1.

(** The branch [if episode_match: ... else: ...]. *)
Definition show_parts_of (parent_folder_name clean_folder_name : pystr)
    (episode_match : option mtch) : show_parts :=
  match episode_match with
  | Some m =>
      let from_file := clean_dots (some_or_empty (group 1 m)) in
      let episode_identifier := some_or_empty (group 2 m) in
      let '(show_name, episode_identifier, extras) :=
        if is_match sxxeyy_re episode_identifier then
          (Py.strip
             (Py.replace_char "." (str " ")
                (Py.replace_char "-" (str " ")
                   (sub season_suffix_re [] clean_folder_name))),
           episode_identifier, false)
        else if is_match nxm_re episode_identifier then
          let season_number :=
            some_or_empty (group1 season_of_nxm_re episode_identifier) in
          (from_file,
           str "S" ++ season_number ++ str "E"
             ++ nth 1 (split_on "x" episode_identifier) [],
           false)
        else if is_match sxxyy_re episode_identifier then
          (from_file,
           str "S" ++ take 2 (drop 1 episode_identifier) ++ str "E"
             ++ drop 3 episode_identifier,
           false)
        else if is_match xxeyy_re episode_identifier then
          (from_file,
           str "S" ++ take 2 episode_identifier ++ str "E"
             ++ drop 2 episode_identifier,
           false)
        else if is_match ep_re episode_identifier then
          let episode_number :=
            some_or_empty (group1 ep_number_re episode_identifier) in
          let season_number :=
            match group1 s_season_re parent_folder_name with
            | Some s => s
            | None => str "01"
            end in
          (from_file,
           str "S" ++ season_number ++ str "E" ++ episode_number, false)
        else (from_file, str "S01E01", true) in
      let season_number :=
        match group1 season_episode_re episode_identifier with
        | Some s => s
        | None =>
            match group1 number_re episode_identifier with
            | Some s => s
            | None => str "01"
            end
        end in
      {| show_name := show_name; season_number := season_number;
         episode_identifier := Some episode_identifier;
         create_extras_folder := extras |}
  | None =>
      let season_number :=
        match search folder_season_re parent_folder_name with
        | Some season_match =>
            match group 1 season_match with
            | Some ((_ :: _) as s) => s
            | _ => some_or_empty (group 2 season_match)
            end
        | None => str "01"
        end in
      {| show_name := clean_folder_name; season_number := season_number;
         episode_identifier := None; create_extras_folder := true |}
  end.

Definition resolution_shelves : list pystr :=
  map str ["UltraHD"; "FullHD"; "SDClassics"; "Retro480p"; "RetroDVD";
           "Shows"]%string.

Section Shows.
Variable E : env.

(** [find_show_folder_in_resolution_folders] *)
Definition find_show_folder_in_resolution_folders (dest_dir show_folder
    : pystr) : M world (option pystr) :=
  let* t := gets w_fs in
  ret (list_find (Fs.isdir t)
         (map (fun res_folder =>
                 Path.join_all dest_dir
                   [str "CineSync"; str "Shows"; res_folder; show_folder])
              resolution_shelves)
       ≫= (Some ∘ snd)).

Definition process_show (src_file root file dest_dir actual_dir : pystr)
    (tmdb_folder_id_enabled rename_enabled auto_select : bool)
    (dest_index : list pystr) (episode_match : option mtch)
    : M world (option pystr) :=
  let parent_folder_name := Path.basename root in
  let clean_folder_name := fst (clean_query parent_folder_name) in
  let parts := show_parts_of parent_folder_name clean_folder_name
                 episode_match in
  let show_name := show_name parts in
  let season_number := season_number parts in
  let create_extras_folder := create_extras_folder parts in
  let season_folder :=
    str "Season " ++ Py.str_of_Z (Py.int_of_digits season_number) in
  let show_name :=
    if bool_decide (show_name = [])
       || bool_decide (Py.lower_str show_name
                         ∈ [str "invalid name"; str "unknown"])
    then
      Py.strip (Py.replace_char "." (str " ")
                  (sub trailing_re [] clean_folder_name))
    else show_name in
  let show_folder := Py.rstrip (sub trailing_re [] show_name) in
  let year :=
    PyVal.por (PyVal.of_int (extract_folder_year parent_folder_name))
              (PyVal.of_int (extract_year show_folder)) in
  let show_folder :=
    if PyVal.truthy year then
      Py.strip (sub year_tail_re []
                  (Py.strip (sub paren_year_tail_re [] show_folder)))
    else show_folder in
  let* api_key := get_api_key E in
  let* named :=
    match api_key with
    | Some _ =>
        let* proper_show_name := search_tv_show E show_folder year auto_select in
        let* proper_show_name :=
          if Py.contains (str "TMDb API error") proper_show_name then
            do log_message
                 "Could not find TV show in TMDb or TMDb API error: {show_folder} ({year})"
                 ERROR
            then ret show_folder
          else ret proper_show_name in
        ret (Some proper_show_name,
             if tmdb_folder_id_enabled then proper_show_name
             else sub tmdb_tag_re [] proper_show_name)
    | None => ret (None, show_folder)
    end in
  let proper_show_name : option pystr := fst named in
  let show_folder := Py.replace_char "/" [] (snd named) in
  let show_folder :=
    if PyVal.truthy year
       && negb (Py.contains (str "(" ++ PyVal.fmt year ++ str ")")
                  show_folder)
    then show_folder ++ str " (" ++ PyVal.fmt year ++ str ")"
    else show_folder in
  let resolution_folder := show_resolution_folder file in
  let base_dest_path :=
    Path.join_all dest_dir
      [str "CineSync"; str "Shows"; resolution_folder; show_folder] in
  let season_dest_path := Path.join base_dest_path season_folder in
  let extras_base_dest_path :=
    Path.join_all dest_dir
      [str "CineSync"; str "Shows"; str "Extras"; show_folder] in
  let extras_dest_path := Path.join extras_base_dest_path (str "Extras") in
  let* existing_show_folder_path :=
    find_show_folder_in_resolution_folders dest_dir show_folder in
  let* placed :=
    match existing_show_folder_path with
    | Some existing =>
        let extras_dest_path := Path.join existing (str "Extras") in
        if is_skip_extras_folder_enabled E && create_extras_folder then
          do log_message
               "Skipping symlinking of extras file: {file} due to SKIP_EXTRAS_FOLDER being enabled."
               INFO
          then ret None
        else
          let* t := gets w_fs in
          do (if create_extras_folder && negb (Fs.exists_ t extras_dest_path)
              then on_fs (Fs.makedirs extras_dest_path) else ret tt)
          then ret (Some (Path.join extras_dest_path file))
    | None =>
        if create_extras_folder && negb (is_skip_extras_folder_enabled E)
        then
          do on_fs (Fs.makedirs extras_base_dest_path)
          then ret (Some (Path.join extras_dest_path file))
        else ret (Some (Path.join base_dest_path file))
    end in
  match placed with
  | None => ret None
  | Some dest_file =>
      match episode_identifier parts with
      | Some episode_identifier =>
          if rename_enabled then
            let ext := Path.splitext_ext file in
            let plain := show_name ++ str " - " ++ episode_identifier ++ ext in
            let* proper_show_name :=
              match proper_show_name with
              | Some p => ret p
              | None => raise NameError
              end in
            let* new_name :=
              match search tmdb_id_re proper_show_name with
              | Some tmdb_id_match =>
                  let show_id := some_or_empty (group 1 tmdb_id_match) in
                  let* episode_number :=
                    match search e_number_re episode_identifier with
                    | Some m => ret (some_or_empty (group 1 m))
                    | None => raise AttributeError
                    end in
                  let* episode_name :=
                    get_episode_name E show_id
                      (Py.int_of_digits season_number)
                      (Py.int_of_digits episode_number) in
                  match episode_name with
                  | Some ((_ :: _) as episode_name) =>
                      do log_message
                           "Renaming {file} to {new_name} based on episode name {episode_name}"
                           INFO
                      then ret (show_name ++ str " - S" ++ season_number
                                  ++ str "E" ++ episode_number ++ str " - "
                                  ++ episode_name ++ ext)
                  | _ =>
                      do log_message
                           "Episode name not found for {file}, renaming to {new_name}"
                           WARNING
                      then ret (show_name ++ str " - S" ++ season_number
                                  ++ str "E" ++ episode_number ++ ext)
                  end
              | None => ret plain
              end in
            let new_name :=
              strip_char "-" (sub dashes_re (str "-") new_name) in
            ret (Some (Path.join season_dest_path new_name))
          else ret (Some (Path.join season_dest_path file))
      | None => ret (Some dest_file)
      end
  end.

End Shows.

(** *** [process_movie], [process_file] and [create_symlinks] *)

Section Files.
Variable E : env.

(** [f"{result['title']} ({result.get('release_date', '').split('-')[0]})
    {{tmdb-{result['id']}}}"] *)
Definition proper_name_of (result : candidate) : M world pystr :=
  match c_date result with
  | Some release_date =>
      ret (tmdb_name (c_name result) (before_dash release_date)
             (c_id result))
  | None => raise AttributeError
  end.

Definition process_movie (src_file root file dest_dir actual_dir : pystr)
    (tmdb_folder_id_enabled rename_enabled auto_select : bool)
    (dest_index : list pystr) : M world (option pystr) :=
  let parent_folder_name := Path.basename root in
  match extract_movie_name_and_year parent_folder_name with
  | (Some ((_ :: _) as movie_name), year) =>
      let year := PyVal.of_str year in
      let movie_name := standardize_title movie_name in
      let plain_name :=
        movie_name ++ str " (" ++ PyVal.fmt year ++ str ")" in
      do log_message "Searching for movie: {movie_name} ({year})" DEBUG
      then
      let* api_key := get_api_key E in
      let* found :=
        match api_key with
        | Some _ =>
            let* result := search_movie E movie_name year auto_select in
            match result with
            | MDict result =>
                let* proper_movie_name := proper_name_of result in
                if is_movie_collection_enabled E then
                  match search tmdb_id_re proper_movie_name with
                  | Some tmdb_id_match =>
                      let* collection_info :=
                        get_movie_collection E
                          (some_or_empty (group 1 tmdb_id_match)) in
                      ret (proper_movie_name, collection_info)
                  | None => raise TypeError
                  end
                else ret (proper_movie_name, None)
            | _ =>
                do log_message
                     "Could not find movie in TMDb or TMDb API error: {movie_name} ({year})"
                     ERROR
                then ret (plain_name, None)
            end
        | None => ret (plain_name, None)
        end in
      let proper_movie_name := fst found in
      let collection_info :=
        if is_movie_collection_enabled E then snd found else None in
      do log_message "Found movie: {proper_movie_name}" INFO
      then
      let* collection_folder :=
        match collection_info with
        | Some (collection_name, collection_id) =>
            do log_message "Movie belongs to collection: {collection_name}"
                 INFO
            then ret (Some (collection_name ++ str " {tmdb-"
                              ++ PyVal.fmt collection_id ++ str "}"))
        | None => ret None
        end in
      let* movie_folder :=
        match collection_info with
        | Some _ => ret proper_movie_name
        | None =>
            do log_message
                 (if tmdb_folder_id_enabled
                  then "TMDB_FOLDER_ID enabled: {is_tmdb_folder_id_enabled()}"
                  else "TMDB_FOLDER_ID not enabled: {is_tmdb_folder_id_enabled()}")
                 DEBUG
            then ret (Py.replace_char "/" []
                        (if tmdb_folder_id_enabled then proper_movie_name
                         else sub tmdb_tag_re [] proper_movie_name))
        end in
      let movie_folder :=
        if PyVal.truthy year
           && negb (Py.contains (str "(" ++ PyVal.fmt year ++ str ")")
                      movie_folder)
        then movie_folder ++ str " (" ++ PyVal.fmt year ++ str ")"
        else movie_folder in
      let* existing_variation :=
        check_existing_variations movie_folder year dest_dir in
      let* movie_folder :=
        match existing_variation with
        | Some ((_ :: _) as v) =>
            do log_message
                 "Found existing variation for {movie_folder}: {existing_variation}"
                 INFO
            then ret v
        | _ => ret movie_folder
        end in
      let resolution_folder :=
        match collection_info with
        | Some _ => str "Movie Collections"
        | None => movie_resolution_folder file
        end in
      let* existing_variation :=
        match collection_info with
        | Some _ => ret existing_variation
        | None => check_existing_variations movie_folder year dest_dir
        end in
      let* folders :=
        match existing_variation with
        | Some ((_ :: _) as v) =>
            do log_message
                 "Found existing variation for {collection_folder if collection_info else movie_folder}: {existing_variation}"
                 INFO
            then match collection_info with
                 | Some _ => ret (Some v, movie_folder)
                 | None => ret (collection_folder, v)
                 end
        | _ => ret (collection_folder, movie_folder)
        end in
      let dest_path :=
        match collection_info, fst folders with
        | Some _, Some collection_folder =>
            Path.join_all dest_dir
              [str "CineSync"; str "Movies"; resolution_folder;
               collection_folder; snd folders]
        | _, _ =>
            Path.join_all dest_dir
              [str "CineSync"; str "Movies"; resolution_folder;
               snd folders]
        end in
      do on_fs (Fs.makedirs dest_path)
      then
      let new_name :=
        if rename_enabled
        then Path.basename proper_movie_name ++ Path.splitext_ext file
        else file in
      ret (Some (Path.join dest_path new_name))
  | _ =>
      do log_message
           "Unable to extract movie name and year from: {parent_folder_name}"
           ERROR
      then ret None
  end.

(** Lines 812 to 833 of [process_file]: the link is put in place. *)
Definition materialize (src_file dest_file : pystr) : M world unit :=
  do on_fs (Fs.makedirs (Path.dirname dest_file))
  then
  let* t := gets w_fs in
  let* go_on :=
    if Fs.islink t dest_file then
      if bool_decide (Fs.readlink t dest_file = Some src_file) then
        do log_message
             "Symlink already exists for {os.path.basename(dest_file)}" INFO
        then ret false
      else do on_fs (Fs.remove dest_file) then ret true
    else ret true in
  if negb go_on then ret tt
  else
    let* t := gets w_fs in
    if Fs.exists_ t dest_file && negb (Fs.islink t dest_file) then
      log_message
        "File already exists at destination: {os.path.basename(dest_file)}"
        INFO
    else
      do (if Fs.isdir t src_file
          then on_fs (Fs.copytree src_file dest_file)
          else on_fs (Fs.symlink src_file dest_file))
      then do log_message "Created symlink: {dest_file} -> {src_file}" DEBUG
      then log_message "Processed file: {src_file} to {dest_file}" INFO.

Definition show_keywords : list pystr :=
  map str ["season"; "episode"; "s01"; "s02"; "s03"; "s04"; "s05"]%string.

(** One task of the pool; [args] is the tuple built by
    [create_symlinks]. *)
Definition process_file
    (args : pystr * pystr * pystr * pystr * pystr * bool * bool * bool
            * list pystr) : M world unit :=
  let '(src_file, root, file, dest_dir, actual_dir,
        tmdb_folder_id_enabled, rename_enabled, auto_select,
        dest_index) := args in
  let* t := gets w_fs in
  let symlink_exists :=
    existsb (fun full_dest_file =>
               Fs.islink t full_dest_file
               && bool_decide (Fs.readlink t full_dest_file = Some src_file))
      dest_index in
  if symlink_exists then
    log_message "Symlink already exists for {os.path.basename(file)}" INFO
  else
    let is_show_directory :=
      existsb (fun keyword => Py.contains keyword (Py.lower_str root))
        show_keywords in
    let episode_match := search episode_re file in
    let* dest_file :=
      if bool_decide (is_Some episode_match) || is_show_directory then
        process_show E src_file root file dest_dir actual_dir
          tmdb_folder_id_enabled rename_enabled auto_select dest_index
          episode_match
      else
        process_movie src_file root file dest_dir actual_dir
          tmdb_folder_id_enabled rename_enabled auto_select dest_index in
    match dest_file with
    | None => raise TypeError     (* os.path.dirname(None) *)
    | Some dest_file => materialize src_file dest_file
    end.

(** A task submitted to the pool runs to its end; an exception it raises
    is kept in its future. *)
Definition run_task {A} (m : M world A) : M world (outcome A) :=
  fun w => let '(r, w') := m w in (Ret r, w').

Fixpoint run_tasks {A} (ms : list (M world A)) : M world (list (outcome A)) :=
  match ms with
  | [] => ret []
  | m :: ms' =>
      let* r := run_task m in
      let* rs := run_tasks ms' in
      ret (r :: rs)
  end.

(** [for task in tasks: task.result()] *)
Fixpoint results {A} (rs : list (outcome A)) : M world unit :=
  match rs with
  | [] => ret tt
  | Ret _ :: rs' => results rs'
  | Raise e :: _ => raise e
  end.

(** [create_symlinks]: the source directories are scanned, then the
    tasks are run one after another in the order of their submission. *)
Definition create_symlinks (src_dirs : list pystr) (dest_dir : pystr)
    (auto_select : bool) (single_path : option pystr) : M world unit :=
  do on_fs (Fs.makedirs dest_dir)
  then
  let tmdb_folder_id_enabled := is_tmdb_folder_id_enabled E in
  let rename_enabled := is_rename_enabled E in
  let src_dirs :=
    match single_path with
    | Some ((_ :: _) as p) => [p]
    | _ => src_dirs
    end in
  let* dest_index := build_dest_index dest_dir in
  do log_each src_dirs
       "Scanning source directory: {src_dir} (actual: {actual_dir})"
  then
  let* t := gets w_fs in
  let tasks :=
    flat_map (fun src_dir =>
      let actual_dir := Path.basename (normpath E src_dir) in
      map (fun '(root, file) =>
             process_file
               (Path.join root file, root, file, dest_dir, actual_dir,
                tmdb_folder_id_enabled, rename_enabled, auto_select,
                dest_index))
          (Walk.files t src_dir)) src_dirs in
  let* futures := run_tasks tasks in
  results futures.

End Files.

End Library.

(** ** [MediaHub/api/tmdb_api.py] *)

Module TmdbApi.
Import Re.

(** The configuration and the helpers imported from [config.config] and
    [utils.file_utils], the provider and the console. *)
Record env : Type := {
  get_api_key : option pystr;
  is_imdb_folder_id_enabled : bool;
  is_tvdb_folder_id_enabled : bool;
  is_tmdb_folder_id_enabled : bool;
  extract_title : pystr -> pystr;
  clean_query_movie : pystr -> qval;
  clean_query : pystr -> pystr * option pystr;
  remove_genre_names : pystr -> pystr;
  net : provider;
  stdin : nat -> pystr;
}.

Definition with_net (E : env) (p : provider) : env :=
  {| get_api_key := get_api_key E;
     is_imdb_folder_id_enabled := is_imdb_folder_id_enabled E;
     is_tvdb_folder_id_enabled := is_tvdb_folder_id_enabled E;
     is_tmdb_folder_id_enabled := is_tmdb_folder_id_enabled E;
     extract_title := extract_title E;
     clean_query_movie := clean_query_movie E;
     clean_query := clean_query E;
     remove_genre_names := remove_genre_names E;
     net := p;
     stdin := stdin E |}.

(** What [search_movie] returns: a string, the pair [(file,
    cleaned_title)] or the triple [(tmdb_id, imdb_id, movie_name)]. *)
Inductive movie_result : Type :=
| RStr (s : pystr)
| RFile (file : pystr) (cleaned_title : qval)
| RIds (tmdb_id : pyval) (imdb_id : pystr) (movie_name : option pystr).

Abbreviation movie_args :=
  (pystr * pyval * bool * option pystr * option pystr)%type.

Record world : Type := {
  w_api_cache : gmap (pystr * pyval) pystr;    (* _api_cache *)
  w_lru_movie : gmap movie_args movie_result;  (* lru_cache of search_movie *)
  w_requests : list request;        (* the requests sent, oldest first *)
  w_log : list (level * string);    (* the calls of log_message *)
  w_api_warning_logged : bool;
  w_stdin_pos : nat;
}.

Definition set_api_cache (c : gmap (pystr * pyval) pystr) (w : world)
    : world :=
  {| w_api_cache := c; w_lru_movie := w_lru_movie w;
     w_requests := w_requests w; w_log := w_log w;
     w_api_warning_logged := w_api_warning_logged w;
     w_stdin_pos := w_stdin_pos w |}.

Definition set_lru_movie (c : gmap movie_args movie_result) (w : world)
    : world :=
  {| w_api_cache := w_api_cache w; w_lru_movie := c;
     w_requests := w_requests w; w_log := w_log w;
     w_api_warning_logged := w_api_warning_logged w;
     w_stdin_pos := w_stdin_pos w |}.

Definition set_requests (l : list request) (w : world) : world :=
  {| w_api_cache := w_api_cache w; w_lru_movie := w_lru_movie w;
     w_requests := l; w_log := w_log w;
     w_api_warning_logged := w_api_warning_logged w;
     w_stdin_pos := w_stdin_pos w |}.

Definition set_log (l : list (level * string)) (w : world) : world :=
  {| w_api_cache := w_api_cache w; w_lru_movie := w_lru_movie w;
     w_requests := w_requests w; w_log := l;
     w_api_warning_logged := w_api_warning_logged w;
     w_stdin_pos := w_stdin_pos w |}.

Definition set_api_warning_logged (b : bool) (w : world) : world :=
  {| w_api_cache := w_api_cache w; w_lru_movie := w_lru_movie w;
     w_requests := w_requests w; w_log := w_log w;
     w_api_warning_logged := b;
     w_stdin_pos := w_stdin_pos w |}.

Definition set_stdin_pos (n : nat) (w : world) : world :=
  {| w_api_cache := w_api_cache w; w_lru_movie := w_lru_movie w;
     w_requests := w_requests w; w_log := w_log w;
     w_api_warning_logged := w_api_warning_logged w;
     w_stdin_pos := n |}.

(** Two states that differ in the log at most. *)
Definition same_but_log (w1 w2 : world) : Prop :=
  w_api_cache w1 = w_api_cache w2 /\ w_lru_movie w1 = w_lru_movie w2
  /\ w_requests w1 = w_requests w2
  /\ w_api_warning_logged w1 = w_api_warning_logged w2
  /\ w_stdin_pos w1 = w_stdin_pos w2.

(** The caches are as before; requests and log entries have been added. *)
Definition grown (w w' : world) : Prop :=
  w_api_cache w' = w_api_cache w /\ w_lru_movie w' = w_lru_movie w
  /\ (exists more, w_requests w' = w_requests w ++ more)
  /\ (exists more, w_log w' = w_log w ++ more).

(** Two computations that agree on related states, up to the log. *)
Definition sim {A} (m1 m2 : M world A) : Prop :=
  forall w1 w2, same_but_log w1 w2 ->
    fst (m1 w1) = fst (m2 w2) /\ same_but_log (snd (m1 w1)) (snd (m2 w2)).

(** A fresh process. *)
Definition fresh : world :=
  {| w_api_cache := ∅; w_lru_movie := ∅; w_requests := []; w_log := [];
     w_api_warning_logged := false; w_stdin_pos := 0 |}.

Definition log_message (message : string) (lv : level) : M world unit :=
  modify (fun w => set_log (w_log w ++ [(lv, message)]) w).

Definition sent (r : request) : M world unit :=
  modify (fun w => set_requests (w_requests w ++ [r]) w).

Definition cache_put (key : pystr * pyval) (v : pystr) : M world unit :=
  modify (fun w => set_api_cache (<[key := v]> (w_api_cache w)) w).

Definition nonempty (o : option pystr) : bool :=
  match o with Some (_ :: _) => true | _ => false end.

Section Run.
Variable E : env.

(** The module global [api_key = get_api_key()]. *)
Definition api_key : option pystr := get_api_key E.

Definition input : M world pystr :=
  let* n := gets w_stdin_pos in
  do modify (set_stdin_pos (S n)) then ret (stdin E n).

Definition check_api_key : M world bool :=
  if negb (nonempty api_key) then ret false
  else
    do sent ReqConfiguration
    then match configuration (net E) with
         | Ok _ => ret true
         | _ =>
             let* warned := gets w_api_warning_logged in
             do (if warned then ret tt
                 else do log_message "API key validation failed: {e}" ERROR
                      then modify (set_api_warning_logged true))
             then ret false
         end.

Definition get_external_ids (item_id : pyval) (media_type : media)
    : M world (option pystr) :=
  do sent (ReqExternalIds media_type item_id)
  then match external_ids (net E) media_type item_id with
       | Ok ids => ret ids
       | _ => do log_message "Error fetching external IDs: {e}" ERROR
              then ret None
       end.

(** [perform_search(params, url)] *)
Definition perform_search (kind : media) (query : qval) (year : pyval)
    : M world (list candidate) :=
  do sent (ReqSearch kind query year)
  then match search_api (net E) kind query year with
       | Ok results => ret results
       | _ => do log_message "Error fetching data: {e}" ERROR then ret []
       end.

(** [get_episode_name] *)
Definition episode_label (season_number : Z) (episode : pystr)
    (name : option pystr) : pystr :=
  str "S" ++ Py.fmt_02d season_number ++ str "E" ++ episode ++ str " - "
    ++ match name with Some n => n | None => str "None" end.

Definition get_episode (show_id : pyval) (season_number : Z)
    (number : pystr) : M world (reply (option pystr)) :=
  do sent (ReqEpisode show_id season_number number)
  then ret (episode (net E) show_id season_number number).

Definition get_season (show_id : pyval) (season_number : Z)
    : M world (reply nat) :=
  do sent (ReqSeason show_id season_number)
  then ret (season (net E) show_id season_number).

(** [(int(episode_number) % total_season_episodes) or
    total_season_episodes]. *)
Definition mapped_episode (episode_number total : Z) : Z :=
  if (episode_number mod total =? 0)%Z then total
  else (episode_number mod total)%Z.

Definition get_episode_name (show_id : pyval)
    (season_number episode_number : Z) : M world (option pystr) :=
  if negb (nonempty (get_api_key E)) then
    do log_message "TMDb API key not found in environment variables." ERROR
    then ret None
  else
    let* r := get_episode show_id season_number
                (Py.str_of_Z episode_number) in
    match r with
    | Ok episode_name =>
        ret (Some (episode_label season_number
                     (Py.fmt_02d episode_number) episode_name))
    | HttpError status =>
        if (status =? 404)%nat then
          do log_message
               "Episode {episode_number} not found for season {season_number}. Falling back to season data."
               DEBUG
          then
            let* rs := get_season show_id season_number in
            match rs with
            | Ok total_season_episodes =>
                if (total_season_episodes =? 0)%nat then
                  do log_message
                       "No episodes found for the specified season. Ensure the season number is correct."
                       ERROR
                  then ret None
                else if (Z.of_nat total_season_episodes <? episode_number)%Z
                then
                  let mapped_episode_number :=
                    Py.zfill2
                      (Py.str_of_Z
                         (mapped_episode episode_number
                            (Z.of_nat total_season_episodes))) in
                  do log_message
                       "Absolute episode {episode_number} exceeds total episodes ({total_season_episodes}) for season {season_number}. Mapped to episode {mapped_episode_number}."
                       DEBUG
                  then
                    let* rm := get_episode show_id season_number
                                 mapped_episode_number in
                    match rm with
                    | Ok mapped_episode_name =>
                        ret (Some (episode_label season_number
                                     mapped_episode_number
                                     mapped_episode_name))
                    | _ =>
                        do log_message "Error fetching season data: {se}" ERROR
                        then ret None
                    end
                else ret None
            | _ =>
                do log_message "Error fetching season data: {se}" ERROR
                then ret None
            end
        else
          do log_message "HTTP error occurred: {e}" ERROR then ret None
    | Failed =>
        do log_message "Error fetching episode data: {e}" ERROR
        then ret None
    end.


(** [search_movie] *)
Definition paren_tail_re : regex :=                (* \s*\(.*$ *)
  cat_all [star space; chr "("; star dot; Eol].

(** The nested [fetch_results(query, year)]. *)
Definition fetch_results (query : qval) (year : pyval)
    : M world (list candidate) :=
  do log_message "Primary search URL (without year): {full_url}" DEBUG
  then
    let* response :=
      perform_search Movie query
        (if PyVal.truthy year then year else PNone) in
    match response with
    | [] =>
        if PyVal.truthy year then
          do log_message
               "Secondary search URL (without year): {full_url_without_year}"
               DEBUG
          then perform_search Movie query PNone
        else ret response
    | _ => ret response
    end.

Definition search_with_extracted_title (query : pystr) (year : pyval)
    : M world (list candidate) :=
  fetch_results (QStr (extract_title E query)) year.

Definition search_fallback (query : pystr) (year : pyval)
    : M world (list candidate) :=
  let query := Py.strip (sub paren_tail_re [] query) in
  do log_message "Fallback search query: '{query}'" DEBUG
  then fetch_results (QStr query) year.

Definition year_of_date (date : option pystr) : pystr :=
  match date with
  | Some ((_ :: _) as d) =>
      (fix before_dash (s : pystr) : pystr :=
         match s with
         | c :: s' =>
             if bool_decide (c = "-"%char) then [] else c :: before_dash s'
         | [] => []
         end) d
  | _ => str "Unknown Year"
  end.

Definition fmt_opt (o : option pystr) : pystr :=
  match o with Some s => s | None => str "None" end.

Definition isdigit (s : pystr) : bool :=
  negb (bool_decide (s = []))
  && forallb (fun c => Py.is_digit c || Py.is_code 178 c
                       || Py.is_code 179 c || Py.is_code 185 c) s.

(** [choice = input(...).strip()] and the pick among [results]. *)
Definition ask_choice (results : list candidate)
    : M world (option candidate) :=
  let* line := input in
  let choice := Py.strip line in
  if isdigit choice then
    if forallb Py.is_digit choice then
      let n := Py.int_of_digits choice in
      if ((1 <=? n) && (n <=? 3))%Z then
        match results !! Z.to_nat (n - 1) with
        | Some c => ret (Some c)
        | None => raise IndexError
        end
      else ret None
    else raise ValueError
  else ret None.

Fixpoint log_each {A} (l : list A) (message : string) : M world unit :=
  match l with
  | [] => ret tt
  | _ :: l' => do log_message message INFO then log_each l' message
  end.

(** The steps of the cascade: each one runs when the steps before it
    have left [results] empty. *)
Definition when_empty (results : list candidate)
    (step : M world (list candidate)) : M world (list candidate) :=
  match results with
  | [] => step
  | _ => ret results
  end.

(** The end of [search_movie], from [if auto_select:] on. *)
Definition select_movie (query : pystr) (cache_key : pystr * pyval)
    (auto_select : bool) (first : candidate) (results : list candidate)
    : M world movie_result :=
  let* chosen_movie :=
    if auto_select then ret (Some first)
    else if (length results =? 1)%nat then ret (Some first)
    else
      do log_message "Multiple movies found for query '{query}':" INFO
      then do log_each (take 3 results)
             "{idx + 1}: {movie_name} ({movie_year}) [tmdb-{movie_id}]"
      then ask_choice results in
  match chosen_movie with
  | Some chosen_movie =>
      let movie_name := c_name chosen_movie in
      let movie_year := year_of_date (c_date chosen_movie) in
      let tmdb_id := c_id chosen_movie in
      let* external_ids := get_external_ids tmdb_id Movie in
      let imdb_id :=
        match external_ids with Some i => i | None => [] end in
      let proper_name :=
        if is_imdb_folder_id_enabled E then
          fmt_opt movie_name ++ str " (" ++ movie_year ++ str ") {imdb-"
            ++ imdb_id ++ str "}"
        else if is_tmdb_folder_id_enabled E then
          fmt_opt movie_name ++ str " (" ++ movie_year ++ str ") {tmdb-"
            ++ PyVal.fmt tmdb_id ++ str "}"
        else fmt_opt movie_name ++ str " (" ++ movie_year ++ str ")" in
      do cache_put cache_key proper_name
      then ret (RIds tmdb_id imdb_id movie_name)
  | None =>
      do log_message
           "No valid selection made for query '{query}', skipping." WARNING
      then do cache_put cache_key query
      then ret (RStr query)
  end.

(** The cascade after the search by cleaned file name; the name
    [perform_fallback_movie_search] is bound nowhere in the module. *)
Definition later_steps (query : pystr) (year : pyval)
    (actual_dir : option pystr) (results : list candidate)
    : M world (list candidate) :=
  let* results :=
    when_empty results
      (do log_message
            "Extracted title search failed, attempting web scraping fallback"
            DEBUG
       then raise NameError) in
  let* results :=
    when_empty results
      (if PyVal.truthy year then search_fallback query year else ret []) in
  let* results :=
    when_empty results
      (if PyVal.truthy year then
         do log_message "Fallback search URL: {fallback_url}" DEBUG
         then do sent (ReqSearch Movie (QStr (PyVal.fmt year)) PNone)
         then match search_api (net E) Movie (QStr (PyVal.fmt year)) PNone with
              | Ok results => ret results
              | _ =>
                  do log_message "Error during fallback search: {e}" ERROR
                  then ret []
              end
       else ret []) in
  let* results :=
    when_empty results
      (do log_message "Attempting Search with Cleaned Name" DEBUG
       then
         let '(cleaned_title, year_from_query) := clean_query E query in
         if negb (bool_decide (cleaned_title = query)) then
           do log_message "Cleaned query: {cleaned_title}" DEBUG
           then fetch_results (QStr cleaned_title)
                  (PyVal.por year (PyVal.of_str year_from_query))
         else ret []) in
  when_empty results
    (match actual_dir with
     | Some ((_ :: _) as actual_dir) =>
         let dir_based_query := Path.basename actual_dir in
         do log_message
              "Attempting search with directory name: '{dir_based_query}'"
              DEBUG
         then
           let '(cleaned_dir_query, dir_year) :=
             clean_query E dir_based_query in
           fetch_results (QStr cleaned_dir_query)
             (PyVal.por year (PyVal.of_str dir_year))
     | _ => ret []
     end).

(** [search_movie], the decorated function's body. *)
Definition search_movie_body (query : pystr) (year : pyval)
    (auto_select : bool) (actual_dir file : option pystr)
    : M world movie_result :=
  let* valid := check_api_key in
  if negb valid then ret (RStr query)
  else
    let cache_key := (query, year) in
    let* cache := gets w_api_cache in
    match cache !! cache_key with
    | Some v => ret (RStr v)
    | None =>
        let* results := fetch_results (QStr query) year in
        let* results :=
          when_empty results
            (do log_message
                  "Primary search failed, attempting with extracted title"
                  DEBUG
             then search_with_extracted_title query year) in
        match results, file with
        | [], Some ((_ :: _) as file) =>
            do log_message "Searching with Cleaned Movie Name" DEBUG
            then
              let cleaned_title := clean_query_movie E file in
              let* results := fetch_results cleaned_title year in
              ret (RFile file cleaned_title)
        | _, _ =>
            let* results := later_steps query year actual_dir results in
            match results with
            | [] =>
                do log_message
                     "No results found for query '{query}' with year '{year}'."
                     WARNING
                then do cache_put cache_key query
                then ret (RStr query)
            | first :: _ =>
                select_movie query cache_key auto_select first results
            end
        end
    end.

(** [@lru_cache(maxsize=None)]: a normal return is remembered under the
    arguments of the call; an exception is not. *)
Definition search_movie (query : pystr) (year : pyval)
    (auto_select : bool) (actual_dir file : option pystr)
    : M world movie_result :=
  let key : movie_args := (query, year, auto_select, actual_dir, file) in
  let* memo := gets w_lru_movie in
  match memo !! key with
  | Some v => ret v
  | None =>
      let* v := search_movie_body query year auto_select actual_dir file in
      do modify (fun w => set_lru_movie (<[key := v]> (w_lru_movie w)) w)
      then ret v
  end.

End Run.

End TmdbApi.

(** ** Inputs of the worked examples *)

Module Examples.


(** A provider whose show 555 has ten episodes in season 1, episode 3
    being called Pilot; every other request fails. *)
Definition ten_episodes : provider :=
  {| search_api := fun _ _ _ => Failed;
     search_web := fun _ => Failed;
     details := fun _ _ => Failed;
     collection := fun _ => Failed;
     external_ids := fun _ _ => Failed;
     configuration := Failed;
     episode := fun show s e =>
       if bool_decide (show = PInt 555) && (s =? 1)%Z then
         if bool_decide (e = str "03") then Ok (Some (str "Pilot"))
         else HttpError 404
       else Failed;
     season := fun show s =>
       if bool_decide (show = PInt 555) && (s =? 1)%Z then Ok 10%nat
       else Failed |}.

Definition tmdb_env (p : provider) : TmdbApi.env :=
  {| TmdbApi.get_api_key := Some (str "key");
     TmdbApi.is_imdb_folder_id_enabled := false;
     TmdbApi.is_tvdb_folder_id_enabled := false;
     TmdbApi.is_tmdb_folder_id_enabled := true;
     TmdbApi.extract_title := fun q => q;
     TmdbApi.clean_query_movie := fun f => QStr f;
     TmdbApi.clean_query := fun q => (q, None);
     TmdbApi.remove_genre_names := fun q => q;
     TmdbApi.net := p;
     TmdbApi.stdin := fun _ => [] |}.

(** An environment of [library.py] without an API key: the provider is
    never asked. *)
Definition silent : provider :=
  {| search_api := fun _ _ _ => Failed;
     search_web := fun _ => Failed;
     details := fun _ _ => Failed;
     collection := fun _ => Failed;
     external_ids := fun _ _ => Failed;
     configuration := Failed;
     episode := fun _ _ _ => Failed;
     season := fun _ _ => Failed |}.

Definition lib_env (vars : list (string * string)) (p : provider)
    : Library.env :=
  {| Library.environ :=
       list_to_map (map (fun '(k, v) => (str k, str v)) vars);
     Library.net := p;
     Library.stdin := fun _ => [];
     Library.quote_plus := fun q => q;
     Library.normpath := fun p => p |}.


Definition heat : candidate :=
  {| c_id := PInt 949; c_name := Some (str "Heat");
     c_date := Some (str "1995-12-15") |}.

(** A provider that knows the movie under the title [Heat] only. *)
Definition knows_heat : provider :=
  {| search_api := fun kind q _ =>
       if bool_decide (q = QStr (str "Heat")) then Ok [heat] else Ok [];
     search_web := fun _ => Ok None;
     details := fun _ _ => Ok None;
     collection := fun _ => Ok None;
     external_ids := fun _ _ => Ok (Some (str "tt0113277"));
     configuration := Ok tt;
     episode := fun _ _ _ => HttpError 404;
     season := fun _ _ => HttpError 404 |}.

(** A provider that answers, and finds nothing. *)
Definition knows_nothing : provider :=
  {| search_api := fun _ _ _ => Ok [];
     search_web := fun _ => Ok None;
     details := fun _ _ => Ok None;
     collection := fun _ => Ok None;
     external_ids := fun _ _ => Ok None;
     configuration := Ok tt;
     episode := fun _ _ _ => HttpError 404;
     season := fun _ _ => HttpError 404 |}.

(** A provider that is down for searches. *)
Definition searches_down : provider :=
  {| search_api := fun _ _ _ => Failed;
     search_web := fun _ => Failed;
     details := fun _ _ => Failed;
     collection := fun _ => Failed;
     external_ids := fun _ _ => Failed;
     configuration := Ok tt;
     episode := fun _ _ _ => Failed;
     season := fun _ _ => Failed |}.

(** A season folder with a bonus file and a movie folder without a year;
    the destination is empty. *)
Definition library_tree : Fs.tree :=
  list_to_map
    [ (str "/src", Fs.Dir);
      (str "/src/Some Show Season 1", Fs.Dir);
      (str "/src/Some Show Season 1/behind the scenes.mkv", Fs.File);
      (str "/src/Clips", Fs.Dir);
      (str "/src/Clips/holiday.mkv", Fs.File);
      (str "/src/Heat (1995)", Fs.Dir);
      (str "/src/Heat (1995)/heat.mkv", Fs.File);
      (str "/dest", Fs.Dir) ].

(** The same, the show having its folder in the destination already. *)
Definition library_tree_with_show : Fs.tree :=
  list_to_map
    [ (str "/dest/CineSync", Fs.Dir);
      (str "/dest/CineSync/Shows", Fs.Dir);
      (str "/dest/CineSync/Shows/Shows", Fs.Dir);
      (str "/dest/CineSync/Shows/Shows/Some Show Season 1", Fs.Dir) ]
  ∪ library_tree.

Definition skip_extras : Library.env :=
  lib_env [("SKIP_EXTRAS_FOLDER", "true")]%string silent.

Definition bonus_args (index : list pystr)
    : pystr * pystr * pystr * pystr * pystr * bool * bool * bool
      * list pystr :=
  (str "/src/Some Show Season 1/behind the scenes.mkv",
   str "/src/Some Show Season 1", str "behind the scenes.mkv",
   str "/dest", str "src", true, false, false, index).

End Examples.

(** ** The claims that fail, as they are written *)

Module Claims.
Import Library.

(** C1: cleaning the title that [clean_query] returned gives the first
    result again, title and year. *)
Definition clean_query_idempotent (query : pystr) : Prop :=
  clean_query (fst (clean_query query)) = clean_query query.

(** C10: the result, printed in decimal, is none of the four resolution
    strings. *)
Definition never_a_resolution (folder_name : pystr) : Prop :=
  match extract_folder_year folder_name with
  | Some y => Py.str_of_Z y ∉ resolutions
  | None => True
  end.

(** C8: after a call of [search_movie], a call with the same query and
    year (whatever its other arguments) returns what the first returned
    and sends no request. *)
Definition repeat_is_silent (E : TmdbApi.env) (query : pystr)
    (year : pyval) (first second : bool * option pystr * option pystr)
    (w : TmdbApi.world) : Prop :=
  let call (rest : bool * option pystr * option pystr) :=
    let '(auto_select, actual_dir, file) := rest in
    TmdbApi.search_movie E query year auto_select actual_dir file in
  let r1 := call first w in
  let r2 := call second (snd r1) in
  fst r2 = fst r1
  /\ TmdbApi.w_requests (snd r2) = TmdbApi.w_requests (snd r1).


End Claims.

(** ** The tokens that the patterns of [clean_query] look for

    A keyword, the season mark [S\d{2}] and the year [\d{4}] are each
    looked for between two word boundaries.  The definitions below say
    where such a token occurs in a text and which rewritings of a text
    create no occurrence. *)

Module Tokens.
Import Re.

Record token : Type := {
  tlen : nat;                 (* the number of characters *)
  tok : pystr -> bool;        (* the test on that many characters *)
}.

(** The token stands at the position whose preceding character is [pv]
    and whose remaining text is [s], a word boundary on either side. *)
Definition occ (T : token) (pv : option ascii) (s : pystr) : bool :=
  negb (word_opt pv) && (tlen T <=? length s)%nat && tok T (take (tlen T) s)
  && negb (word_opt (head (drop (tlen T) s))).

(** No occurrence at any position of [s]. *)
Definition clean (T : token) (pv : option ascii) (s : pystr) : Prop :=
  forall a b, s = a ++ b -> occ T (adv pv a) b = false.

(** No two adjacent characters outside [\w]. *)
Fixpoint no_adj (prev_word : bool) (w : pystr) : bool :=
  match w with
  | [] => true
  | c :: w' => (prev_word || Py.is_word c) && no_adj (Py.is_word c) w'
  end.

(** The rest of a token after the character [pv]: no white space, no two
    adjacent characters outside [\w], a last character in [\w]. *)
Definition shape (pv : option ascii) (w : pystr) : bool :=
  forallb (fun c => negb (Py.is_space c)) w
  && no_adj (word_opt pv) w && word_opt (adv pv w).

Definition good (T : token) : Prop :=
  forall w, length w = tlen T -> tok T w = true ->
    exists c w', w = c :: w' /\ Py.is_word c = true
                 /\ shape (Some c) w' = true.

(** A keyword under [re.IGNORECASE]. *)
Definition kw_token (keyword : pystr) : token :=
  {| tlen := length keyword;
     tok := fun w => bool_decide (Py.lower_str w = Py.lower_str keyword) |}.

Definition good_keyword (keyword : pystr) : bool :=
  match keyword with
  | c :: w' => Py.is_word c && shape (Some c) w'
  | [] => false
  end.

(** [S\d{2}] under [re.IGNORECASE]. *)
Definition season_token : token :=
  {| tlen := 3;
     tok := fun w =>
       match w with
       | [c; d1; d2] =>
           bool_decide (Py.lower c = Py.lower "S")
           && Py.is_digit d1 && Py.is_digit d2
       | _ => false
       end |}.

(** [\d{4}]. *)
Definition year_token : token :=
  {| tlen := 4; tok := forallb Py.is_digit |}.

(** The length of the longest prefix of [s] in the class [p]. *)
Fixpoint run_length (p : ascii -> bool) (s : pystr) : nat :=
  match s with
  | c :: s' => if p c then S (run_length p s') else O
  | [] => O
  end.

(** Replacing [m] by [g] between the characters [L] and [R] of the result
    is safe: [g] is white space; where [g] is empty, the characters that
    become adjacent are both outside [\w], or one of them is missing; a
    word that ends before [m] or starts after it was delimited by [m]. *)
Definition safe (L R : option ascii) (m g : pystr) : Prop :=
  m <> [] /\ forallb Py.is_space g = true
  /\ (g = [] ->
      (word_opt L = false /\ word_opt R = false) \/ L = None \/ R = None)
  /\ (word_opt L = true -> word_opt (head m) = false)
  /\ (word_opt R = true -> word_opt (last m) = false).

(** [sedit K pv s o]: the text [o] is [s] after safe replacements; [K]
    holds at the positions of [s] whose character is kept. *)
Inductive sedit (K : option ascii -> pystr -> Prop)
    : option ascii -> pystr -> pystr -> Prop :=
| se_nil pv : sedit K pv [] []
| se_keep pv c s o :
    K pv (c :: s) -> sedit K (Some c) s o -> sedit K pv (c :: s) (c :: o)
| se_edit_keep pv m g c s o :
    safe pv (Some c) m g -> K (adv pv m) (c :: s) ->
    sedit K (Some c) s o -> sedit K pv (m ++ c :: s) (g ++ c :: o)
| se_edit_end pv m g :
    safe pv None m g -> sedit K pv m g.

(** What a pattern does at a position: whether it matches there, and how
    many characters the match takes. *)
Definition matcher (r : regex) (hit : option ascii -> pystr -> bool)
    (len : pystr -> nat) : Prop :=
  forall pv s,
    if hit pv s then
      (1 <= len s <= length s)%nat
      /\ exists g, match_here r pv s = Some (drop (len s) s, g)
    else match_here r pv s = None.

(** The characters that [.] matches, and what [\bS\d{2}\b.*] takes from a
    text that starts with the season mark. *)
Definition not_newline (c : ascii) : bool := negb (Py.is_newline c).

Definition season_len (s : pystr) : nat :=
  3 + run_length not_newline (drop 3 s).

(** Where [\s+] matches. *)
Definition space_hit (pv : option ascii) (s : pystr) : bool :=
  match s with c :: _ => Py.is_space c | [] => false end.

(** Where [\(\s*\)] matches, and how many characters the match takes. *)
Definition parens_hit (pv : option ascii) (s : pystr) : bool :=
  match s with
  | c :: s' =>
      bool_decide (c = "("%char)
      && bool_decide (head (drop (run_length Py.is_space s') s')
                      = Some ")"%char)
  | [] => false
  end.

Definition parens_len (s : pystr) : nat :=
  2 + run_length Py.is_space (tail s).

(** [re.search(r'\(\s*\)', s)] finds nothing: no pair of parentheses with
    nothing but white space between them. *)
Definition no_empty_parens (s : pystr) : Prop :=
  search Library.empty_parens_re s = None.

(** Every white-space character is a single space between two other
    characters or at an end. *)
Fixpoint spaced (prev_space : bool) (s : pystr) : bool :=
  match s with
  | [] => true
  | c :: s' =>
      if Py.is_space c
      then bool_decide (c = " "%char) && negb prev_space && spaced true s'
      else spaced false s'
  end.

(** The query of [clean_query] before the year is looked for: keywords,
    season tail and empty parentheses removed, white space collapsed. *)
Definition tidied (query : pystr) : pystr :=
  Py.strip (sub Library.spaces_re (str " ")
              (sub Library.empty_parens_re []
                 (sub Library.season_tail_re []
                    (Library.strip_keywords query)))).

(** A text in which [clean_query] finds nothing to remove. *)
Definition settled (t : pystr) : Prop :=
  (forall keyword, keyword ∈ Library.remove_keywords ->
     clean (kw_token keyword) None t)
  /\ clean season_token None t
  /\ clean year_token None t
  /\ no_empty_parens t
  /\ spaced false t = true
  /\ Py.strip t = t.

End Tokens.

(** * Properties *)

(** ** Facts about characters *)

Module PyFacts.
Import Py.

Lemma code_inj (a b : ascii) : code a = code b -> a = b.
Proof.
  unfold code. intros H.
  rewrite <- (ascii_N_embedding a), <- (ascii_N_embedding b).
  now rewrite H.
Qed.

Lemma is_code_eq n c : is_code n c = true -> c = ascii_of_N n.
Proof.
  unfold is_code. intros H. apply N.eqb_eq in H.
  apply code_inj. unfold code in *. rewrite H.
  destruct (decide (n < 256)%N) as [Hn|Hn].
  - now rewrite N_ascii_embedding.
  - pose proof (N_ascii_bounded c). lia.
Qed.

Lemma between_spec lo hi c :
  between lo hi c = true <-> (lo <= code c <= hi)%N.
Proof.
  unfold between. rewrite andb_true_iff, !N.leb_le. tauto.
Qed.

Lemma digit_is_word c : is_digit c = true -> is_word c = true.
Proof. unfold is_word. intros ->. reflexivity. Qed.

Lemma digit_val_range c : is_digit c = true -> (0 <= digit_val c <= 9)%Z.
Proof.
  unfold is_digit, digit_val. rewrite between_spec. lia.
Qed.

Lemma digit_of_val c (v : Z) :
  is_digit c = true -> digit_val c = v ->
  c = ascii_of_N (Z.to_N (v + 48)).
Proof.
  intros Hd Hv. apply code_inj.
  pose proof (digit_val_range c Hd) as Hr.
  unfold digit_val in *. unfold code at 2.
  rewrite N_ascii_embedding by lia. lia.
Qed.

End PyFacts.

(** ** Facts about the matcher *)

Module ReFacts.
Import Re.

Lemma adv_nil pv : adv pv [] = pv.
Proof. reflexivity. Qed.

Lemma adv_cons pv c t : adv pv (c :: t) = adv (Some c) t.
Proof.
  unfold adv. destruct t as [|d t]; [reflexivity|].
  rewrite last_cons. now destruct (last (d :: t)).
Qed.

Lemma adv_app pv a b : adv pv (a ++ b) = adv (adv pv a) b.
Proof.
  revert pv. induction a as [|c a IH]; intros pv; [reflexivity|].
  simpl. now rewrite !adv_cons, IH.
Qed.

(** A class repeated exactly [n] times reads the next [n] characters. *)
Lemma rep_loop_exact {R}
    (step : option ascii -> pystr -> caps ->
            (option ascii -> pystr -> caps -> option R) -> option R)
    (p : ascii -> bool) n (k : option ascii -> pystr -> caps -> option R) :
  (forall pv s g k', step pv s g k' =
     match s with
     | c :: s' => if p c then k' (Some c) s' g else None
     | [] => None
     end) ->
  forall fuel c pv s g,
  (c <= n)%nat -> (length s < fuel)%nat ->
  rep_loop step n (Some n) true k fuel c pv s g =
    if ((n - c <=? length s)%nat && forallb p (take (n - c) s))
    then k (adv pv (take (n - c) s)) (drop (n - c) s) g
    else None.
Proof.
  intros Hstep fuel.
  induction fuel as [|fuel IH]; intros c pv s g Hc Hf; [lia|].
  cbn [rep_loop].
  destruct (decide (c < n)%nat) as [Hlt|Hge].
  - assert (Hlo : (c <? n)%nat = true) by now apply Nat.ltb_lt.
    rewrite Hlo. cbn [below]. rewrite Hlo, Hstep.
    destruct (n - c)%nat as [|m] eqn:Hm; [lia|].
    destruct s as [|c0 s']; [reflexivity|].
    cbn [take forallb length drop]. rewrite adv_cons.
    destruct (p c0); [|now rewrite andb_false_r].
    assert ((length s' <? S (length s'))%nat = true) as ->
      by (apply Nat.ltb_lt; lia).
    rewrite IH by (cbn [length] in Hf; lia).
    replace (n - S c)%nat with m by lia.
    destruct (m <=? length s')%nat eqn:E1.
    + assert ((S m <=? S (length s'))%nat = true) as -> by exact E1.
      reflexivity.
    + assert ((S m <=? S (length s'))%nat = false) as -> by exact E1.
      reflexivity.
  - assert (c = n) as -> by lia.
    rewrite Nat.ltb_irrefl. cbn [below]. rewrite Nat.ltb_irrefl.
    rewrite Nat.sub_diag. cbn.
    destruct fuel; reflexivity.
Qed.

Lemma exec_times_cls {R} n p pv s g
    (k : option ascii -> pystr -> caps -> option R) :
  exec (times n (Cls p)) pv s g k =
    if ((n <=? length s)%nat && forallb p (take n s))
    then k (adv pv (take n s)) (drop n s) g
    else None.
Proof.
  unfold times. cbn [exec].
  rewrite (rep_loop_exact (exec (Cls p)) p n k) by (reflexivity || lia).
  now rewrite Nat.sub_0_r.
Qed.

(** [search_from] returns the leftmost position at which the pattern
    matches. *)
Lemma search_from_Some r i pv s m :
  search_from r i pv s = Some m ->
  exists a b s' g,
    s = a ++ b /\ match_here r (adv pv a) b = Some (s', g)
    /\ m = mk_match (i + length a) b s' g.
Proof.
  revert i pv. induction s as [|c s IH]; intros i pv; cbn [search_from].
  - destruct (match_here r pv []) as [[s' g]|] eqn:E; [|discriminate].
    intros [= <-]. exists [], [], s', g. cbn. rewrite Nat.add_0_r. auto.
  - destruct (match_here r pv (c :: s)) as [[s' g]|] eqn:E.
    + intros [= <-]. exists [], (c :: s), s', g. cbn. rewrite Nat.add_0_r. auto.
    + intros H. apply IH in H as (a & b & s' & g & -> & Hm & ->).
      exists (c :: a), b, s', g. rewrite adv_cons. cbn [length].
      rewrite Nat.add_succ_r. auto.
Qed.

End ReFacts.

(** ** [extract_folder_year] *)

Module FolderYear.
Import Re ReFacts Library Claims.

(** What a match of [o(\d{4})c] looks like. *)
Lemma match_delimited_year o c pv b s' g :
  match_here (cat_all [chr o; Grp 1 (times 4 digit); chr c]) pv b
    = Some (s', g) ->
  exists t, b = o :: (t ++ c :: s') /\ length t = 4%nat
            /\ forallb Py.is_digit t = true /\ g = [(1%nat, t)].
Proof.
  unfold match_here. cbn [cat_all exec chr].
  destruct b as [|c0 b]; [discriminate|].
  case_bool_decide as Ho; [subst c0|discriminate].
  unfold digit. rewrite exec_times_cls.
  destruct (4 <=? length b)%nat eqn:Hlen; [|discriminate].
  destruct (forallb Py.is_digit (take 4 b)) eqn:Hd; [|discriminate].
  cbn [andb]. apply Nat.leb_le in Hlen.
  destruct (drop 4 b) as [|c1 b'] eqn:Hdrop; [discriminate|].
  case_bool_decide as Hc; [subst c1|discriminate].
  intros [= <- <-].
  exists (take 4 b).
  rewrite <- (take_drop 4 b) at 1. rewrite Hdrop.
  rewrite length_take. repeat split; try lia; try assumption.
  do 3 f_equal. apply (f_equal length) in Hdrop.
  rewrite length_drop in Hdrop. cbn [length] in *.
  f_equal. lia.
Qed.

Lemma starts_with_app p s : Py.starts_with p (p ++ s) = true.
Proof.
  induction p as [|c p IH]; [reflexivity|].
  cbn. rewrite bool_decide_eq_true_2 by reflexivity. exact IH.
Qed.

Lemma contains_app a p s : Py.contains p (a ++ p ++ s) = true.
Proof.
  induction a as [|c a IH].
  - cbn [app]. destruct (p ++ s) eqn:E; cbn [Py.contains];
      rewrite <- E, starts_with_app; reflexivity.
  - cbn [app Py.contains]. rewrite IH. apply orb_true_r.
Qed.

Lemma year_unless_resolution_Some o c s y :
  year_unless_resolution
    (search (cat_all [chr o; Grp 1 (times 4 digit); chr c]) s) = Some y ->
  exists t, length t = 4%nat /\ forallb Py.is_digit t = true
            /\ (t ∉ resolutions) /\ y = Py.int_of_digits t
            /\ Py.contains (o :: (t ++ [c])) s = true.
Proof.
  unfold year_unless_resolution, search.
  destruct (search_from _ 0 None s) as [m|] eqn:Hs; [|discriminate].
  apply search_from_Some in Hs as (a & b & s' & g & -> & Hm & ->).
  apply match_delimited_year in Hm as (t & -> & Hlen & Hd & ->).
  unfold group. cbn.
  case_bool_decide as Hres; [discriminate|].
  intros [= <-]. exists t. repeat split; try assumption.
  replace (a ++ o :: t ++ c :: s') with (a ++ (o :: (t ++ [c])) ++ s')
    by (cbn; now rewrite <- app_assoc).
  apply contains_app.
Qed.

(** Four decimal digits denote 1080 (2160) only when they spell it. *)
Lemma int_of_four_digits t :
  length t = 4%nat -> forallb Py.is_digit t = true ->
  (Py.int_of_digits t = 1080%Z -> t = str "1080")
  /\ (Py.int_of_digits t = 2160%Z -> t = str "2160").
Proof.
  intros Hlen Hd.
  destruct t as [|a [|b [|c [|d [|? ?]]]]]; try discriminate.
  cbn in Hd. rewrite !andb_true_iff in Hd.
  destruct Hd as (Ha & Hb & Hc & Hd & _).
  pose proof (PyFacts.digit_val_range _ Ha).
  pose proof (PyFacts.digit_val_range _ Hb).
  pose proof (PyFacts.digit_val_range _ Hc).
  pose proof (PyFacts.digit_val_range _ Hd).
  unfold Py.int_of_digits. cbn [fold_left].
  split; intros E.
  - assert (Py.digit_val a = 1 /\ Py.digit_val b = 0
            /\ Py.digit_val c = 8 /\ Py.digit_val d = 0)%Z
      as (Ea & Eb & Ec & Ed) by lia.
    rewrite (PyFacts.digit_of_val _ _ Ha Ea), (PyFacts.digit_of_val _ _ Hb Eb),
      (PyFacts.digit_of_val _ _ Hc Ec), (PyFacts.digit_of_val _ _ Hd Ed).
    reflexivity.
  - assert (Py.digit_val a = 2 /\ Py.digit_val b = 1
            /\ Py.digit_val c = 6 /\ Py.digit_val d = 0)%Z
      as (Ea & Eb & Ec & Ed) by lia.
    rewrite (PyFacts.digit_of_val _ _ Ha Ea), (PyFacts.digit_of_val _ _ Hb Eb),
      (PyFacts.digit_of_val _ _ Hc Ec), (PyFacts.digit_of_val _ _ Hd Ed).
    reflexivity.
Qed.

(** C10, counterexample: a zero-padded token passes the textual test and
    comes out as the integer 480. *)
Lemma extract_folder_year_padded_480 :
  extract_folder_year (str "Show (0480)") = Some 480%Z
  /\ ~ never_a_resolution (str "Show (0480)").
Proof.
  split; [vm_compute; reflexivity|].
  unfold never_a_resolution.
  replace (extract_folder_year (str "Show (0480)"))
    with (Some 480%Z) by (vm_compute; reflexivity).
  intros H. apply H. apply list_elem_of_In. vm_compute. auto.
Qed.

(** C10, amended: a result of [extract_folder_year] is the value of a
    four-digit token, delimited by parentheses or by dots in the folder
    name, whose text is none of the resolution strings; when the token is
    written in the digits 0 to 9, the result is therefore neither 1080 nor
    2160. *)
Theorem extract_folder_year_sound folder_name y :
  extract_folder_year folder_name = Some y ->
  exists t, length t = 4%nat /\ forallb Py.is_digit t = true
            /\ (t ∉ resolutions) /\ y = Py.int_of_digits t
            /\ (Py.contains ("("%char :: (t ++ [")"%char])) folder_name = true
                \/ Py.contains ("."%char :: (t ++ ["."%char])) folder_name = true)
            /\ (forallb (Py.between 48 57) t = true ->
                y <> 1080%Z /\ y <> 2160%Z).
Proof.
  unfold extract_folder_year, paren_year_re, dotted_year_re.
  intros H.
  assert (exists t, length t = 4%nat /\ forallb Py.is_digit t = true
             /\ (t ∉ resolutions) /\ y = Py.int_of_digits t
             /\ (Py.contains ("("%char :: (t ++ [")"%char])) folder_name = true
                 \/ Py.contains ("."%char :: (t ++ ["."%char])) folder_name = true))
    as (t & Hlen & Hd & Hres & -> & Hin).
  { destruct (year_unless_resolution (search _ folder_name)) as [y1|] eqn:E1.
    - injection H as <-.
      apply year_unless_resolution_Some in E1 as (t & ? & ? & ? & ? & ?).
      exists t. auto 10.
    - apply year_unless_resolution_Some in H as (t & ? & ? & ? & ? & ?).
      exists t. auto 10. }
  exists t. do 5 (split; [assumption || reflexivity|]).
  intros Hascii.
  destruct (int_of_four_digits t Hlen Hascii) as [H1 H2].
  split; intros E; [apply H1 in E|apply H2 in E]; apply Hres; rewrite E;
    apply list_elem_of_In; cbn; auto.
Qed.

Lemma extract_folder_year_sound_witness :
  extract_folder_year (str "Show.Name.2019.1080p") = Some 2019%Z
  /\ exists t, length t = 4%nat /\ forallb Py.is_digit t = true
               /\ (t ∉ resolutions) /\ 2019%Z = Py.int_of_digits t
               /\ (Py.contains ("("%char :: (t ++ [")"%char]))
                     (str "Show.Name.2019.1080p") = true
                   \/ Py.contains ("."%char :: (t ++ ["."%char]))
                        (str "Show.Name.2019.1080p") = true)
               /\ (forallb (Py.between 48 57) t = true ->
                   2019%Z <> 1080%Z /\ 2019%Z <> 2160%Z).
Proof.
  assert (H : extract_folder_year
                (str "Show.Name.2019.1080p") = Some 2019%Z)
    by (vm_compute; reflexivity).
  split; [exact H|].
  exact (extract_folder_year_sound _ _ H).
Defined.

End FolderYear.

(** ** [check_existing_variations] *)

Module Variations.
Import Library.









End Variations.

(** ** [get_episode_name]: the remapping of absolute episode numbers *)

Module Episode.
Import TmdbApi.

Lemma mapped_episode_eq n total :
  (1 <= n)%Z -> (1 <= total)%Z ->
  mapped_episode n total = ((n - 1) mod total + 1)%Z.
Proof.
  intros Hn Ht. unfold mapped_episode.
  pose proof (Z.div_mod n total ltac:(lia)) as Hdm.
  pose proof (Z.mod_pos_bound n total ltac:(lia)) as Hb.
  destruct (n mod total =? 0)%Z eqn:E.
  - apply Z.eqb_eq in E.
    rewrite <- (Z.mod_unique (n - 1) total (n / total - 1) (total - 1));
      lia.
  - apply Z.eqb_neq in E.
    rewrite <- (Z.mod_unique (n - 1) total (n / total) (n mod total - 1));
      lia.
Qed.

(** C5: when the provider has no episode [n] (status 404) and the season
    has [total >= 1] episodes with [n > total], [get_episode_name] sends
    one further episode request, for episode [((n - 1) mod total) + 1]
    written with two digits, and returns its label or gives up with
    [None]; nothing else is requested. *)
Theorem get_episode_name_remap E w show_id season_number n total
    (Hkey : nonempty (get_api_key E) = true)
    (Hn : (1 <= n)%Z) (Htotal : (1 <= total)%nat)
    (Hexceeds : (Z.of_nat total < n)%Z)
    (Hmissing : episode (net E) show_id season_number (Py.str_of_Z n)
                  = HttpError 404)
    (Hseason : season (net E) show_id season_number = Ok total) :
  let mapped := Py.zfill2 (Py.str_of_Z ((n - 1) mod Z.of_nat total + 1)) in
  let '(r, w') := get_episode_name E show_id season_number n w in
  w_requests w' =
    w_requests w ++ [ReqEpisode show_id season_number (Py.str_of_Z n);
                     ReqSeason show_id season_number;
                     ReqEpisode show_id season_number mapped]
  /\ r = Ret match episode (net E) show_id season_number mapped with
             | Ok name => Some (episode_label season_number mapped name)
             | _ => None
             end.
Proof.
  intros mapped. unfold get_episode_name.
  rewrite Hkey. cbn [negb].
  unfold get_episode, get_season, bind, sent, modify, ret, log_message.
  cbn. rewrite Hmissing. cbn. rewrite Hseason. cbn.
  destruct total as [|total']; [lia|]. cbn [Nat.eqb].
  assert ((Z.of_nat (S total') <? n)%Z = true) as -> by (apply Z.ltb_lt; lia).
  rewrite mapped_episode_eq by lia. fold mapped. cbn.
  destruct (episode (net E) show_id season_number mapped); cbn;
    rewrite <- !app_assoc; cbn; auto.
Qed.

(** Absolute episode 13 of a season of 10 is looked up as episode 03. *)
Lemma get_episode_name_remap_witness :
  let '(r, w') :=
    get_episode_name (Examples.tmdb_env Examples.ten_episodes)
      (PInt 555) 1 13 fresh in
  w_requests w' =
    [ReqEpisode (PInt 555) 1 (str "13"); ReqSeason (PInt 555) 1;
     ReqEpisode (PInt 555) 1 (str "03")]
  /\ r = Ret (Some (str "S01E03 - Pilot")).
Proof.
  exact (get_episode_name_remap (Examples.tmdb_env Examples.ten_episodes)
           fresh (PInt 555) 1%Z 13%Z 10%nat
           eq_refl ltac:(lia) ltac:(lia) ltac:(lia) eq_refl eq_refl).
Defined.

End Episode.

(** ** Runs of the cascade and of the pipeline on the worked examples *)

Module Runs.

(** C2, at the failing input: the primary search and the search by
    extracted title find nothing and a file name is given.
    [search_movie] then searches by the cleaned file name and returns the
    pair [(file, cleaned_title)]: no later step is tried, although the
    provider knows the movie under the name of its directory, and nothing
    is cached.  Without a file name the next step raises [NameError]. *)
Lemma search_movie_returns_file_pair :
  let E := Examples.tmdb_env Examples.knows_heat in
  let query := str "Heat.1995.x264" in
  let file := str "Heat.1995.x264.mkv" in
  let run := TmdbApi.search_movie E query PNone false
               (Some (str "/src/Heat")) (Some file) TmdbApi.fresh in
  fst run = Ret (TmdbApi.RFile file (QStr file))
  /\ TmdbApi.w_requests (snd run)
     = [ReqConfiguration; ReqSearch Movie (QStr query) PNone;
        ReqSearch Movie (QStr query) PNone;
        ReqSearch Movie (QStr file) PNone]
  /\ TmdbApi.w_api_cache (snd run) !! (query, PNone) = None
  /\ search_api Examples.knows_heat Movie
       (QStr (fst (TmdbApi.clean_query E (Path.basename (str "/src/Heat")))))
       PNone = Ok [Examples.heat]
  /\ fst (TmdbApi.search_movie E query PNone false
            (Some (str "/src/Heat")) None TmdbApi.fresh) = Raise NameError.
Proof. vm_compute. repeat split; reflexivity. Qed.

(** C6, at the failing input: the toggle is on and the file is an Extras
    item of a show that has no folder in the destination yet.
    [process_show] returns a path in the show's folder and [process_file]
    links the file there.  When the show has a folder already,
    [process_show] returns nothing for the same file. *)
Lemma skip_extras_links_new_show :
  let E := Examples.skip_extras in
  let dest := str "/dest/CineSync/Shows/Shows/Some Show Season 1/behind the scenes.mkv" in
  let src := str "/src/Some Show Season 1/behind the scenes.mkv" in
  let show args t :=
    Library.process_show E src (str "/src/Some Show Season 1")
      (str "behind the scenes.mkv") (str "/dest") (str "src")
      true false false [] None (Library.fresh t) in
  Library.is_skip_extras_folder_enabled E = true
  /\ Library.create_extras_folder
       (Library.show_parts_of (str "Some Show Season 1")
          (str "Some Show Season 1") None) = true
  /\ fst (show tt Examples.library_tree) = Ret (Some dest)
  /\ (let run := Library.process_file E (Examples.bonus_args [])
                   (Library.fresh Examples.library_tree) in
      fst run = Ret tt
      /\ Library.w_fs (snd run) !! dest = Some (Fs.Symlink src))
  /\ fst (show tt Examples.library_tree_with_show) = Ret None.
Proof. vm_compute. repeat split; reflexivity. Qed.

(** C9, at the failing input: a movie file whose folder carries no year.
    [process_movie] logs the error and returns nothing, [process_file]
    then raises [TypeError], and [create_symlinks] ends by raising it,
    after the tasks of the other files have run. *)
Lemma create_symlinks_raises :
  let E := Examples.lib_env [] Examples.silent in
  let w := Library.fresh Examples.library_tree in
  let bad := Library.process_movie E (str "/src/Clips/holiday.mkv")
               (str "/src/Clips") (str "holiday.mkv") (str "/dest")
               (str "src") true false false [] w in
  let task := Library.process_file E
                (str "/src/Clips/holiday.mkv", str "/src/Clips",
                 str "holiday.mkv", str "/dest", str "src", true, false,
                 false, []) w in
  let run := Library.create_symlinks E [str "/src"] (str "/dest") false
               None w in
  fst bad = Ret None
  /\ Library.w_log (snd bad)
     = [(ERROR, "Unable to extract movie name and year from: {parent_folder_name}"%string)]
  /\ fst task = Raise TypeError
  /\ fst run = Raise TypeError
  /\ Library.w_fs (snd run)
       !! str "/dest/CineSync/Movies/Movies/Heat (1995)/heat.mkv"
     = Some (Fs.Symlink (str "/src/Heat (1995)/heat.mkv")).
Proof. vm_compute. repeat split; reflexivity. Qed.

End Runs.

(** ** The cascade of [tmdb_api.search_movie] when no step finds anything *)

Module Cascade.
Import TmdbApi.

Lemma grown_refl w : grown w w.
Proof.
  repeat split; exists []; now rewrite app_nil_r.
Qed.

Lemma grown_trans w1 w2 w3 : grown w1 w2 -> grown w2 w3 -> grown w1 w3.
Proof.
  intros (Hc1 & Hl1 & [r1 Hr1] & [g1 Hg1]) (Hc2 & Hl2 & [r2 Hr2] & [g2 Hg2]).
  repeat split; try congruence.
  - exists (r1 ++ r2). now rewrite Hr2, Hr1, app_assoc.
  - exists (g1 ++ g2). now rewrite Hg2, Hg1, app_assoc.
Qed.

Lemma grown_log s lv w : grown w (snd (log_message s lv w)).
Proof.
  unfold log_message, modify. cbn. repeat split.
  - exists []. now rewrite app_nil_r.
  - now exists [(lv, s)].
Qed.

Lemma grown_sent r w : grown w (snd (sent r w)).
Proof.
  unfold sent, modify. cbn. repeat split.
  - now exists [r].
  - exists []. now rewrite app_nil_r.
Qed.

Section NoResults.
Variable E : env.
Hypothesis Hnone :
  forall kind q y, no_results (search_api (net E) kind q y) = true.

(** A search comes back empty, the request sent; a failure is logged. *)
Lemma perform_search_empty kind q y w :
  exists w', perform_search E kind q y w = (Ret [], w')
    /\ grown w w'
    /\ w_requests w' = w_requests w ++ [ReqSearch kind q y]
    /\ (failed (search_api (net E) kind q y) = true ->
        w_log w' = w_log w ++ [(ERROR, "Error fetching data: {e}"%string)]).
Proof.
  unfold perform_search, bind, sent, modify, log_message, ret.
  pose proof (Hnone kind q y) as H.
  destruct (search_api (net E) kind q y) as [[|c l]| |]; try discriminate;
    eexists; (split; [reflexivity|]); cbn;
    (split; [|split; [reflexivity|]]);
    try (intros _; reflexivity); try discriminate;
    repeat split; try (now eexists); exists []; now rewrite app_nil_r.
Qed.

Lemma fetch_results_empty q y w :
  exists w', fetch_results E q y w = (Ret [], w') /\ grown w w'
    /\ exists more,
         w_requests w'
         = w_requests w
             ++ ReqSearch Movie q (if PyVal.truthy y then y else PNone)
                :: more.
Proof.
  unfold fetch_results. unfold bind at 1.
  pose proof (grown_log "Primary search URL (without year): {full_url}"
                DEBUG w) as G0.
  destruct (log_message _ DEBUG w) as [[[]|e] w0] eqn:E0;
    [|unfold log_message, modify in E0; discriminate].
  assert (R0 : w_requests w0 = w_requests w).
  { unfold log_message, modify in E0. injection E0 as <-. reflexivity. }
  cbn [snd] in G0. unfold bind at 1.
  destruct (perform_search_empty Movie q
              (if PyVal.truthy y then y else PNone) w0)
    as (w1 & -> & G1 & R1 & _).
  destruct (PyVal.truthy y).
  - unfold bind at 1.
    pose proof (grown_log
      "Secondary search URL (without year): {full_url_without_year}"
      DEBUG w1) as G2.
    destruct (log_message _ DEBUG w1) as [[[]|e] w2] eqn:E2;
      [|unfold log_message, modify in E2; discriminate].
    cbn [snd] in G2.
    assert (R2 : w_requests w2 = w_requests w1).
    { unfold log_message, modify in E2. injection E2 as <-. reflexivity. }
    destruct (perform_search_empty Movie q PNone w2)
      as (w3 & -> & G3 & R3 & _).
    exists w3. split; [reflexivity|]. split.
    + eauto using grown_trans.
    + exists [ReqSearch Movie q PNone].
      rewrite R3, R2, R1, R0, <- app_assoc. reflexivity.
  - exists w1. split; [reflexivity|]. split.
    + eauto using grown_trans.
    + exists []. now rewrite R1, R0.
Qed.

Lemma check_api_key_ok w :
  nonempty (get_api_key E) = true ->
  (exists u, configuration (net E) = Ok u) ->
  check_api_key E w
    = (Ret true, set_requests (w_requests w ++ [ReqConfiguration]) w).
Proof.
  intros Hkey [u Hconf].
  unfold check_api_key, api_key, bind, sent, modify, ret.
  rewrite Hkey. cbn. now rewrite Hconf.
Qed.

(** With a valid key and nothing cached, a call without a file name ends
    with [NameError] at the step after the search by extracted title; the
    two caches are left as they were. *)
Lemma search_movie_name_error q y a d w :
  nonempty (get_api_key E) = true ->
  (exists u, configuration (net E) = Ok u) ->
  w_lru_movie w !! (q, y, a, d, None) = None ->
  w_api_cache w !! (q, y) = None ->
  exists w',
    search_movie E q y a d None w = (Raise NameError, w')
    /\ grown w w'
    /\ exists more,
         w_requests w'
         = w_requests w
             ++ ReqConfiguration
                :: ReqSearch Movie (QStr q)
                     (if PyVal.truthy y then y else PNone)
                :: more.
Proof.
  intros Hkey Hconf Hlru Hcache.
  unfold search_movie. unfold bind at 1, gets. cbn [fst snd].
  rewrite Hlru. unfold bind at 1.
  unfold search_movie_body. unfold bind at 1.
  rewrite (check_api_key_ok w Hkey Hconf). cbn [negb].
  set (w0 := set_requests (w_requests w ++ [ReqConfiguration]) w).
  assert (G0 : grown w w0) by (apply (grown_sent ReqConfiguration w)).
  unfold bind at 1, gets.
  change (w_api_cache w0) with (w_api_cache w). rewrite Hcache.
  unfold bind at 1.
  destruct (fetch_results_empty (QStr q) y w0) as (w1 & -> & G1 & [m1 R1]).
  unfold bind at 1. cbn [when_empty]. unfold bind at 1.
  pose proof (grown_log
    "Primary search failed, attempting with extracted title" DEBUG w1) as G2.
  destruct (log_message _ DEBUG w1) as [[[]|e] w2] eqn:E2;
    [|unfold log_message, modify in E2; discriminate].
  cbn [snd] in G2. unfold search_with_extracted_title.
  destruct (fetch_results_empty (QStr (extract_title E q)) y w2)
    as (w3 & -> & G3 & _).
  unfold later_steps. unfold bind at 1. unfold bind at 1.
  cbn [when_empty]. unfold bind at 1.
  pose proof (grown_log
    "Extracted title search failed, attempting web scraping fallback"
    DEBUG w3) as G4.
  destruct (log_message _ DEBUG w3) as [[[]|e] w4] eqn:E4;
    [|unfold log_message, modify in E4; discriminate].
  cbn [snd] in G4. unfold raise.
  exists w4. split; [reflexivity|]. split.
  - eauto 6 using grown_trans.
  - destruct G2 as (_ & _ & [r2 R2] & _), G3 as (_ & _ & [r3 R3] & _),
      G4 as (_ & _ & [r4 R4] & _).
    exists (m1 ++ r2 ++ r3 ++ r4).
    rewrite R4, R3, R2, R1. unfold w0. cbn [w_requests set_requests].
    rewrite <- !app_assoc. reflexivity.
Qed.

End NoResults.

(** When the request that validates the key fails, no search is made and
    the query comes back as it is. *)
Lemma search_movie_key_check_failed E q y a d f w :
  nonempty (get_api_key E) = true ->
  failed (configuration (net E)) = true ->
  w_lru_movie w !! (q, y, a, d, f) = None ->
  fst (search_movie E q y a d f w) = Ret (RStr q)
  /\ w_requests (snd (search_movie E q y a d f w))
     = w_requests w ++ [ReqConfiguration]
  /\ w_api_cache (snd (search_movie E q y a d f w)) = w_api_cache w.
Proof.
  intros Hkey Hconf Hlru.
  unfold search_movie, search_movie_body, check_api_key, api_key, bind, gets,
    sent, modify, ret, log_message.
  cbn [fst snd]. rewrite Hlru, Hkey. cbn [negb].
  destruct (configuration (net E)); [discriminate| |];
    cbn; destruct (w_api_warning_logged w); cbn; repeat split.
Qed.

End Cascade.

(** ** The two caches of the resolver *)

Module Cache.

(** [lru_cache]: what a call returned is what a second call with the same
    arguments returns, from any provider and without a step. *)
Lemma tmdb_search_movie_memo E E' q y a d f w v w1 :
  TmdbApi.search_movie E q y a d f w = (Ret v, w1) ->
  TmdbApi.search_movie E' q y a d f w1 = (Ret v, w1).
Proof.
  unfold TmdbApi.search_movie, bind, gets, ret, modify.
  cbv beta zeta. intros H.
  destruct (TmdbApi.w_lru_movie w !! (q, y, a, d, f)) as [v0|] eqn:Hit.
  - injection H as <- <-. now rewrite Hit.
  - destruct (TmdbApi.search_movie_body E q y a d f w) as [[v0|e] w0];
      [|discriminate].
    injection H as <- <-.
    cbn [TmdbApi.w_lru_movie TmdbApi.set_lru_movie].
    now rewrite lookup_insert_eq.
Qed.

Lemma library_search_tv_show_memo E E' q y a w v w1 :
  Library.search_tv_show E q y a w = (Ret v, w1) ->
  Library.search_tv_show E' q y a w1 = (Ret v, w1).
Proof.
  unfold Library.search_tv_show, bind, gets, ret, modify.
  cbv beta zeta. intros H.
  destruct (Library.w_lru_tv w !! (q, y, a)) as [v0|] eqn:Hit.
  - injection H as <- <-. now rewrite Hit.
  - destruct (Library.search_tv_show_body E q y a w) as [[v0|e] w0];
      [|discriminate].
    injection H as <- <-.
    cbn [Library.w_lru_tv Library.set_lru_tv].
    now rewrite lookup_insert_eq.
Qed.

Lemma library_cache_hit E q y a w v :
  Library.w_api_cache w !! (q, y) = Some v ->
  Library.search_tv_show_body E q y a w = (Ret v, w).
Proof.
  intros Hit. unfold Library.search_tv_show_body, bind, gets, ret.
  now rewrite Hit.
Qed.

Lemma library_get_api_key E w :
  Library.usable_key (Library.getenv E "TMDB_API_KEY") ->
  Library.get_api_key E w = (Ret (Library.getenv E "TMDB_API_KEY"), w).
Proof.
  intros (key & Hk & Hne & Hph). unfold Library.get_api_key. rewrite Hk.
  rewrite !bool_decide_eq_false_2 by assumption. reflexivity.
Qed.

Lemma library_unresolved_cached E q y a w :
  Library.usable_key (Library.getenv E "TMDB_API_KEY") ->
  Library.w_api_cache w !! (q, y) = None ->
  search_api (Library.net E) Tv (QStr q)
    (if PyVal.truthy y then y else PNone) = Ok [] ->
  exists w',
    Library.search_tv_show_body E q y a w = (Ret q, w')
    /\ Library.w_api_cache w' = <[(q, y) := q]> (Library.w_api_cache w)
    /\ Library.w_requests w'
       = Library.w_requests w
           ++ [ReqSearch Tv (QStr q) (if PyVal.truthy y then y else PNone)].
Proof.
  intros Hkey Hmiss Hempty.
  unfold Library.search_tv_show_body, bind, gets.
  cbn. rewrite Hmiss, (library_get_api_key E w Hkey).
  destruct Hkey as (key & -> & _).
  unfold Library.get_search, bind, Library.sent, modify, ret. cbn.
  rewrite Hempty. unfold Library.cache_put, modify. cbn.
  eexists. repeat split.
Qed.

Lemma tmdb_cache_hit E q y a d f w v :
  TmdbApi.nonempty (TmdbApi.get_api_key E) = true ->
  (exists u, configuration (TmdbApi.net E) = Ok u) ->
  TmdbApi.w_api_cache w !! (q, y) = Some v ->
  TmdbApi.search_movie_body E q y a d f w
    = (Ret (TmdbApi.RStr v),
       TmdbApi.set_requests (TmdbApi.w_requests w ++ [ReqConfiguration]) w).
Proof.
  intros Hkey [u Hconf] Hit.
  unfold TmdbApi.search_movie_body, TmdbApi.check_api_key, TmdbApi.api_key,
    bind, gets, ret, TmdbApi.sent, modify.
  rewrite Hkey. cbn. rewrite Hconf. cbn. now rewrite Hit.
Qed.

(** After [Heat] has been resolved and cached, a second call with the same
    query and year but with [auto_select] set is not silent. *)
Lemma search_movie_repeat_asks_again :
  ~ Claims.repeat_is_silent (Examples.tmdb_env Examples.knows_heat)
      (str "Heat") PNone (false, None, None) (true, None, None)
      TmdbApi.fresh.
Proof.
  unfold Claims.repeat_is_silent. intros [_ H].
  vm_compute in H. discriminate H.
Qed.

(** What [lru_cache] and [_api_cache] do give: a call that returns is
    remembered under all its arguments, so that a second call with the same
    arguments returns the same value and leaves the state, the list of
    requests included, as it is, whatever the provider would answer; under
    the key [(query, year)], [_api_cache] makes [library.search_tv_show]
    return the cached name without a request and stores the query itself
    when the provider finds nothing. *)
Lemma resolver_memoization :
  (forall E E' q y a d f w v w1,
     TmdbApi.search_movie E q y a d f w = (Ret v, w1) ->
     TmdbApi.search_movie E' q y a d f w1 = (Ret v, w1))
  /\ (forall E E' q y a w v w1,
        Library.search_tv_show E q y a w = (Ret v, w1) ->
        Library.search_tv_show E' q y a w1 = (Ret v, w1))
  /\ (forall E q y a w v,
        Library.w_api_cache w !! (q, y) = Some v ->
        Library.search_tv_show_body E q y a w = (Ret v, w))
  /\ (forall E q y a w,
        Library.usable_key (Library.getenv E "TMDB_API_KEY") ->
        Library.w_api_cache w !! (q, y) = None ->
        search_api (Library.net E) Tv (QStr q)
          (if PyVal.truthy y then y else PNone) = Ok [] ->
        exists w',
          Library.search_tv_show_body E q y a w = (Ret q, w')
          /\ Library.w_api_cache w'
              = <[(q, y) := q]> (Library.w_api_cache w)
          /\ Library.w_requests w'
              = Library.w_requests w
                  ++ [ReqSearch Tv (QStr q)
                        (if PyVal.truthy y then y else PNone)]).
Proof.
  split; [exact tmdb_search_movie_memo|].
  split; [exact library_search_tv_show_memo|].
  split; [exact library_cache_hit|exact library_unresolved_cached].
Qed.

(** C8: [tmdb_api.search_movie] does not memoize as the claim says.  A
    lookup for which the provider finds nothing, made without a file name,
    ends with [NameError]: nothing is stored in [_api_cache] nor by
    [lru_cache], and the same lookup made again sends its requests again.
    A lookup that finds [_api_cache] filled under [(query, year)] sends the
    request that validates the key before it reads the cache, and returns
    the cached name where the call that resolved the query returned the
    triple [(tmdb_id, imdb_id, movie_name)]. *)
Theorem search_movie_not_memoized :
  (forall E q y a d w,
     TmdbApi.nonempty (TmdbApi.get_api_key E) = true ->
     (exists u, configuration (TmdbApi.net E) = Ok u) ->
     TmdbApi.w_lru_movie w !! (q, y, a, d, None) = None ->
     TmdbApi.w_api_cache w !! (q, y) = None ->
     (forall kind q' y', search_api (TmdbApi.net E) kind q' y' = Ok []) ->
     exists w1 w2 m1 m2,
       TmdbApi.search_movie E q y a d None w = (Raise NameError, w1)
       /\ TmdbApi.search_movie E q y a d None w1 = (Raise NameError, w2)
       /\ TmdbApi.w_api_cache w2 = TmdbApi.w_api_cache w
       /\ TmdbApi.w_lru_movie w2 = TmdbApi.w_lru_movie w
       /\ TmdbApi.w_requests w1
          = TmdbApi.w_requests w
              ++ ReqConfiguration
                 :: ReqSearch Movie (QStr q)
                      (if PyVal.truthy y then y else PNone) :: m1
       /\ TmdbApi.w_requests w2
          = TmdbApi.w_requests w1
              ++ ReqConfiguration
                 :: ReqSearch Movie (QStr q)
                      (if PyVal.truthy y then y else PNone) :: m2)
  /\ (forall E q y a d f w v,
        TmdbApi.nonempty (TmdbApi.get_api_key E) = true ->
        (exists u, configuration (TmdbApi.net E) = Ok u) ->
        TmdbApi.w_api_cache w !! (q, y) = Some v ->
        TmdbApi.search_movie_body E q y a d f w
          = (Ret (TmdbApi.RStr v),
             TmdbApi.set_requests
               (TmdbApi.w_requests w ++ [ReqConfiguration]) w))
  /\ (let E := Examples.tmdb_env Examples.knows_heat in
      let r1 := TmdbApi.search_movie E (str "Heat") PNone false None None
                  TmdbApi.fresh in
      let r2 := TmdbApi.search_movie E (str "Heat") PNone true None None
                  (snd r1) in
      fst r1
        = Ret (TmdbApi.RIds (PInt 949) (str "tt0113277") (Some (str "Heat")))
      /\ TmdbApi.w_api_cache (snd r1) !! (str "Heat", PNone)
         = Some (str "Heat (1995) {tmdb-949}")
      /\ fst r2 = Ret (TmdbApi.RStr (str "Heat (1995) {tmdb-949}"))
      /\ TmdbApi.w_requests (snd r2)
         = TmdbApi.w_requests (snd r1) ++ [ReqConfiguration]).
Proof.
  split; [|split; [exact tmdb_cache_hit|vm_compute; repeat split]].
  intros E q y a d w Hkey Hconf Hlru Hcache Hnone.
  assert (Hn : forall kind q' y',
             no_results (search_api (TmdbApi.net E) kind q' y') = true)
    by (intros; now rewrite Hnone).
  destruct (Cascade.search_movie_name_error E Hn q y a d w
              Hkey Hconf Hlru Hcache)
    as (w1 & H1 & (Hc1 & Hl1 & _) & [m1 R1]).
  destruct (Cascade.search_movie_name_error E Hn q y a d w1 Hkey Hconf)
    as (w2 & H2 & (Hc2 & Hl2 & _) & [m2 R2]);
    [now rewrite Hl1|now rewrite Hc1|].
  exists w1, w2, m1, m2. repeat split; try assumption; congruence.
Qed.

(** A query that the provider does not know, looked up twice in a fresh
    process. *)
Lemma search_movie_not_memoized_witness :
  exists w1 w2 m1 m2,
    let E := Examples.tmdb_env Examples.knows_nothing in
    TmdbApi.search_movie E (str "Nowhere") PNone false None None
      TmdbApi.fresh = (Raise NameError, w1)
    /\ TmdbApi.search_movie E (str "Nowhere") PNone false None None w1
       = (Raise NameError, w2)
    /\ TmdbApi.w_api_cache w2 = TmdbApi.w_api_cache TmdbApi.fresh
    /\ TmdbApi.w_lru_movie w2 = TmdbApi.w_lru_movie TmdbApi.fresh
    /\ TmdbApi.w_requests w1
       = TmdbApi.w_requests TmdbApi.fresh
           ++ ReqConfiguration
              :: ReqSearch Movie (QStr (str "Nowhere")) PNone :: m1
    /\ TmdbApi.w_requests w2
       = TmdbApi.w_requests w1
           ++ ReqConfiguration
              :: ReqSearch Movie (QStr (str "Nowhere")) PNone :: m2.
Proof.
  exact (proj1 search_movie_not_memoized
           (Examples.tmdb_env Examples.knows_nothing) (str "Nowhere") PNone
           false None TmdbApi.fresh eq_refl (ex_intro _ tt eq_refl) eq_refl
           eq_refl (fun _ _ _ => eq_refl)).
Defined.

End Cache.

(** ** Transport errors in the cascade *)

Module Transport.
Import TmdbApi.

Lemma same_but_log_refl w : same_but_log w w.
Proof. repeat split. Qed.

Lemma sim_ret {A} (a : A) : sim (ret a) (ret a).
Proof. intros w1 w2 H. split; [reflexivity|exact H]. Qed.

Lemma sim_raise {A} e : sim (A := A) (raise e) (raise e).
Proof. intros w1 w2 H. split; [reflexivity|exact H]. Qed.

Lemma sim_bind {A B} (m1 m2 : M world A) (f1 f2 : A -> M world B) :
  sim m1 m2 -> (forall a, sim (f1 a) (f2 a)) -> sim (bind m1 f1) (bind m2 f2).
Proof.
  intros Hm Hf w1 w2 H. unfold bind.
  destruct (Hm w1 w2 H) as [Hr Hw].
  destruct (m1 w1) as [[a1|e1] w1'], (m2 w2) as [[a2|e2] w2'];
    cbn in Hr, Hw; try discriminate.
  - injection Hr as <-. apply Hf, Hw.
  - injection Hr as <-. split; [reflexivity|exact Hw].
Qed.

Lemma sim_log_l {A} s lv (m1 m2 : M world A) :
  sim m1 m2 -> sim (bind (log_message s lv) (fun _ => m1)) m2.
Proof.
  intros Hm w1 w2 H. unfold bind, log_message, modify. cbn.
  apply Hm. destruct H as (?&?&?&?&?). repeat split; assumption.
Qed.

Lemma sim_log_r {A} s lv (m1 m2 : M world A) :
  sim m1 m2 -> sim m1 (bind (log_message s lv) (fun _ => m2)).
Proof.
  intros Hm w1 w2 H. unfold bind, log_message, modify. cbn.
  apply Hm. destruct H as (?&?&?&?&?). repeat split; assumption.
Qed.

Lemma sim_log s lv : sim (log_message s lv) (log_message s lv).
Proof.
  intros w1 w2 H. unfold log_message, modify. cbn.
  destruct H as (?&?&?&?&?). repeat split; assumption.
Qed.

Lemma sim_sent r : sim (sent r) (sent r).
Proof.
  intros w1 w2 H. unfold sent, modify. cbn.
  destruct H as (?&?&Hr&?&?). repeat split; try assumption.
  now rewrite Hr.
Qed.

Lemma sim_cache_put k v : sim (cache_put k v) (cache_put k v).
Proof.
  intros w1 w2 H. unfold cache_put, modify. cbn.
  destruct H as (Hc&?&?&?&?). repeat split; try assumption.
  now rewrite Hc.
Qed.

Lemma sim_gets_cache : sim (gets w_api_cache) (gets w_api_cache).
Proof. intros w1 w2 H. unfold gets. cbn. split; [f_equal; apply H|exact H]. Qed.

Lemma sim_gets_lru : sim (gets w_lru_movie) (gets w_lru_movie).
Proof. intros w1 w2 H. unfold gets. cbn. split; [f_equal; apply H|exact H]. Qed.

Lemma sim_gets_warned :
  sim (gets w_api_warning_logged) (gets w_api_warning_logged).
Proof. intros w1 w2 H. unfold gets. cbn. split; [f_equal; apply H|exact H]. Qed.

Lemma sim_set_warned b :
  sim (modify (set_api_warning_logged b)) (modify (set_api_warning_logged b)).
Proof.
  intros w1 w2 H. unfold modify. cbn.
  destruct H as (?&?&?&?&?). repeat split; assumption.
Qed.

Lemma sim_set_lru k v :
  sim (modify (fun w => set_lru_movie (<[k := v]> (w_lru_movie w)) w))
      (modify (fun w => set_lru_movie (<[k := v]> (w_lru_movie w)) w)).
Proof.
  intros w1 w2 H. unfold modify. cbn.
  destruct H as (?&Hl&?&?&?). repeat split; try assumption.
  now rewrite Hl.
Qed.

Lemma sim_input E p : sim (input E) (input (with_net E p)).
Proof.
  intros w1 w2 H. unfold input, bind, gets, modify, ret. cbn.
  destruct H as (?&?&?&?&Hp). rewrite Hp. repeat split; assumption.
Qed.

Create HintDb sim discriminated.
#[local] Hint Resolve sim_ret sim_raise sim_log sim_sent sim_cache_put
  sim_gets_cache sim_gets_lru sim_gets_warned sim_set_warned sim_set_lru
  sim_input : sim.

(** One step of a proof that two computations agree: the binds are taken
    apart, a log entry on one side is dropped, a case analysis is made on
    what both sides inspect. *)
Ltac sim_step :=
  match goal with
  | |- sim (bind (log_message _ _) _) (bind (log_message _ _) _) =>
      apply sim_bind; [apply sim_log|intros ?]
  | |- sim (bind (log_message _ _) _) _ => apply sim_log_l
  | |- sim _ (bind (log_message _ _) _) => apply sim_log_r
  | |- sim (bind _ _) (bind _ _) => apply sim_bind; [|intros ?]
  | |- sim (match ?x with _ => _ end) _ => destruct x
  | |- sim (if ?b then _ else _) _ => destruct b
  | |- sim _ (match ?x with _ => _ end) => destruct x
  | |- sim _ _ => solve [auto with sim]
  end.

Ltac sim_auto := repeat sim_step.

Section Softened.
Variable E : env.
Let E' := with_net E (soften (net E)).

Lemma sim_check_api_key : sim (check_api_key E) (check_api_key E').
Proof.
  unfold check_api_key, api_key. cbn [get_api_key E' with_net net soften configuration].
  sim_auto.
Qed.

Lemma sim_perform_search kind q y :
  sim (perform_search E kind q y) (perform_search E' kind q y).
Proof.
  unfold perform_search. cbn [E' with_net net soften search_api].
  apply sim_bind; [apply sim_sent|intros _].
  destruct (search_api (net E) kind q y); cbn [or_empty]; sim_auto.
Qed.

Lemma sim_get_external_ids id kind :
  sim (get_external_ids E id kind) (get_external_ids E' id kind).
Proof.
  unfold get_external_ids. cbn [E' with_net net soften external_ids].
  apply sim_bind; [apply sim_sent|intros _].
  destruct (external_ids (net E) kind id); cbn [or_empty]; sim_auto.
Qed.

Lemma sim_fetch_results q y :
  sim (fetch_results E q y) (fetch_results E' q y).
Proof.
  unfold fetch_results.
  apply sim_bind; [apply sim_log|intros _].
  apply sim_bind; [apply sim_perform_search|intros response].
  destruct response; [|apply sim_ret].
  destruct (PyVal.truthy y); [|apply sim_ret].
  apply sim_bind; [apply sim_log|intros _]. apply sim_perform_search.
Qed.

Lemma sim_log_each {A} (l : list A) s : sim (log_each l s) (log_each l s).
Proof.
  induction l as [|x l IH]; cbn [log_each]; [apply sim_ret|].
  apply sim_bind; [apply sim_log|intros _; exact IH].
Qed.

Lemma sim_ask_choice results :
  sim (ask_choice E results) (ask_choice E' results).
Proof.
  unfold ask_choice.
  apply sim_bind; [apply sim_input|intros line]. sim_auto.
Qed.

Lemma sim_select_movie q key a first results :
  sim (select_movie E q key a first results)
      (select_movie E' q key a first results).
Proof.
  unfold select_movie.
  cbn [E' with_net is_imdb_folder_id_enabled is_tmdb_folder_id_enabled].
  apply sim_bind.
  - destruct a; [apply sim_ret|].
    destruct (length results =? 1)%nat; [apply sim_ret|].
    apply sim_bind; [apply sim_log|intros _].
    apply sim_bind; [apply sim_log_each|intros _].
    apply sim_ask_choice.
  - intros [chosen|].
    + apply sim_bind; [apply sim_get_external_ids|intros ids]. sim_auto.
    + sim_auto.
Qed.

Lemma sim_when_empty results (m1 m2 : M world (list candidate)) :
  sim m1 m2 -> sim (when_empty results m1) (when_empty results m2).
Proof. intros H. destruct results; [exact H|apply sim_ret]. Qed.

Lemma sim_later_steps q y d results :
  sim (later_steps E q y d results) (later_steps E' q y d results).
Proof.
  unfold later_steps, search_fallback.
  cbn [E' with_net clean_query net soften search_api].
  apply sim_bind; [apply sim_when_empty; sim_auto|intros r1].
  apply sim_bind.
  { apply sim_when_empty. destruct (PyVal.truthy y); [|apply sim_ret].
    apply sim_bind; [apply sim_log|intros _]. apply sim_fetch_results. }
  intros r2. apply sim_bind.
  { apply sim_when_empty. destruct (PyVal.truthy y); [|apply sim_ret].
    apply sim_bind; [apply sim_log|intros _].
    apply sim_bind; [apply sim_sent|intros _].
    destruct (search_api (net E) Movie (QStr (PyVal.fmt y)) PNone);
      cbn [or_empty]; sim_auto. }
  intros r3. apply sim_bind.
  { apply sim_when_empty. apply sim_bind; [apply sim_log|intros _].
    destruct (clean_query E q) as [cleaned_title year_from_query].
    destruct (negb (bool_decide (cleaned_title = q))); [|apply sim_ret].
    apply sim_bind; [apply sim_log|intros _]. apply sim_fetch_results. }
  intros r4. apply sim_when_empty.
  destruct d as [[|c d]|]; try apply sim_ret.
  apply sim_bind; [apply sim_log|intros _].
  destruct (clean_query E (Path.basename (c :: d))) as [cleaned dir_year].
  apply sim_fetch_results.
Qed.

Lemma sim_search_movie_body q y a d f :
  sim (search_movie_body E q y a d f) (search_movie_body E' q y a d f).
Proof.
  unfold search_movie_body, search_with_extracted_title.
  cbn [E' with_net extract_title clean_query_movie].
  apply sim_bind; [apply sim_check_api_key|intros valid].
  destruct valid; cbn [negb]; [|apply sim_ret].
  apply sim_bind; [apply sim_gets_cache|intros cache].
  destruct (cache !! (q, y)); [apply sim_ret|].
  apply sim_bind; [apply sim_fetch_results|intros r1].
  apply sim_bind.
  { apply sim_when_empty. apply sim_bind; [apply sim_log|intros _].
    apply sim_fetch_results. }
  intros r2.
  assert (Hrest : sim
    (bind (later_steps E q y d r2) (fun results =>
       match results with
       | [] =>
           bind (log_message
                   "No results found for query '{query}' with year '{year}'."
                   WARNING)
             (fun _ => bind (cache_put (q, y) q) (fun _ => ret (RStr q)))
       | first :: _ => select_movie E q (q, y) a first results
       end))
    (bind (later_steps E' q y d r2) (fun results =>
       match results with
       | [] =>
           bind (log_message
                   "No results found for query '{query}' with year '{year}'."
                   WARNING)
             (fun _ => bind (cache_put (q, y) q) (fun _ => ret (RStr q)))
       | first :: _ => select_movie E' q (q, y) a first results
       end))).
  { apply sim_bind; [apply sim_later_steps|intros results].
    destruct results; [sim_auto|apply sim_select_movie]. }
  destruct r2 as [|c r2]; [|exact Hrest].
  destruct f as [[|c f]|]; try exact Hrest.
  apply sim_bind; [apply sim_log|intros _].
  apply sim_bind; [apply sim_fetch_results|intros _]. apply sim_ret.
Qed.

Lemma sim_search_movie q y a d f :
  sim (search_movie E q y a d f) (search_movie E' q y a d f).
Proof.
  unfold search_movie.
  apply sim_bind; [apply sim_gets_lru|intros memo].
  destruct (memo !! (q, y, a, d, f)); [apply sim_ret|].
  apply sim_bind; [apply sim_search_movie_body|intros v].
  apply sim_bind; [apply sim_set_lru|intros _]. apply sim_ret.
Qed.

End Softened.

Lemma tmdb_perform_search_failed E kind q y w :
  failed (search_api (net E) kind q y) = true ->
  perform_search E kind q y w
    = (Ret [],
       set_log (w_log w ++ [(ERROR, "Error fetching data: {e}"%string)])
         (set_requests (w_requests w ++ [ReqSearch kind q y]) w)).
Proof.
  unfold perform_search, bind, sent, modify, log_message, ret.
  destruct (search_api (net E) kind q y); [discriminate| |]; reflexivity.
Qed.

Lemma library_search_tv_show_softened E q y a w :
  let E' := Library.with_net E (soften (Library.net E)) in
  fst (Library.search_tv_show E q y a w)
    = fst (Library.search_tv_show E' q y a w)
  /\ Library.w_requests (snd (Library.search_tv_show E q y a w))
     = Library.w_requests (snd (Library.search_tv_show E' q y a w)).
Proof.
  intros E'. unfold Library.search_tv_show, bind, gets, ret, modify.
  cbv beta zeta.
  destruct (Library.w_lru_tv w !! (q, y, a)) as [v|]; [split; reflexivity|].
  assert (H : fst (Library.search_tv_show_body E q y a w)
              = fst (Library.search_tv_show_body E' q y a w)
            /\ Library.w_requests (snd (Library.search_tv_show_body E q y a w))
               = Library.w_requests
                   (snd (Library.search_tv_show_body E' q y a w))).
  { unfold Library.search_tv_show_body, bind, gets, ret. cbv beta zeta.
    destruct (Library.w_api_cache w !! (q, y)); [split; reflexivity|].
    change (Library.get_api_key E') with (Library.get_api_key E).
    destruct (Library.get_api_key E w) as [[[k|]|e] w0];
      try (split; reflexivity).
    unfold Library.get_search, bind, Library.sent, modify, ret.
    cbn [E' Library.with_net Library.net soften search_api].
    destruct (search_api (Library.net E) Tv (QStr q)
                (if PyVal.truthy y then y else PNone)) as [l| |];
      cbn [or_empty]; split; reflexivity. }
  destruct H as [Hr Hq].
  destruct (Library.search_tv_show_body E q y a w) as [[v|e] w1],
    (Library.search_tv_show_body E' q y a w) as [[v'|e'] w1'];
    cbn in Hr, Hq |- *; try discriminate; split;
    try assumption; congruence.
Qed.

Lemma library_search_tv_show_failed E q y a w :
  Library.usable_key (Library.getenv E "TMDB_API_KEY") ->
  Library.w_lru_tv w !! (q, y, a) = None ->
  Library.w_api_cache w !! (q, y) = None ->
  failed (search_api (Library.net E) Tv (QStr q)
            (if PyVal.truthy y then y else PNone)) = true ->
  let run := Library.search_tv_show E q y a w in
  fst run = Ret q
  /\ Library.w_api_cache (snd run) = Library.w_api_cache w
  /\ Library.w_requests (snd run)
     = Library.w_requests w
         ++ [ReqSearch Tv (QStr q) (if PyVal.truthy y then y else PNone)]
  /\ Library.w_log (snd run)
     = Library.w_log w ++ [(ERROR, "Error fetching data: {e}"%string)].
Proof.
  intros Hkey Hlru Hmiss Hfail.
  unfold Library.search_tv_show, bind, gets, modify, ret. cbv beta zeta.
  cbn [fst snd]. rewrite Hlru.
  unfold Library.search_tv_show_body, bind, gets. cbn [fst snd].
  rewrite Hmiss, (Cache.library_get_api_key E w Hkey).
  destruct Hkey as (key & -> & _).
  unfold Library.get_search, bind, Library.sent, modify, ret.
  cbn [fst snd].
  destruct (search_api (Library.net E) Tv (QStr q)
              (if PyVal.truthy y then y else PNone)); [discriminate| |];
    cbn; repeat split.
Qed.

Lemma failed_no_results r : failed r = true -> no_results r = true.
Proof. destruct r as [[|c l]| |]; [discriminate..|reflexivity|reflexivity]. Qed.

(** C3: a transport error in a search is caught and logged and the search
    counts as empty ([perform_search]), and [library.search_tv_show], which
    has one step, returns the query.  But [tmdb_api.search_movie] does not
    go on to the later steps: when the searches of the first two steps fail
    and no file name is given, the call ends with [NameError] at the step
    that follows, whatever the later steps would have found; and when the
    request that validates the key fails, no step is tried at all. *)
Theorem transport_failure_aborts_search_movie :
  (forall E kind q y w,
     failed (search_api (net E) kind q y) = true ->
     perform_search E kind q y w
       = (Ret [],
          set_log (w_log w ++ [(ERROR, "Error fetching data: {e}"%string)])
            (set_requests (w_requests w ++ [ReqSearch kind q y]) w)))
  /\ (forall E q y a w,
        Library.usable_key (Library.getenv E "TMDB_API_KEY") ->
        Library.w_lru_tv w !! (q, y, a) = None ->
        Library.w_api_cache w !! (q, y) = None ->
        failed (search_api (Library.net E) Tv (QStr q)
                  (if PyVal.truthy y then y else PNone)) = true ->
        let run := Library.search_tv_show E q y a w in
        fst run = Ret q
        /\ Library.w_api_cache (snd run) = Library.w_api_cache w
        /\ Library.w_requests (snd run)
           = Library.w_requests w
               ++ [ReqSearch Tv (QStr q)
                     (if PyVal.truthy y then y else PNone)]
        /\ Library.w_log (snd run)
           = Library.w_log w ++ [(ERROR, "Error fetching data: {e}"%string)])
  /\ (forall E q y a d w,
        nonempty (get_api_key E) = true ->
        (exists u, configuration (net E) = Ok u) ->
        w_lru_movie w !! (q, y, a, d, None) = None ->
        w_api_cache w !! (q, y) = None ->
        (forall kind q' y', failed (search_api (net E) kind q' y') = true) ->
        exists w',
          search_movie E q y a d None w = (Raise NameError, w')
          /\ grown w w'
          /\ exists more,
               w_requests w'
               = w_requests w
                   ++ ReqConfiguration
                      :: ReqSearch Movie (QStr q)
                           (if PyVal.truthy y then y else PNone)
                      :: more)
  /\ (forall E q y a d f w,
        nonempty (get_api_key E) = true ->
        failed (configuration (net E)) = true ->
        w_lru_movie w !! (q, y, a, d, f) = None ->
        fst (search_movie E q y a d f w) = Ret (RStr q)
        /\ w_requests (snd (search_movie E q y a d f w))
           = w_requests w ++ [ReqConfiguration]
        /\ w_api_cache (snd (search_movie E q y a d f w)) = w_api_cache w).
Proof.
  split; [exact tmdb_perform_search_failed|].
  split; [exact library_search_tv_show_failed|].
  split; [|exact Cascade.search_movie_key_check_failed].
  intros E q y a d w Hkey Hconf Hlru Hcache Hdown.
  apply Cascade.search_movie_name_error; try assumption.
  intros kind q' y'. apply failed_no_results, Hdown.
Qed.

(** The searches are down, the key is valid: the search for [Heat] ends
    with [NameError]. *)
Lemma transport_failure_aborts_search_movie_witness :
  exists w',
    search_movie (Examples.tmdb_env Examples.searches_down) (str "Heat")
      PNone false None None fresh = (Raise NameError, w')
    /\ grown fresh w'
    /\ exists more,
         w_requests w'
         = w_requests fresh
             ++ ReqConfiguration
                :: ReqSearch Movie (QStr (str "Heat")) PNone :: more.
Proof.
  exact (proj1 (proj2 (proj2 transport_failure_aborts_search_movie))
           (Examples.tmdb_env Examples.searches_down) (str "Heat") PNone
           false None fresh eq_refl (ex_intro _ tt eq_refl) eq_refl eq_refl
           (fun _ _ _ => eq_refl)).
Defined.

End Transport.

(** ** Facts about paths and the file system *)

Module PathFacts.
Import Path.

Lemma drop_seps_shape l :
  (drop_seps l = [] /\ forallb is_sep l = true)
  \/ (exists c l', drop_seps l = c :: l' /\ is_sep c = false
                   /\ forallb is_sep l = false).
Proof.
  induction l as [|c l IH]; [left; split; reflexivity|].
  cbn [drop_seps forallb]. destruct (is_sep c) eqn:Hc.
  - destruct IH as [[-> ->]|(d & l' & -> & Hd & ->)]; [left|right]; eauto.
  - right. exists c, l. auto.
Qed.

Lemma length_drop_seps l : (length (drop_seps l) <= length l)%nat.
Proof.
  induction l as [|c l IH]; [reflexivity|].
  cbn [drop_seps]. destruct (is_sep c); cbn [length]; lia.
Qed.

Lemma length_rstrip_sep l : (length (rstrip_sep l) <= length l)%nat.
Proof.
  unfold rstrip_sep. rewrite length_rev.
  etransitivity; [apply length_drop_seps|]. now rewrite length_rev.
Qed.

Lemma forallb_rev {A} (f : A -> bool) l : forallb f (rev l) = forallb f l.
Proof.
  induction l as [|x l IH]; [reflexivity|].
  cbn [rev forallb]. rewrite forallb_app, IH. cbn. rewrite andb_true_r.
  apply andb_comm.
Qed.

Lemma length_tail_rev r : (length (tail_rev r) <= length r)%nat.
Proof.
  induction r as [|c r IH]; [reflexivity|].
  cbn [tail_rev]. destruct (is_sep c); cbn [length]; lia.
Qed.

Lemma length_basename p : (length (basename p) <= length p)%nat.
Proof.
  unfold basename. rewrite length_rev.
  etransitivity; [apply length_tail_rev|]. now rewrite length_rev.
Qed.

Lemma length_head_raw p :
  length (head_raw p) = (length p - length (basename p))%nat.
Proof.
  unfold head_raw. rewrite length_take. pose proof (length_basename p). lia.
Qed.

Lemma length_dirname p : (length (dirname p) <= length p)%nat.
Proof.
  unfold dirname. pose proof (length_head_raw p) as H.
  destruct (forallb is_sep (head_raw p)); [lia|].
  etransitivity; [apply length_rstrip_sep|]. lia.
Qed.

(** A path that ends in a separator has an empty last component. *)
Lemma basename_nil_iff p :
  basename p = [] <-> p = [] \/ exists c, last p = Some c /\ is_sep c = true.
Proof.
  unfold basename. split.
  - intros H. apply (f_equal (@rev ascii)) in H. rewrite rev_involutive in H.
    cbn in H.
    destruct p as [|c p] using rev_ind; [now left|right].
    rewrite rev_unit in H. cbn [tail_rev] in H.
    exists c. rewrite last_snoc. split; [reflexivity|].
    now destruct (is_sep c).
  - intros [->|(c & Hl & Hc)]; [reflexivity|].
    destruct p as [|d p] using rev_ind; [discriminate|].
    rewrite last_snoc in Hl. injection Hl as ->.
    rewrite rev_unit. cbn [tail_rev]. now rewrite Hc.
Qed.

Lemma rstrip_sep_last l :
  forallb is_sep l = false ->
  exists c, last (rstrip_sep l) = Some c /\ is_sep c = false.
Proof.
  intros H. unfold rstrip_sep.
  destruct (drop_seps_shape (rev l)) as [[_ Hall]|(c & l' & -> & Hc & _)].
  - rewrite forallb_rev in Hall. congruence.
  - exists c. cbn [rev]. now rewrite last_snoc.
Qed.


(** [dirname] gives the empty path, a root, or a path whose last component
    is not empty. *)
Lemma dirname_shape p :
  dirname p = [] \/ Fs.is_root (dirname p) = true \/ basename (dirname p) <> [].
Proof.
  unfold dirname. destruct (forallb is_sep (head_raw p)) eqn:Hall.
  - destruct (head_raw p) as [|c h] eqn:Hh; [now left|right; left].
    unfold Fs.is_root. now rewrite Hall.
  - right; right. intros Hb. apply basename_nil_iff in Hb.
    destruct (rstrip_sep_last _ Hall) as (c & Hl & Hc).
    destruct Hb as [Hb|(d & Hd & Hs)].
    + rewrite Hb in Hl. discriminate.
    + congruence.
Qed.




Lemma dirname_nil : dirname [] = [].
Proof. reflexivity. Qed.

End PathFacts.

Module FsFacts.
Import Fs.




Lemma node_at_insert_ne t k n p :
  k <> p -> node_at (<[k := n]> t) p = node_at t p.
Proof.
  intros H. unfold node_at. now rewrite lookup_insert_ne.
Qed.




Lemma resolve_more fuel t p n :
  resolve fuel t p = Some n -> resolve (S fuel) t p = Some n.
Proof.
  revert p. induction fuel as [|fuel IH]; intros p.
  - cbn [resolve]. destruct (node_at t p) as [[| |q]|]; auto. discriminate.
  - intros H. cbn [resolve] in H |- *.
    destruct (node_at t p) as [[| |q]|]; auto.
    now apply IH in H.
Qed.

(** A new entry changes nothing for the paths that resolved before. *)
Lemma resolve_insert fuel t k x p n :
  node_at t k = None ->
  resolve fuel t p = Some n -> resolve fuel (<[k := x]> t) p = Some n.
Proof.
  intros Hk. revert p. induction fuel as [|fuel IH]; intros p H.
  - cbn [resolve] in *.
    destruct (decide (k = p)) as [->|Hne]; [rewrite Hk in H; discriminate|].
    now rewrite node_at_insert_ne.
  - cbn [resolve] in *.
    destruct (decide (k = p)) as [->|Hne]; [rewrite Hk in H; discriminate|].
    rewrite node_at_insert_ne by assumption.
    destruct (node_at t p) as [[| |q]|]; auto.
Qed.

Lemma size_insert_le (t : tree) k x :
  size (<[k := x]> t) = size t \/ size (<[k := x]> t) = S (size t).
Proof.
  destruct (t !! k) eqn:E.
  - left. rewrite <- (insert_delete_id t k n E) at 2.
    rewrite <- insert_delete_eq.
    rewrite !map_size_insert_None by apply lookup_delete_eq. reflexivity.
  - right. now apply map_size_insert_None.
Qed.

Lemma isdir_insert t k x p :
  node_at t k = None -> isdir t p = true -> isdir (<[k := x]> t) p = true.
Proof.
  unfold isdir. intros Hk H. apply bool_decide_eq_true in H.
  apply bool_decide_eq_true.
  destruct (size_insert_le t k x) as [->| ->].
  - now apply resolve_insert.
  - now apply resolve_more, resolve_insert.
Qed.














Lemma node_at_None_key t p :
  node_at t p = None -> p = [] \/ (is_root p = false /\ t !! p = None).
Proof.
  unfold node_at. destruct p as [|c p]; [now left|].
  destruct (is_root (c :: p)); [discriminate|]. auto.
Qed.


(** *** Paths that are looked up as the operating system does *)




(** *** [os.mkdir] and [os.makedirs] *)




Lemma split_for_makedirs_head name :
  (length (fst (split_for_makedirs name)) <= length name)%nat.
Proof.
  unfold split_for_makedirs, Path.split.
  pose proof (PathFacts.length_dirname name).
  pose proof (PathFacts.length_dirname (Path.dirname name)).
  destruct (Path.basename name); cbn [fst]; lia.
Qed.






(** *** [shutil.copytree] *)




End FsFacts.

(** ** The states of an item in [process_file] *)

Module Materialize.
Import Library Fs.















End Materialize.

(** ** Tokens between word boundaries and the rewritings that keep them *)

Module TokenFacts.
Import Re ReFacts Tokens.

Lemma space_not_word c : Py.is_space c = true -> Py.is_word c = false.
Proof.
  destruct c as [[] [] [] [] [] [] [] []]; vm_compute; intros H;
    (reflexivity || discriminate H).
Qed.

Lemma word_lower c : Py.is_word (Py.lower c) = Py.is_word c.
Proof. destruct c as [[] [] [] [] [] [] [] []]; vm_compute; reflexivity. Qed.

Lemma space_lower c : Py.is_space (Py.lower c) = Py.is_space c.
Proof. destruct c as [[] [] [] [] [] [] [] []]; vm_compute; reflexivity. Qed.

Lemma adv_nonempty pv m : m <> [] -> adv pv m = last m.
Proof.
  intros Hm. unfold adv. destruct (last m) eqn:E; [reflexivity|].
  apply last_None in E. congruence.
Qed.

Lemma head_app_nonempty {A} (m l : list A) : m <> [] -> head (m ++ l) = head m.
Proof. destruct m; [congruence|reflexivity]. Qed.

(** *** Occurrences *)

Lemma occ_true T pv s :
  occ T pv s = true ->
  word_opt pv = false /\ (tlen T <= length s)%nat
  /\ tok T (take (tlen T) s) = true
  /\ word_opt (head (drop (tlen T) s)) = false.
Proof.
  unfold occ. rewrite !andb_true_iff, !negb_true_iff, Nat.leb_le. tauto.
Qed.

Lemma occ_intro T pv w b :
  word_opt pv = false -> length w = tlen T -> tok T w = true ->
  word_opt (head b) = false -> occ T pv (w ++ b) = true.
Proof.
  intros Hpv Hlen Htok Hb. unfold occ. rewrite Hpv, <- Hlen.
  rewrite take_app_length, drop_app_length, Htok, Hb, length_app.
  cbn. rewrite !andb_true_r. apply Nat.leb_le. lia.
Qed.

(** An occurrence of a good token starts with a character of [\w]. *)
Lemma occ_head T pv s :
  good T -> occ T pv s = true ->
  exists c s', s = c :: s' /\ Py.is_word c = true
               /\ shape (Some c) (take (tlen T - 1) s') = true
               /\ (1 <= tlen T)%nat.
Proof.
  intros Hg H. apply occ_true in H as (_ & Hlen & Htok & _).
  destruct (Hg (take (tlen T) s)) as (c & w' & Hw & Hc & Hs);
    [rewrite length_take; lia|assumption|].
  destruct s as [|c0 s'].
  - rewrite take_nil in Hw. discriminate.
  - destruct (tlen T) as [|n]; [discriminate|].
    cbn [take] in Hw. injection Hw as -> <-.
    exists c, s'. cbn. rewrite Nat.sub_0_r. repeat split; auto. lia.
Qed.

Lemma occ_nil T pv : good T -> occ T pv [] = false.
Proof.
  intros Hg. destruct (occ T pv []) eqn:E; [|reflexivity].
  apply (occ_head _ _ _ Hg) in E as (c & s' & H & _). discriminate.
Qed.

Lemma occ_space T pv c s :
  good T -> Py.is_space c = true -> occ T pv (c :: s) = false.
Proof.
  intros Hg Hc. destruct (occ T pv (c :: s)) eqn:E; [|reflexivity].
  apply (occ_head _ _ _ Hg) in E as (c' & s' & [= <- <-] & Hw & _).
  apply space_not_word in Hc. congruence.
Qed.

Lemma occ_nonword T pv c s :
  good T -> Py.is_word c = false -> occ T pv (c :: s) = false.
Proof.
  intros Hg Hc. destruct (occ T pv (c :: s)) eqn:E; [|reflexivity].
  apply (occ_head _ _ _ Hg) in E as (c' & s' & [= <- <-] & Hw & _).
  congruence.
Qed.

Lemma clean_nil T pv : good T -> clean T pv [].
Proof.
  intros Hg a b H. symmetry in H. apply app_eq_nil in H as [-> ->].
  now apply occ_nil.
Qed.

Lemma clean_cons T pv c s :
  clean T pv (c :: s) <-> occ T pv (c :: s) = false /\ clean T (Some c) s.
Proof.
  split.
  - intros H. split; [exact (H [] (c :: s) eq_refl)|].
    intros a b ->. specialize (H (c :: a) b eq_refl).
    now rewrite adv_cons in H.
  - intros [H0 H] a b E. destruct a as [|c' a].
    + cbn in E. subst b. exact H0.
    + injection E as <- ->. rewrite adv_cons. now apply H.
Qed.

Lemma clean_suffix T pv a b : clean T pv (a ++ b) -> clean T (adv pv a) b.
Proof.
  intros H a' b' ->. rewrite <- adv_app. apply H. now rewrite app_assoc.
Qed.

(** *** Safe rewritings *)

Lemma shape_nil pv : shape pv [] = word_opt pv.
Proof. reflexivity. Qed.

Lemma shape_cons pv c w :
  shape pv (c :: w) = true ->
  Py.is_space c = false /\ (word_opt pv || Py.is_word c) = true
  /\ shape (Some c) w = true.
Proof.
  unfold shape. cbn [forallb no_adj]. rewrite adv_cons.
  rewrite !andb_true_iff, negb_true_iff. cbn [word_opt]. tauto.
Qed.

(** After a kept character, the rest of a token read in the result is
    read in the text as well, and ends before a character outside [\w]
    there too. *)
Lemma sedit_prefix K pv s o :
  sedit K pv s o -> is_Some pv ->
  forall w b, o = w ++ b -> shape pv w = true ->
    word_opt (head b) = false ->
    exists b', s = w ++ b' /\ word_opt (head b') = false.
Proof.
  induction 1 as [pv|pv c s o HK Hs IH|pv m g c s o Hsafe HK Hs IH
                  |pv m g Hsafe]; intros Hpv w b Ho Hw Hb.
  - symmetry in Ho. apply app_eq_nil in Ho as [-> ->]. exists []. auto.
  - destruct w as [|x w].
    + cbn in Ho. subst b. exists (c :: s). auto.
    + injection Ho as <- ->. apply shape_cons in Hw as (_ & _ & Hw).
      destruct (IH (ltac:(eauto)) w b eq_refl Hw Hb) as (b' & -> & Hb').
      exists b'. auto.
  - destruct Hsafe as (Hm & Hg & Hgap & HL & HR).
    destruct w as [|x w].
    + exists (m ++ c :: s). split; [reflexivity|].
      rewrite head_app_nonempty by assumption. apply HL.
      now rewrite shape_nil in Hw.
    + apply shape_cons in Hw as (Hx & Hadj & _). exfalso.
      destruct g as [|y g].
      * cbn in Ho. injection Ho as <- _.
        destruct (Hgap eq_refl) as [[HLw HRw]|[->|?]];
          [|now destruct Hpv|discriminate].
        cbn in HRw. rewrite HLw, HRw in Hadj. discriminate.
      * cbn in Ho. injection Ho as <- _. cbn in Hg.
        apply andb_true_iff in Hg as [Hy _]. congruence.
  - destruct Hsafe as (Hm & Hg & Hgap & HL & HR).
    destruct w as [|x w].
    + exists m. split; [reflexivity|]. apply HL.
      now rewrite shape_nil in Hw.
    + apply shape_cons in Hw as (Hx & _). exfalso.
      cbn in Ho. subst g. cbn in Hg.
      apply andb_true_iff in Hg as [Hy _]. congruence.
Qed.

(** An occurrence that starts at a kept character of the result starts
    at that character in the text. *)
Lemma occ_transfer T K c s o pv pv' :
  good T -> sedit K (Some c) s o -> occ T pv (c :: o) = true ->
  word_opt pv' = false -> occ T pv' (c :: s) = true.
Proof.
  intros Hg Hs Ho Hpv'.
  pose proof (occ_head _ _ _ Hg Ho) as (c0 & o0 & [= <- <-] & Hc & Hsh & Hn).
  apply occ_true in Ho as (_ & Hlen & Htok & Hb).
  destruct (tlen T) as [|n] eqn:En; [lia|].
  cbn [take drop length] in *.
  replace (S n - 1)%nat with n in Hsh by lia.
  destruct (sedit_prefix _ _ _ _ Hs (ltac:(eauto)) (take n o) (drop n o))
    as (b' & -> & Hb'); [now rewrite take_drop|assumption..|].
  change (c :: take n o ++ b') with ((c :: take n o) ++ b').
  apply occ_intro; try assumption.
  rewrite En. cbn [length]. rewrite length_take. lia.
Qed.

(** A text without occurrences at its kept positions has none after safe
    rewritings. *)
Lemma sedit_clean T K pv s o :
  good T -> sedit K pv s o ->
  (forall a b, s = a ++ b -> K (adv pv a) b -> occ T (adv pv a) b = false) ->
  clean T pv o.
Proof.
  intros Hg. induction 1 as [pv|pv c s o HK Hs IH|pv m g c s o Hsafe HK Hs IH
                             |pv m g Hsafe]; intros H.
  - now apply clean_nil.
  - apply clean_cons. split.
    + destruct (occ T pv (c :: o)) eqn:E; [|reflexivity].
      pose proof (occ_true _ _ _ E) as (Hpv & _).
      apply (occ_transfer _ _ _ _ _ _ pv Hg Hs) in E; [|assumption].
      pose proof (H [] (c :: s) eq_refl HK) as H0.
      change (occ T pv (c :: s) = false) in H0. congruence.
    + apply IH. intros a b -> HKb.
      specialize (H (c :: a) b eq_refl). rewrite adv_cons in H. auto.
  - destruct Hsafe as (Hm & Hgs & Hgap & HL & HR).
    assert (Hrest : clean T (Some c) o).
    { apply IH. intros a b -> HKb.
      specialize (H (m ++ c :: a) b).
      rewrite adv_app, adv_cons in H. apply H; [|assumption].
      now rewrite <- app_assoc. }
    assert (Hat : forall pv0, occ T pv0 (c :: o) = false).
    { intros pv0. destruct (occ T pv0 (c :: o)) eqn:E; [|reflexivity].
      pose proof (occ_head _ _ _ Hg E) as (c0 & o0 & [= <- <-] & Hc & _).
      apply (occ_transfer _ _ _ _ _ _ (adv pv m) Hg Hs) in E.
      - rewrite (H m (c :: s) eq_refl HK) in E. discriminate.
      - rewrite adv_nonempty by assumption. now apply HR. }
    clear H IH Hgap HL HR Hm HK. generalize pv as pv0.
    induction g as [|y g IHg]; intros pv0.
    + cbn [app]. apply clean_cons. split; [apply Hat|assumption].
    + cbn [app]. cbn in Hgs. apply andb_true_iff in Hgs as [Hy Hgs].
      apply clean_cons. split; [now apply occ_space|]. now apply IHg.
  - destruct Hsafe as (_ & Hgs & _). clear H. generalize pv as pv0.
    induction g as [|y g IHg]; intros pv0; [now apply clean_nil|].
    cbn in Hgs. apply andb_true_iff in Hgs as [Hy Hgs].
    apply clean_cons. split; [now apply occ_space|]. now apply IHg.
Qed.

Lemma sedit_clean_text T K pv s o :
  good T -> sedit K pv s o -> clean T pv s -> clean T pv o.
Proof.
  intros Hg Hs Hc. apply (sedit_clean T K pv s o Hg Hs).
  intros a b E _. now apply Hc.
Qed.

(** What a safe rewriting adds is white space. *)
Lemma sedit_elem K pv s o c :
  sedit K pv s o -> c ∈ o -> c ∈ s \/ Py.is_space c = true.
Proof.
  induction 1 as [pv|pv c0 s o HK Hs IH|pv m g c0 s o Hsafe HK Hs IH
                  |pv m g Hsafe]; intros Hc.
  - inversion Hc.
  - apply elem_of_cons in Hc as [->|Hc]; [left; left|].
    destruct (IH Hc) as [?|?]; [left; now right|now right].
  - destruct Hsafe as (_ & Hgs & _).
    apply elem_of_app in Hc as [Hc|Hc].
    + right. rewrite forallb_forall in Hgs. apply Hgs.
      now apply list_elem_of_In.
    + apply elem_of_cons in Hc as [->|Hc].
      * left. apply elem_of_app. right. left.
      * destruct (IH Hc) as [?|?]; [left|now right].
        apply elem_of_app. right. now right.
  - destruct Hsafe as (_ & Hgs & _). right.
    rewrite forallb_forall in Hgs. apply Hgs. now apply list_elem_of_In.
Qed.

Lemma sedit_weaken (K K' : option ascii -> pystr -> Prop) pv s o :
  (forall pv s, K pv s -> K' pv s) -> sedit K pv s o -> sedit K' pv s o.
Proof.
  intros HK. induction 1; econstructor; eauto.
Qed.

Lemma sedit_refl pv s : sedit (fun _ _ => True) pv s s.
Proof.
  revert pv. induction s as [|c s IH]; intros pv; constructor; auto.
Qed.

End TokenFacts.

(** ** What the patterns of [clean_query] match *)

Module MatcherFacts.
Import Re ReFacts Tokens TokenFacts Library.

(** *** [re.sub] and [re.search] along the text *)

Lemma sub_from_nil r repl fuel pv :
  match_here r pv [] = None -> sub_from r repl fuel pv [] = [].
Proof. intros H. destruct fuel; cbn [sub_from]; now rewrite ?H. Qed.

Lemma sub_from_miss r repl fuel pv c s :
  match_here r pv (c :: s) = None ->
  sub_from r repl (S fuel) pv (c :: s) = c :: sub_from r repl fuel (Some c) s.
Proof. intros H. cbn [sub_from]. now rewrite H. Qed.

Lemma sub_from_hit r repl fuel pv s n g :
  (1 <= n <= length s)%nat ->
  match_here r pv s = Some (drop n s, g) ->
  sub_from r repl (S fuel) pv s
  = repl (mk_match 0 s (drop n s) g)
      ++ sub_from r repl fuel (last (take n s)) (drop n s).
Proof.
  intros Hn H. cbn [sub_from]. rewrite H, length_drop.
  assert ((length s - n <? length s)%nat = true) as ->
    by (apply Nat.ltb_lt; lia).
  now replace (length s - (length s - n))%nat with n by lia.
Qed.

(** Where the pattern matches nowhere, [re.sub] returns the text. *)
Lemma sub_from_noop r repl fuel pv s :
  (forall a b, s = a ++ b -> match_here r (adv pv a) b = None) ->
  sub_from r repl fuel pv s = s.
Proof.
  revert pv s. induction fuel as [|fuel IH]; intros pv s H; [reflexivity|].
  destruct s as [|c s].
  - apply sub_from_nil. exact (H [] [] eq_refl).
  - rewrite sub_from_miss by exact (H [] (c :: s) eq_refl).
    f_equal. apply IH. intros a b ->.
    specialize (H (c :: a) b eq_refl). now rewrite adv_cons in H.
Qed.

Lemma sub_noop r repl s :
  (forall a b, s = a ++ b -> match_here r (adv None a) b = None) ->
  sub r repl s = s.
Proof. apply sub_from_noop. Qed.

Lemma search_from_None r i pv s :
  (forall a b, s = a ++ b -> match_here r (adv pv a) b = None) ->
  search_from r i pv s = None.
Proof.
  revert i pv. induction s as [|c s IH]; intros i pv H; cbn [search_from].
  - pose proof (H [] [] eq_refl) as H0. rewrite adv_nil in H0.
    now rewrite H0.
  - pose proof (H [] (c :: s) eq_refl) as H0. rewrite adv_nil in H0.
    rewrite H0. apply IH. intros a b ->.
    specialize (H (c :: a) b eq_refl). now rewrite adv_cons in H.
Qed.

(** [re.search] returns the leftmost match. *)
Lemma search_from_first r i pv s m :
  search_from r i pv s = Some m ->
  exists a b s' g,
    s = a ++ b /\ match_here r (adv pv a) b = Some (s', g)
    /\ m = mk_match (i + length a) b s' g
    /\ forall a1 b1, a = a1 ++ b1 -> b1 <> [] ->
         match_here r (adv pv a1) (b1 ++ b) = None.
Proof.
  revert i pv. induction s as [|c s IH]; intros i pv; cbn [search_from].
  - destruct (match_here r pv []) as [[s' g]|] eqn:E; [|discriminate].
    intros [= <-]. exists [], [], s', g. cbn. rewrite Nat.add_0_r.
    repeat split; auto. intros a1 b1 Ha Hb.
    symmetry in Ha. apply app_eq_nil in Ha as [_ ->]. congruence.
  - destruct (match_here r pv (c :: s)) as [[s' g]|] eqn:E.
    + intros [= <-]. exists [], (c :: s), s', g. cbn. rewrite Nat.add_0_r.
      repeat split; auto. intros a1 b1 Ha Hb.
      symmetry in Ha. apply app_eq_nil in Ha as [_ ->]. congruence.
    + intros H. apply IH in H as (a & b & s' & g & -> & Hm & -> & Hfirst).
      exists (c :: a), b, s', g. rewrite adv_cons. cbn [length].
      rewrite Nat.add_succ_r. repeat split; auto.
      intros a1 b1 Ha Hb. destruct a1 as [|c1 a1].
      * cbn in Ha. subst b1. exact E.
      * injection Ha as <- ->. rewrite adv_cons. now apply Hfirst.
Qed.

(** [re.sub] with a pattern that takes at least one character and a
    replacement that is safe is a safe rewriting; the kept positions are
    those at which the pattern does not match. *)
Lemma sub_from_sedit r hit len rep :
  matcher r hit len ->
  (forall pv s, hit pv s = true ->
     safe pv (head (drop (len s) s)) (take (len s) s) rep
     /\ hit (last (take (len s) s)) (drop (len s) s) = false) ->
  forall fuel pv s, (length s < fuel)%nat ->
    sedit (fun pv s => hit pv s = false) pv s
      (sub_from r (fun _ => rep) fuel pv s).
Proof.
  intros Hm Hsafe fuel.
  induction fuel as [fuel IH] using lt_wf_ind. intros pv s Hlt.
  destruct fuel as [|fuel]; [lia|].
  pose proof (Hm pv s) as Hps. destruct (hit pv s) eqn:Eh.
  - destruct Hps as [Hlen [g Hmh]].
    rewrite (sub_from_hit _ _ _ _ _ _ _ Hlen Hmh).
    destruct (Hsafe pv s Eh) as [Hsf Hnext].
    pose proof (Hm (last (take (len s) s)) (drop (len s) s)) as Hnx.
    rewrite Hnext in Hnx.
    assert (Hne : take (len s) s <> []).
    { intros E. apply (f_equal length) in E. rewrite length_take in E.
      cbn in E. lia. }
    rewrite <- (take_drop (len s) s) at 1.
    destruct (drop (len s) s) as [|c s1] eqn:Ed.
    + rewrite (sub_from_nil _ _ _ _ Hnx), !app_nil_r.
      now apply se_edit_end.
    + assert (length (c :: s1) < fuel)%nat.
      { rewrite <- Ed, length_drop. lia. }
      destruct fuel as [|fuel]; [cbn in *; lia|].
      rewrite (sub_from_miss _ _ _ _ _ _ Hnx).
      apply se_edit_keep; [assumption| |].
      * now rewrite adv_nonempty.
      * apply IH; [lia|]. cbn [length] in *. lia.
  - destruct s as [|c s].
    + rewrite (sub_from_nil _ _ _ _ Hps). constructor.
    + rewrite (sub_from_miss _ _ _ _ _ _ Hps).
      apply se_keep; [assumption|]. apply IH; [lia|]. cbn [length] in Hlt. lia.
Qed.

Lemma sub_sedit r hit len rep s :
  matcher r hit len ->
  (forall pv s, hit pv s = true ->
     safe pv (head (drop (len s) s)) (take (len s) s) rep
     /\ hit (last (take (len s) s)) (drop (len s) s) = false) ->
  sedit (fun pv s => hit pv s = false) None s (sub r rep s).
Proof.
  intros Hm Hsafe. apply (sub_from_sedit r hit len rep Hm Hsafe). lia.
Qed.

(** Where the pattern matches nowhere: in terms of [hit]. *)
Lemma matcher_miss r hit len pv s :
  matcher r hit len -> hit pv s = false -> match_here r pv s = None.
Proof. intros Hm H. specialize (Hm pv s). now rewrite H in Hm. Qed.

Lemma matcher_hit_false r hit len pv s :
  matcher r hit len -> match_here r pv s = None -> hit pv s = false.
Proof.
  intros Hm H. specialize (Hm pv s). destruct (hit pv s); [|reflexivity].
  destruct Hm as [_ [g Hg]]. congruence.
Qed.

Lemma search_from_None_inv r i pv s :
  search_from r i pv s = None ->
  forall a b, s = a ++ b -> match_here r (adv pv a) b = None.
Proof.
  revert i pv. induction s as [|c s IH]; intros i pv H a b E.
  - symmetry in E. apply app_eq_nil in E as [-> ->].
    cbn [search_from] in H. rewrite adv_nil.
    destruct (match_here r pv []) as [[? ?]|]; [discriminate|reflexivity].
  - cbn [search_from] in H.
    destruct (match_here r pv (c :: s)) as [[? ?]|] eqn:Em; [discriminate|].
    destruct a as [|c' a].
    + cbn in E. subst b. now rewrite adv_nil.
    + injection E as <- ->. rewrite adv_cons. now apply (IH _ _ H).
Qed.

(** *** The pieces of the patterns *)

Lemma exec_cat_all_cons {R} r rs pv s g
    (k : option ascii -> pystr -> caps -> option R) :
  exec (cat_all (r :: rs)) pv s g k
  = exec r pv s g (fun pv' s' g' => exec (cat_all rs) pv' s' g' k).
Proof. destruct rs; reflexivity. Qed.

Lemma exec_lit_ci {R} w pv s g
    (k : option ascii -> pystr -> caps -> option R) :
  exec (lit_ci w) pv s g k
  = if (length w <=? length s)%nat
       && bool_decide (Py.lower_str (take (length w) s) = Py.lower_str w)
    then k (adv pv (take (length w) s)) (drop (length w) s) g
    else None.
Proof.
  unfold lit_ci. revert pv s. induction w as [|c w IH]; intros pv s.
  - cbn. rewrite take_0. cbn. reflexivity.
  - cbn [map]. rewrite exec_cat_all_cons. cbn [exec chr_ci length].
    destruct s as [|x s]; [reflexivity|].
    cbn [take drop length Py.lower_str map]. rewrite adv_cons.
    case_bool_decide as Hx.
    + rewrite IH.
      change (S (length w) <=? S (length s))%nat
        with (length w <=? length s)%nat.
      destruct (length w <=? length s)%nat; [|reflexivity]. cbn [andb].
      unfold Py.lower_str.
      case_bool_decide as E1; case_bool_decide as E2; try reflexivity.
      * exfalso. apply E2. now rewrite Hx, E1.
      * exfalso. apply E1. now injection E2.
    + rewrite bool_decide_eq_false_2; [now rewrite andb_false_r|].
      intros E. apply Hx. now injection E.
Qed.

Lemma run_length_le p s : (run_length p s <= length s)%nat.
Proof.
  induction s as [|c s IH]; cbn; [lia|]. destruct (p c); cbn; lia.
Qed.

Lemma run_length_take p s : forallb p (take (run_length p s) s) = true.
Proof.
  induction s as [|c s IH]; cbn; [reflexivity|].
  destruct (p c) eqn:E; cbn; [now rewrite E|reflexivity].
Qed.

Lemma run_length_drop p s c :
  head (drop (run_length p s) s) = Some c -> p c = false.
Proof.
  induction s as [|x s IH]; cbn; [discriminate|].
  destruct (p x) eqn:E; cbn; [assumption|]. now intros [= <-].
Qed.

(** A greedy repetition of a class before a continuation that always
    succeeds takes the longest run. *)
Lemma rep_loop_greedy {R}
    (step : option ascii -> pystr -> caps ->
            (option ascii -> pystr -> caps -> option R) -> option R)
    (p : ascii -> bool) lo (k : option ascii -> pystr -> caps -> option R) :
  (forall pv s g k', step pv s g k' =
     match s with
     | c :: s' => if p c then k' (Some c) s' g else None
     | [] => None
     end) ->
  (forall pv s g, k pv s g <> None) ->
  forall fuel n pv s g, (length s < fuel)%nat ->
  rep_loop step lo None true k fuel n pv s g
  = if (lo <=? n + run_length p s)%nat
    then k (adv pv (take (run_length p s) s)) (drop (run_length p s) s) g
    else None.
Proof.
  intros Hstep Hk fuel.
  induction fuel as [|fuel IH]; intros n pv s g Hf; [lia|].
  cbn [rep_loop below]. rewrite Hstep.
  destruct s as [|c s].
  - cbn [run_length take drop]. rewrite Nat.add_0_r, adv_nil.
    destruct (n <? lo)%nat eqn:E.
    + apply Nat.ltb_lt in E.
      now assert ((lo <=? n)%nat = false) as -> by (apply Nat.leb_gt; lia).
    + apply Nat.ltb_ge in E.
      now assert ((lo <=? n)%nat = true) as -> by (apply Nat.leb_le; lia).
  - cbn [run_length]. destruct (p c) eqn:Ep.
    + assert ((length s <? length (c :: s))%nat = true) as ->
        by (apply Nat.ltb_lt; cbn; lia).
      rewrite IH by (cbn in Hf; lia).
      cbn [take drop]. rewrite adv_cons.
      replace (n + S (run_length p s))%nat with (S n + run_length p s)%nat
        by lia.
      destruct (n <? lo)%nat eqn:E; [reflexivity|].
      apply Nat.ltb_ge in E.
      assert ((lo <=? S n + run_length p s)%nat = true) as ->
        by (apply Nat.leb_le; lia).
      destruct (k _ _ _) eqn:Ek; [reflexivity|]. now apply Hk in Ek.
    + cbn [take drop]. rewrite Nat.add_0_r, adv_nil.
      destruct (n <? lo)%nat eqn:E.
      * apply Nat.ltb_lt in E.
        now assert ((lo <=? n)%nat = false) as -> by (apply Nat.leb_gt; lia).
      * apply Nat.ltb_ge in E.
        now assert ((lo <=? n)%nat = true) as -> by (apply Nat.leb_le; lia).
Qed.

(** The same before a continuation that fails on the characters of the
    class: giving a character back does not help. *)
Lemma rep_loop_greedy_stop {R}
    (step : option ascii -> pystr -> caps ->
            (option ascii -> pystr -> caps -> option R) -> option R)
    (p : ascii -> bool) lo (k : option ascii -> pystr -> caps -> option R) :
  (forall pv s g k', step pv s g k' =
     match s with
     | c :: s' => if p c then k' (Some c) s' g else None
     | [] => None
     end) ->
  (forall pv c s g, p c = true -> k pv (c :: s) g = None) ->
  forall fuel n pv s g, (length s < fuel)%nat ->
  rep_loop step lo None true k fuel n pv s g
  = if (lo <=? n + run_length p s)%nat
    then k (adv pv (take (run_length p s) s)) (drop (run_length p s) s) g
    else None.
Proof.
  intros Hstep Hk fuel.
  induction fuel as [|fuel IH]; intros n pv s g Hf; [lia|].
  cbn [rep_loop below]. rewrite Hstep.
  destruct s as [|c s].
  - cbn [run_length take drop]. rewrite Nat.add_0_r, adv_nil.
    destruct (n <? lo)%nat eqn:E.
    + apply Nat.ltb_lt in E.
      now assert ((lo <=? n)%nat = false) as -> by (apply Nat.leb_gt; lia).
    + apply Nat.ltb_ge in E.
      now assert ((lo <=? n)%nat = true) as -> by (apply Nat.leb_le; lia).
  - cbn [run_length]. destruct (p c) eqn:Ep.
    + assert ((length s <? length (c :: s))%nat = true) as ->
        by (apply Nat.ltb_lt; cbn; lia).
      rewrite IH by (cbn in Hf; lia).
      cbn [take drop]. rewrite adv_cons.
      replace (n + S (run_length p s))%nat with (S n + run_length p s)%nat
        by lia.
      destruct (n <? lo)%nat eqn:E; [reflexivity|].
      apply Nat.ltb_ge in E.
      assert ((lo <=? S n + run_length p s)%nat = true) as ->
        by (apply Nat.leb_le; lia).
      destruct (k _ _ _) eqn:Ek; [reflexivity|].
      apply Hk. exact Ep.
    + cbn [take drop]. rewrite Nat.add_0_r, adv_nil.
      destruct (n <? lo)%nat eqn:E.
      * apply Nat.ltb_lt in E.
        now assert ((lo <=? n)%nat = false) as -> by (apply Nat.leb_gt; lia).
      * apply Nat.ltb_ge in E.
        now assert ((lo <=? n)%nat = true) as -> by (apply Nat.leb_le; lia).
Qed.

End MatcherFacts.

(** ** The patterns of [clean_query], one by one *)

Module PatternFacts.
Import Re ReFacts Tokens TokenFacts MatcherFacts Library.

(** *** The tokens are good *)

Lemma shape_cons_eq pv c w :
  shape pv (c :: w)
  = negb (Py.is_space c) && (word_opt pv || Py.is_word c)
    && shape (Some c) w.
Proof.
  unfold shape. cbn [forallb no_adj word_opt]. rewrite adv_cons.
  destruct (negb (Py.is_space c)), (word_opt pv || Py.is_word c),
    (forallb _ w), (no_adj _ w); reflexivity.
Qed.

Lemma shape_lower pv pv' w k :
  word_opt pv = word_opt pv' -> Py.lower_str w = Py.lower_str k ->
  shape pv w = shape pv' k.
Proof.
  revert pv pv' k. induction w as [|x w IH]; intros pv pv' k Hpv E.
  - destruct k; [|discriminate]. now rewrite !shape_nil.
  - destruct k as [|c k]; [discriminate|]. injection E as Hx E.
    rewrite !shape_cons_eq, Hpv.
    rewrite <- (space_lower x), <- (word_lower x), Hx,
      space_lower, word_lower.
    f_equal. apply IH; [|assumption].
    cbn. now rewrite <- (word_lower x), Hx, word_lower.
Qed.

Lemma good_kw keyword : good_keyword keyword = true -> good (kw_token keyword).
Proof.
  intros Hk w Hlen Htok. cbn in Hlen, Htok.
  apply bool_decide_eq_true in Htok.
  destruct keyword as [|c k]; [discriminate|].
  destruct w as [|x w]; [discriminate|].
  injection Htok as Hx E. cbn in Hk. apply andb_true_iff in Hk as [Hc Hs].
  exists x, w. split; [reflexivity|]. split.
  - now rewrite <- word_lower, Hx, word_lower.
  - rewrite <- Hs. apply shape_lower; [|assumption].
    cbn. now rewrite <- word_lower, Hx, word_lower.
Qed.

Lemma good_keywords :
  forall keyword, keyword ∈ remove_keywords -> good (kw_token keyword).
Proof.
  intros k Hk. apply good_kw.
  assert (H : forallb good_keyword remove_keywords = true)
    by (vm_compute; reflexivity).
  rewrite forallb_forall in H. apply H. now apply list_elem_of_In.
Qed.

Lemma shape_digits pv w :
  word_opt pv = true -> forallb Py.is_digit w = true -> shape pv w = true.
Proof.
  revert pv. induction w as [|c w IH]; intros pv Hpv Hw.
  - now rewrite shape_nil.
  - cbn in Hw. apply andb_true_iff in Hw as [Hc Hw].
    rewrite shape_cons_eq, Hpv.
    rewrite IH; [|now apply PyFacts.digit_is_word|assumption].
    destruct (Py.is_space c) eqn:Es; [|reflexivity].
    apply space_not_word in Es.
    rewrite (PyFacts.digit_is_word c Hc) in Es. discriminate.
Qed.

Lemma good_year : good year_token.
Proof.
  intros w Hlen Htok. cbn in Hlen, Htok.
  destruct w as [|c w]; [discriminate|].
  cbn in Htok. apply andb_true_iff in Htok as [Hc Hw].
  exists c, w. split; [reflexivity|].
  split; [now apply PyFacts.digit_is_word|].
  apply shape_digits; [now apply PyFacts.digit_is_word|assumption].
Qed.

Lemma word_of_lower_S c :
  Py.lower c = Py.lower "S" -> Py.is_word c = true.
Proof.
  intros H. rewrite <- word_lower, H. reflexivity.
Qed.

Lemma good_season : good season_token.
Proof.
  intros w Hlen Htok. cbn in Hlen, Htok.
  destruct w as [|c [|d1 [|d2 [|? ?]]]]; try discriminate.
  apply andb_true_iff in Htok as [Htok H2].
  apply andb_true_iff in Htok as [Hc H1].
  apply bool_decide_eq_true in Hc.
  exists c, [d1; d2]. split; [reflexivity|].
  split; [now apply word_of_lower_S|].
  apply shape_digits; [now apply word_of_lower_S|].
  cbn. now rewrite H1, H2.
Qed.

(** *** Removing a token, with what follows it up to a character outside
    [\w], is safe *)

Lemma safe_removal pv s n :
  (1 <= n <= length s)%nat -> word_opt pv = false ->
  word_opt (head (drop n s)) = false ->
  safe pv (head (drop n s)) (take n s) [].
Proof.
  intros Hn Hpv Hr. split; [|split; [reflexivity|split; [|split]]].
  - intros E. apply (f_equal length) in E. rewrite length_take in E.
    cbn in E. lia.
  - intros _. left. auto.
  - congruence.
  - congruence.
Qed.

Lemma occ_after_nonword T pv s :
  good T -> word_opt (head s) = false -> occ T pv s = false.
Proof.
  intros Hg Hs. destruct s as [|c s]; [now apply occ_nil|].
  now apply occ_nonword.
Qed.

(** *** [\bkeyword\b] *)

Lemma keyword_matcher keyword :
  good_keyword keyword = true ->
  matcher (keyword_re keyword) (occ (kw_token keyword))
    (fun _ => length keyword).
Proof.
  intros Hk pv s. pose proof (good_kw keyword Hk) as Hg.
  unfold match_here, keyword_re. cbn [exec]. rewrite exec_lit_ci.
  destruct (occ (kw_token keyword) pv s) eqn:Eo.
  - pose proof (occ_head _ _ _ Hg Eo) as (c & s' & -> & Hc & Hsh & Hn).
    apply occ_true in Eo as (Hpv & Hlen & Htok & Hr).
    cbn [tlen tok kw_token] in *.
    split; [lia|]. exists [].
    cbn [head word_opt]. rewrite Hpv, Hc. cbn [xorb].
    apply Nat.leb_le in Hlen. rewrite Hlen, Htok. cbn [andb].
    destruct (length keyword) as [|n] eqn:En; [lia|].
    cbn [take] in *. rewrite adv_cons.
    replace (S n - 1)%nat with n in Hsh by lia.
    unfold shape in Hsh. apply andb_true_iff in Hsh as [_ Hlast].
    now rewrite Hlast, Hr.
  - destruct (xorb (word_opt pv) (word_opt (head s))) eqn:Ex;
      [|reflexivity].
    destruct ((length keyword <=? length s)%nat
              && bool_decide (Py.lower_str (take (length keyword) s)
                              = Py.lower_str keyword)) eqn:Ec;
      [|reflexivity].
    apply andb_true_iff in Ec as [Hlen Htok].
    destruct (xorb _ (word_opt (head (drop (length keyword) s)))) eqn:Ey;
      [|reflexivity].
    exfalso. apply Nat.leb_le in Hlen.
    destruct (Hg (take (length keyword) s)) as (c & w' & Hw & Hc & Hsh);
      [rewrite length_take; cbn; lia|exact Htok|].
    unfold shape in Hsh. apply andb_true_iff in Hsh as [_ Hlast].
    assert (Hh : head s = Some c).
    { destruct s as [|x s]; [now rewrite take_nil in Hw|].
      destruct (length keyword); [discriminate|]. cbn in Hw.
      injection Hw as -> _. reflexivity. }
    rewrite Hw, adv_cons, Hlast in Ey. rewrite Hh in Ex. cbn in Ex, Ey.
    rewrite Hc in Ex. unfold occ in Eo. cbn [tlen tok kw_token] in Eo.
    apply Nat.leb_le in Hlen. rewrite Hlen, Htok in Eo.
    destruct (word_opt pv), (word_opt (head (drop (length keyword) s)));
      discriminate.
Qed.

Lemma keyword_safe keyword :
  good_keyword keyword = true ->
  forall pv s, occ (kw_token keyword) pv s = true ->
    safe pv (head (drop (length keyword) s)) (take (length keyword) s) []
    /\ occ (kw_token keyword) (last (take (length keyword) s))
         (drop (length keyword) s) = false.
Proof.
  intros Hk pv s Ho. pose proof (good_kw keyword Hk) as Hg.
  pose proof (occ_head _ _ _ Hg Ho) as (_ & _ & _ & _ & _ & Hn).
  apply occ_true in Ho as (Hpv & Hlen & _ & Hr). cbn [tlen kw_token] in *.
  split; [apply safe_removal; auto; lia|].
  now apply occ_after_nonword.
Qed.

(** Removing a keyword is a safe rewriting that leaves no occurrence of
    it and creates none of another token. *)
Lemma keyword_sedit keyword s :
  good_keyword keyword = true ->
  sedit (fun pv s => occ (kw_token keyword) pv s = false) None s
    (sub (keyword_re keyword) [] s).
Proof.
  intros Hk. apply (sub_sedit _ _ (fun _ => length keyword)).
  - now apply keyword_matcher.
  - now apply keyword_safe.
Qed.

(** *** [\b(\d{4})\b] *)

Lemma year_matcher : matcher year_token_re (occ year_token) (fun _ => 4%nat).
Proof.
  intros pv s. unfold match_here, year_token_re. cbn [cat_all exec].
  unfold digit. rewrite exec_times_cls.
  unfold occ. cbn [tlen tok year_token].
  destruct (4 <=? length s)%nat eqn:Hlen;
    [|cbn; rewrite andb_false_r; cbn; now destruct (xorb _ _)].
  destruct (forallb Py.is_digit (take 4 s)) eqn:Hd;
    [|cbn; rewrite andb_false_r; cbn; now destruct (xorb _ _)].
  cbn [andb]. apply Nat.leb_le in Hlen.
  assert (Hh : word_opt (head s) = true).
  { destruct s as [|c s]; [cbn in Hlen; lia|]. cbn in Hd.
    apply andb_true_iff in Hd as [Hc _]. cbn.
    now apply PyFacts.digit_is_word. }
  assert (Hl : word_opt (adv pv (take 4 s)) = true).
  { destruct s as [|c s]; [cbn in Hlen; lia|]. cbn [take] in *.
    rewrite adv_cons. cbn in Hd. apply andb_true_iff in Hd as [Hc Hd].
    assert (Hs := shape_digits (Some c) (take 3 s)
                    (PyFacts.digit_is_word c Hc) Hd).
    unfold shape in Hs. now apply andb_true_iff in Hs as [_ Hs]. }
  rewrite Hh, Hl. rewrite andb_true_r.
  destruct (word_opt pv); cbn; [reflexivity|].
  destruct (word_opt (head (drop 4 s))); cbn; [reflexivity|].
  split; [lia|]. eexists. reflexivity.
Qed.

(** *** [\bS\d{2}\b.*] *)

Lemma newline_not_word c : not_newline c = false -> Py.is_word c = false.
Proof.
  unfold not_newline, Py.is_newline. intros H.
  apply negb_false_iff, PyFacts.is_code_eq in H. now subst c.
Qed.

Lemma exec_star_dot pv s g :
  exec (star dot) pv s g (fun _ s' g' => Some (s', g'))
  = Some (drop (run_length not_newline s) s, g).
Proof.
  unfold star, dot. cbn [exec].
  rewrite (rep_loop_greedy (exec (Cls (fun c => negb (Py.is_newline c))))
             not_newline 0 (fun _ s' g' => Some (s', g')));
    [reflexivity|reflexivity|discriminate|lia].
Qed.

Lemma season_tok_take s :
  tok season_token (take 3 s)
  = match s with
    | c :: s1 =>
        bool_decide (Py.lower c = Py.lower "S")
        && ((2 <=? length s1)%nat && forallb Py.is_digit (take 2 s1))
    | [] => false
    end.
Proof.
  destruct s as [|c [|d1 [|d2 s]]]; cbn; rewrite ?andb_false_r;
    try reflexivity.
  now rewrite andb_true_r, andb_assoc.
Qed.

Lemma season_matcher : matcher season_tail_re (occ season_token) season_len.
Proof.
  intros pv s. pose proof good_season as Hg.
  unfold match_here, season_tail_re. cbn [cat_all exec chr_ci].
  destruct (occ season_token pv s) eqn:Eo.
  - pose proof (occ_head _ _ _ Hg Eo) as (c & s1 & -> & Hc & Hsh & _).
    apply occ_true in Eo as (Hpv & Hlen & Htok & Hr).
    cbn [tlen season_token] in Hlen, Hr, Hsh. rewrite season_tok_take in Htok.
    apply andb_true_iff in Htok as [HS Hd].
    split.
    { unfold season_len. pose proof (run_length_le not_newline (drop 3 (c :: s1))).
      rewrite length_drop in H. lia. }
    exists []. cbn [head word_opt]. rewrite Hpv, Hc, HS. cbn [xorb].
    unfold digit. rewrite exec_times_cls, Hd.
    cbn [exec]. unfold shape in Hsh.
    apply andb_true_iff in Hsh as [_ Hlast]. cbn in Hlast.
    change (3 - 1)%nat with 2%nat in Hlast. rewrite Hlast.
    cbn [drop] in Hr. rewrite Hr. cbn [xorb].
    change (Rep 0 None true (Cls (fun c0 => negb (Py.is_newline c0))))
      with (star dot).
    rewrite exec_star_dot. unfold season_len. cbn [drop].
    change (3 + ?n)%nat with (S (2 + n)). cbn [drop].
    now rewrite drop_drop.
  - destruct (xorb (word_opt pv) (word_opt (head s))) eqn:Ex;
      [|reflexivity].
    destruct s as [|c s1]; [reflexivity|].
    case_bool_decide as HS; [|reflexivity].
    unfold digit. rewrite exec_times_cls.
    destruct ((2 <=? length s1)%nat && forallb Py.is_digit (take 2 s1))
      eqn:Hd; [|reflexivity].
    cbn [exec].
    destruct (xorb (word_opt (adv (Some c) (take 2 s1)))
                (word_opt (head (drop 2 s1)))) eqn:Ey; [|reflexivity].
    exfalso.
    assert (Hc : Py.is_word c = true) by now apply word_of_lower_S.
    assert (Hl : word_opt (adv (Some c) (take 2 s1)) = true).
    { apply andb_true_iff in Hd as [_ Hd].
      assert (Hs := shape_digits (Some c) (take 2 s1) Hc Hd).
      unfold shape in Hs. now apply andb_true_iff in Hs as [_ Hs]. }
    unfold occ in Eo. cbn [tlen season_token] in Eo.
    rewrite season_tok_take, Hd in Eo.
    rewrite bool_decide_eq_true_2 in Eo by assumption.
    cbn [head word_opt] in Ex. rewrite Hc in Ex. rewrite Hl in Ey.
    apply andb_true_iff in Hd as [Hlen _]. apply Nat.leb_le in Hlen.
    assert ((3 <=? length (c :: s1))%nat = true) as E3
      by (apply Nat.leb_le; cbn; lia).
    rewrite E3 in Eo. cbn [drop] in Eo.
    destruct (word_opt pv), (word_opt (head (drop 2 s1))); discriminate.
Qed.

Lemma season_safe pv s :
  occ season_token pv s = true ->
  safe pv (head (drop (season_len s) s)) (take (season_len s) s) []
  /\ occ season_token (last (take (season_len s) s))
       (drop (season_len s) s) = false.
Proof.
  intros Ho. pose proof good_season as Hg.
  apply occ_true in Ho as (Hpv & Hlen & _ & _). cbn [tlen season_token] in *.
  assert (Hr : word_opt (head (drop (season_len s) s)) = false).
  { unfold season_len. rewrite <- drop_drop.
    destruct (head (drop (run_length not_newline (drop 3 s)) (drop 3 s)))
      as [c|] eqn:E; [|reflexivity].
    apply run_length_drop in E. cbn. now apply newline_not_word. }
  split; [|now apply occ_after_nonword].
  apply safe_removal; auto. unfold season_len.
  pose proof (run_length_le not_newline (drop 3 s)) as H.
  rewrite length_drop in H. lia.
Qed.

Lemma season_sedit s :
  sedit (fun pv s => occ season_token pv s = false) None s
    (sub season_tail_re [] s).
Proof.
  apply (sub_sedit _ _ season_len);
    [exact season_matcher|exact season_safe].
Qed.

(** *** [\s+] *)

Lemma spaces_matcher :
  matcher spaces_re space_hit (run_length Py.is_space).
Proof.
  intros pv s. unfold match_here, spaces_re, plus, space. cbn [exec].
  rewrite (rep_loop_greedy (exec (Cls Py.is_space)) Py.is_space 1
             (fun _ s' g' => Some (s', g')));
    [|reflexivity|discriminate|lia].
  destruct s as [|c s]; [reflexivity|].
  cbn [space_hit run_length]. destruct (Py.is_space c) eqn:Ec;
    [|reflexivity].
  cbn [Nat.add Nat.leb]. split.
  - pose proof (run_length_le Py.is_space s). cbn [length]. lia.
  - eexists. reflexivity.
Qed.

Lemma spaces_ends m :
  m <> [] -> forallb Py.is_space m = true ->
  word_opt (head m) = false /\ word_opt (last m) = false.
Proof.
  intros Hm Hall. rewrite forallb_forall in Hall. split.
  - destruct m as [|c m]; [congruence|]. cbn.
    apply space_not_word, Hall. now left.
  - destruct (last m) as [c|] eqn:E; [|reflexivity]. cbn.
    apply space_not_word, Hall, list_elem_of_In.
    apply last_Some in E as [l ->]. apply elem_of_app. right. left.
Qed.

Lemma spaces_safe pv s :
  space_hit pv s = true ->
  safe pv (head (drop (run_length Py.is_space s) s))
    (take (run_length Py.is_space s) s) (str " ")
  /\ space_hit (last (take (run_length Py.is_space s) s))
       (drop (run_length Py.is_space s) s) = false.
Proof.
  intros Hh.
  assert (Hne : take (run_length Py.is_space s) s <> []).
  { destruct s as [|c s]; [discriminate|]. cbn in Hh |- *. now rewrite Hh. }
  destruct (spaces_ends _ Hne (run_length_take _ _)) as [H1 H2].
  split.
  - split; [assumption|]. split; [reflexivity|].
    split; [discriminate|]. auto.
  - unfold space_hit.
    destruct (drop (run_length Py.is_space s) s) as [|c s1] eqn:E;
      [reflexivity|].
    apply (run_length_drop Py.is_space s). now rewrite E.
Qed.

Lemma spaces_sedit s :
  sedit (fun pv s => space_hit pv s = false) None s
    (sub spaces_re (str " ") s).
Proof.
  apply (sub_sedit _ _ (run_length Py.is_space));
    [exact spaces_matcher|exact spaces_safe].
Qed.

(** *** [\(\s*\)] *)

Lemma parens_matcher : matcher empty_parens_re parens_hit parens_len.
Proof.
  intros pv s. unfold match_here, empty_parens_re.
  rewrite exec_cat_all_cons. cbn [exec chr].
  destruct s as [|c s]; [reflexivity|]. cbn [parens_hit].
  case_bool_decide as Hc; [|reflexivity]. cbn [andb].
  rewrite exec_cat_all_cons. unfold star, space.
  change (exec (Rep 0 None true (Cls Py.is_space)) (Some c) s [])
    with (fun k : option ascii -> pystr -> caps -> option (pystr * caps) =>
            rep_loop (exec (Cls Py.is_space)) 0 None true k
              (S (length s)) 0 (Some c) s []).
  cbv beta.
  rewrite (rep_loop_greedy_stop (exec (Cls Py.is_space)) Py.is_space 0
             (fun pv' s' g' =>
                exec (cat_all [chr ")"]) pv' s' g'
                  (fun _ s'' g'' => Some (s'', g''))));
    [|reflexivity| |lia].
  - cbn [Nat.add Nat.leb exec cat_all chr]. unfold parens_len. cbn [tail].
    destruct (drop (run_length Py.is_space s) s) as [|x s1] eqn:Ed;
      [reflexivity|]. cbn [head].
    destruct (decide (x = ")"%char)) as [->|Hx].
    + rewrite !bool_decide_eq_true_2 by reflexivity.
      split.
      * pose proof (run_length_le Py.is_space s).
        apply (f_equal length) in Ed. rewrite length_drop in Ed.
        cbn [length] in *. lia.
      * exists []. do 2 f_equal. cbn [Nat.add drop].
        change (S (run_length Py.is_space s))
          with (1 + run_length Py.is_space s)%nat.
        rewrite Nat.add_comm, <- drop_drop, Ed. reflexivity.
    + rewrite !bool_decide_eq_false_2; [reflexivity|congruence|congruence].
  - intros pv' x s' g' Hx. cbn [exec cat_all chr].
    case_bool_decide as E; [|reflexivity]. subst x. discriminate.
Qed.

(** [no_empty_parens], position by position. *)
Lemma no_empty_parens_hits s :
  no_empty_parens s <-> forall a b, s = a ++ b -> parens_hit None b = false.
Proof.
  unfold no_empty_parens, search. split.
  - intros H a b E.
    apply (matcher_hit_false _ _ _ (adv None a) _ parens_matcher).
    exact (search_from_None_inv _ 0 None s H a b E).
  - intros H. apply search_from_None. intros a b E.
    apply (matcher_miss _ _ _ _ _ parens_matcher).
    exact (H a b E).
Qed.

Lemma empty_parens_noop s :
  no_empty_parens s -> sub empty_parens_re [] s = s.
Proof.
  intros H. apply sub_noop. exact (search_from_None_inv _ 0 None s H).
Qed.

End PatternFacts.

(** ** [clean_query] *)

Module CleanQuery.
Import Re ReFacts Tokens TokenFacts MatcherFacts PatternFacts Library.

(** *** [str.strip] *)

Lemma lstrip_drop s : Py.lstrip s = drop (run_length Py.is_space s) s.
Proof.
  induction s as [|c s IH]; [reflexivity|].
  cbn. destruct (Py.is_space c); [exact IH|reflexivity].
Qed.

Lemma lstrip_head s : space_hit None (Py.lstrip s) = false.
Proof.
  induction s as [|c s IH]; [reflexivity|].
  cbn [Py.lstrip]. destruct (Py.is_space c) eqn:E; [exact IH|].
  cbn. exact E.
Qed.

Lemma lstrip_id s : space_hit None s = false -> Py.lstrip s = s.
Proof. destruct s as [|c s]; [reflexivity|]. cbn. now intros ->. Qed.

Lemma rstrip_split s :
  exists ws, s = Py.rstrip s ++ ws /\ forallb Py.is_space ws = true.
Proof.
  unfold Py.rstrip. exists (rev (take (run_length Py.is_space (rev s)) (rev s))).
  split.
  - rewrite lstrip_drop, <- rev_app_distr, take_drop. now rewrite rev_involutive.
  - rewrite PathFacts.forallb_rev. apply run_length_take.
Qed.

Lemma rstrip_idem s : Py.rstrip (Py.rstrip s) = Py.rstrip s.
Proof.
  unfold Py.rstrip. rewrite rev_involutive.
  now rewrite (lstrip_id _ (lstrip_head _)).
Qed.

Lemma strip_idem s : Py.strip (Py.strip s) = Py.strip s.
Proof.
  unfold Py.strip.
  assert (H : Py.lstrip (Py.rstrip (Py.lstrip s)) = Py.rstrip (Py.lstrip s)).
  { apply lstrip_id. pose proof (lstrip_head s) as Hh.
    destruct (rstrip_split (Py.lstrip s)) as (ws & E & _).
    destruct (Py.rstrip (Py.lstrip s)) as [|c u]; [reflexivity|].
    rewrite E in Hh. exact Hh. }
  rewrite H. apply rstrip_idem.
Qed.

Lemma lstrip_sedit s : sedit (fun _ _ => True) None s (Py.lstrip s).
Proof.
  rewrite lstrip_drop.
  destruct (run_length Py.is_space s) as [|n] eqn:En.
  - rewrite drop_0. apply sedit_refl.
  - assert (Hall : forallb Py.is_space (take (S n) s) = true)
      by (rewrite <- En; apply run_length_take).
    assert (Hne : take (S n) s <> []).
    { destruct s; [discriminate|]. discriminate. }
    destruct (spaces_ends _ Hne Hall) as [H1 H2].
    rewrite <- (take_drop (S n) s) at 1.
    destruct (drop (S n) s) as [|c s1].
    + rewrite app_nil_r. apply se_edit_end.
      repeat split; auto; discriminate.
    + apply (se_edit_keep _ _ _ []); [|exact I|apply sedit_refl].
      repeat split; auto; discriminate.
Qed.

Lemma drop_tail_sedit pv a ws :
  forallb Py.is_space ws = true ->
  sedit (fun _ _ => True) pv (a ++ ws) a.
Proof.
  intros Hws. revert pv. induction a as [|c a IH]; intros pv.
  - destruct ws as [|w ws]; [constructor|].
    apply se_edit_end.
    destruct (spaces_ends (w :: ws) ltac:(discriminate) Hws) as [H1 H2].
    repeat split; auto; discriminate.
  - cbn [app]. apply se_keep; [exact I|apply IH].
Qed.

Lemma rstrip_sedit pv s : sedit (fun _ _ => True) pv s (Py.rstrip s).
Proof.
  destruct (rstrip_split s) as (ws & E & Hws).
  rewrite E at 1. now apply drop_tail_sedit.
Qed.

Lemma strip_clean T s : good T -> clean T None s -> clean T None (Py.strip s).
Proof.
  intros Hg H. unfold Py.strip.
  eapply sedit_clean_text; [assumption|apply rstrip_sedit|].
  eapply sedit_clean_text; [assumption|apply lstrip_sedit|assumption].
Qed.

(** *** The text before the year *)

Lemma cut_sedit pv a b :
  b <> [] -> word_opt (adv pv a) = false ->
  sedit (fun _ b' => (length b < length b')%nat) pv (a ++ b) a.
Proof.
  intros Hb. revert pv. induction a as [|c a IH]; intros pv Hpv.
  - apply se_edit_end. rewrite adv_nil in Hpv.
    repeat split; auto; try congruence; discriminate.
  - cbn [app]. apply se_keep.
    + cbn [length]. rewrite length_app. lia.
    + apply IH. now rewrite adv_cons in Hpv.
Qed.

(** *** Single spaces *)

Lemma spaced_weaken s : spaced true s = true -> spaced false s = true.
Proof.
  destruct s as [|c s]; [reflexivity|]. cbn.
  destruct (Py.is_space c); [|auto]. rewrite andb_false_r. discriminate.
Qed.

Lemma spaced_tail p c s : spaced p (c :: s) = true -> spaced false s = true.
Proof.
  cbn. destruct (Py.is_space c); [|auto].
  intros H. apply andb_true_iff in H as [_ H]. now apply spaced_weaken.
Qed.

Lemma spaced_drop n : forall p s,
  spaced p s = true -> spaced false (drop n s) = true.
Proof.
  induction n as [|n IH]; intros p s H.
  - rewrite drop_0. destruct p; [now apply spaced_weaken|assumption].
  - destruct s as [|c s]; [reflexivity|]. cbn [drop].
    apply (IH false). now apply spaced_tail in H.
Qed.

Lemma spaced_prefix a : forall p b,
  spaced p (a ++ b) = true -> spaced p a = true.
Proof.
  induction a as [|c a IH]; intros p b H; [reflexivity|].
  cbn in H |- *. destruct (Py.is_space c).
  - apply andb_true_iff in H as [H1 H2]. rewrite H1. cbn. now apply (IH _ b).
  - now apply (IH _ b).
Qed.

Lemma spaced_strip s : spaced false s = true -> spaced false (Py.strip s) = true.
Proof.
  intros H. unfold Py.strip.
  destruct (rstrip_split (Py.lstrip s)) as (ws & E & _).
  apply (spaced_prefix _ false ws). rewrite <- E, lstrip_drop.
  now apply (spaced_drop _ false).
Qed.

(** [re.sub(r'\s+', ' ', s)] leaves single spaces. *)
Lemma spaces_sub_spaced fuel : forall pv s,
  (length s < fuel)%nat ->
  spaced false (sub_from spaces_re (fun _ => str " ") fuel pv s) = true
  /\ (space_hit pv s = false ->
      spaced true (sub_from spaces_re (fun _ => str " ") fuel pv s) = true).
Proof.
  induction fuel as [fuel IH] using lt_wf_ind. intros pv s Hlt.
  destruct fuel as [|fuel]; [lia|].
  pose proof (spaces_matcher pv s) as Hm.
  destruct (space_hit pv s) eqn:Eh.
  - destruct Hm as [Hlen [g Hmh]].
    rewrite (sub_from_hit _ _ _ _ _ _ _ Hlen Hmh).
    destruct (spaces_safe pv s Eh) as [_ Hnext].
    split; [|discriminate].
    destruct (IH fuel ltac:(lia) (last (take (run_length Py.is_space s) s))
                (drop (run_length Py.is_space s) s)) as [_ H2].
    { rewrite length_drop. lia. }
    cbn. apply H2. exact Hnext.
  - destruct s as [|c s].
    + rewrite (sub_from_nil _ _ _ _ Hm). auto.
    + rewrite (sub_from_miss _ _ _ _ _ _ Hm). cbn in Eh. cbn [spaced].
      rewrite Eh.
      destruct (IH fuel ltac:(lia) (Some c) s) as [H1 _];
        [cbn in Hlt; lia|]. auto.
Qed.

(** A text with single spaces is left as it is. *)
Lemma spaced_sub_id fuel : forall pv p s,
  (length s < fuel)%nat -> spaced p s = true ->
  sub_from spaces_re (fun _ => str " ") fuel pv s = s.
Proof.
  induction fuel as [fuel IH] using lt_wf_ind. intros pv p s Hlt Hs.
  destruct fuel as [|fuel]; [lia|].
  pose proof (spaces_matcher pv s) as Hm.
  destruct (space_hit pv s) eqn:Eh.
  - destruct Hm as [Hlen [g Hmh]].
    rewrite (sub_from_hit _ _ _ _ _ _ _ Hlen Hmh).
    destruct s as [|c s]; [discriminate|]. cbn in Eh.
    cbn [spaced] in Hs. rewrite Eh in Hs.
    apply andb_true_iff in Hs as [Hs Hrest].
    apply andb_true_iff in Hs as [Hc _]. apply bool_decide_eq_true in Hc.
    assert (Hr : run_length Py.is_space s = 0%nat).
    { destruct s as [|d s]; [reflexivity|]. cbn in Hrest |- *.
      destruct (Py.is_space d); [|reflexivity].
      rewrite andb_false_r in Hrest. discriminate. }
    cbn [run_length]. rewrite Eh, Hr. cbn [take drop last].
    rewrite (IH fuel ltac:(lia) _ true s); [|cbn in Hlt; lia|assumption].
    now subst c.
  - destruct s as [|c s].
    + now rewrite (sub_from_nil _ _ _ _ Hm).
    + rewrite (sub_from_miss _ _ _ _ _ _ Hm). f_equal.
      apply (IH fuel ltac:(lia) _ false); [cbn in Hlt; lia|].
      now apply spaced_tail in Hs.
Qed.

(** *** The keywords, one after another *)

(** *** Empty parentheses *)

Lemma no_empty_parens_suffix a b :
  no_empty_parens (a ++ b) -> no_empty_parens b.
Proof.
  rewrite !no_empty_parens_hits. intros H a1 b1 ->.
  apply (H (a ++ a1) b1). now rewrite app_assoc.
Qed.

Lemma parens_hit_app pv b x :
  parens_hit pv b = true -> parens_hit pv (b ++ x) = true.
Proof.
  destruct b as [|c b]; [discriminate|]. cbn [parens_hit app].
  intros H. apply andb_true_iff in H as [Hc H]. rewrite Hc. cbn [andb].
  apply bool_decide_eq_true in H. apply bool_decide_eq_true.
  clear Hc. induction b as [|d b IH]; [discriminate|].
  cbn [run_length app] in *.
  destruct (Py.is_space d); [now apply IH|exact H].
Qed.

Lemma no_empty_parens_prefix a b :
  no_empty_parens (a ++ b) -> no_empty_parens a.
Proof.
  rewrite !no_empty_parens_hits. intros H a1 b1 ->.
  destruct (parens_hit None b1) eqn:E; [|reflexivity].
  rewrite <- (H a1 (b1 ++ b)) by now rewrite app_assoc.
  symmetry. now apply parens_hit_app.
Qed.

Lemma no_empty_parens_strip s :
  no_empty_parens s -> no_empty_parens (Py.strip s).
Proof.
  intros H. unfold Py.strip.
  destruct (rstrip_split (Py.lstrip s)) as (ws & E & _).
  apply (no_empty_parens_prefix _ ws). rewrite <- E, lstrip_drop.
  apply (no_empty_parens_suffix (take (run_length Py.is_space s) s)).
  now rewrite take_drop.
Qed.

(** The first character after the white space at the start is the same
    before and after [re.sub(r'\s+', ' ', s)]. *)
Lemma spaces_sub_first fuel pv s :
  (length s < fuel)%nat ->
  head (Py.lstrip (sub_from spaces_re (fun _ => str " ") fuel pv s))
  = head (Py.lstrip s).
Proof.
  intros Hlt. destruct fuel as [|fuel]; [lia|].
  pose proof (spaces_matcher pv s) as Hm.
  destruct (space_hit pv s) eqn:Eh.
  - destruct Hm as [Hlen [g Hmh]].
    rewrite (sub_from_hit _ _ _ _ _ _ _ Hlen Hmh).
    destruct (spaces_safe pv s Eh) as [_ Hnext].
    cbn [str list_ascii_of_string app Py.lstrip].
    change (Py.is_space " ") with true. cbv iota.
    rewrite (lstrip_drop s).
    pose proof (spaces_matcher (last (take (run_length Py.is_space s) s))
                  (drop (run_length Py.is_space s) s)) as Hm2.
    rewrite Hnext in Hm2.
    destruct (drop (run_length Py.is_space s) s) as [|c s1] eqn:Ed.
    + now rewrite (sub_from_nil _ _ _ _ Hm2).
    + destruct fuel as [|fuel].
      { apply (f_equal length) in Ed. rewrite length_drop in Ed.
        cbn [length] in *. lia. }
      rewrite (sub_from_miss _ _ _ _ _ _ Hm2). cbn in Hnext.
      cbn [Py.lstrip]. now rewrite Hnext.
  - destruct s as [|c s].
    + now rewrite (sub_from_nil _ _ _ _ Hm).
    + rewrite (sub_from_miss _ _ _ _ _ _ Hm). cbn in Eh.
      cbn [Py.lstrip]. now rewrite Eh.
Qed.

(** [re.sub(r'\s+', ' ', s)] creates no empty pair of parentheses. *)
Lemma spaces_sub_parens fuel : forall pv s,
  (length s < fuel)%nat ->
  (forall a b, s = a ++ b -> parens_hit None b = false) ->
  forall a b, sub_from spaces_re (fun _ => str " ") fuel pv s = a ++ b ->
    parens_hit None b = false.
Proof.
  induction fuel as [fuel IH] using lt_wf_ind. intros pv s Hlt Hs.
  destruct fuel as [|fuel]; [lia|].
  pose proof (spaces_matcher pv s) as Hm.
  destruct (space_hit pv s) eqn:Eh.
  - destruct Hm as [Hlen [g Hmh]].
    rewrite (sub_from_hit _ _ _ _ _ _ _ Hlen Hmh).
    cbn [str list_ascii_of_string app].
    intros [|x a] b E.
    + cbn in E. subst b. reflexivity.
    + injection E as <- E. revert E.
      apply (IH fuel ltac:(lia)); [rewrite length_drop; lia|].
      intros a1 b1 E1.
      apply (Hs (take (run_length Py.is_space s) s ++ a1) b1).
      now rewrite <- app_assoc, <- E1, take_drop.
  - destruct s as [|c s].
    + rewrite (sub_from_nil _ _ _ _ Hm). intros a b E.
      symmetry in E. apply app_eq_nil in E as [_ ->]. reflexivity.
    + rewrite (sub_from_miss _ _ _ _ _ _ Hm).
      intros [|x a] b E.
      * cbn in E. subst b. cbn [parens_hit].
        rewrite <- lstrip_drop, spaces_sub_first by (cbn in Hlt; lia).
        rewrite lstrip_drop. exact (Hs [] (c :: s) eq_refl).
      * injection E as <- E. revert E.
        apply (IH fuel ltac:(lia)); [cbn in Hlt; lia|].
        intros a1 b1 E1. apply (Hs (c :: a1) b1). now rewrite E1.
Qed.

Lemma no_empty_parens_spaces s :
  no_empty_parens s -> no_empty_parens (sub spaces_re (str " ") s).
Proof.
  rewrite !no_empty_parens_hits. intros H. unfold sub.
  apply spaces_sub_parens; [lia|exact H].
Qed.

(** *** The keywords, one after another *)

Lemma keyword_establish keyword s :
  good_keyword keyword = true ->
  clean (kw_token keyword) None (sub (keyword_re keyword) [] s).
Proof.
  intros Hk.
  apply (sedit_clean _ _ _ _ _ (good_kw _ Hk) (keyword_sedit _ s Hk)).
  auto.
Qed.

Lemma keyword_preserve T keyword s :
  good T -> good_keyword keyword = true -> clean T None s ->
  clean T None (sub (keyword_re keyword) [] s).
Proof.
  intros Hg Hk.
  exact (sedit_clean_text T _ None s _ Hg (keyword_sedit keyword s Hk)).
Qed.

Lemma strip_keywords_from_preserve T ks : forall q,
  forallb good_keyword ks = true -> good T -> clean T None q ->
  clean T None
    (fold_left (fun q keyword => sub (keyword_re keyword) [] q) ks q).
Proof.
  induction ks as [|k ks IH]; intros q Hks Hg Hq; [assumption|].
  cbn in Hks. apply andb_true_iff in Hks as [Hk Hks].
  cbn [fold_left]. apply IH; auto. now apply keyword_preserve.
Qed.

Lemma strip_keywords_from_establish ks : forall q keyword,
  forallb good_keyword ks = true -> keyword ∈ ks ->
  clean (kw_token keyword) None
    (fold_left (fun q keyword => sub (keyword_re keyword) [] q) ks q).
Proof.
  induction ks as [|k ks IH]; intros q keyword Hks Hin; [inversion Hin|].
  cbn in Hks. apply andb_true_iff in Hks as [Hk Hks]. cbn [fold_left].
  apply elem_of_cons in Hin as [->|Hin]; [|now apply IH].
  apply strip_keywords_from_preserve; auto using good_kw.
  now apply keyword_establish.
Qed.

Lemma good_remove_keywords : forallb good_keyword remove_keywords = true.
Proof. vm_compute. reflexivity. Qed.

(** *** A text that [clean_query] returns as it is *)

Lemma clean_miss r hit len T s :
  matcher r hit len -> (forall pv s, hit pv s = occ T pv s) ->
  clean T None s ->
  forall a b, s = a ++ b -> match_here r (adv None a) b = None.
Proof.
  intros Hm Hhit Hc a b E. apply (matcher_miss _ _ _ _ _ Hm).
  rewrite Hhit. now apply Hc.
Qed.

Lemma strip_keywords_from_id ks : forall t,
  forallb good_keyword ks = true ->
  (forall keyword, keyword ∈ ks -> clean (kw_token keyword) None t) ->
  fold_left (fun q keyword => sub (keyword_re keyword) [] q) ks t = t.
Proof.
  induction ks as [|k ks IH]; intros t Hks Hc; [reflexivity|].
  cbn in Hks. apply andb_true_iff in Hks as [Hk Hks]. cbn [fold_left].
  rewrite sub_noop.
  - apply IH; [assumption|]. intros k' Hk'. apply Hc. now right.
  - eapply clean_miss; [now apply keyword_matcher|reflexivity|].
    apply Hc. left.
Qed.

Lemma settled_clean_query t : settled t -> clean_query t = (t, None).
Proof.
  intros (Hkw & Hseason & Hyear & Hparen & Hsp & Hstrip).
  unfold clean_query, strip_keywords.
  rewrite (strip_keywords_from_id _ _ good_remove_keywords Hkw).
  rewrite (sub_noop season_tail_re);
    [|now apply (clean_miss _ _ _ season_token _ season_matcher)].
  rewrite (empty_parens_noop _ Hparen).
  unfold sub. rewrite (spaced_sub_id _ _ false) by (auto; lia).
  rewrite Hstrip. unfold search.
  rewrite search_from_None;
    [reflexivity|now apply (clean_miss _ _ _ year_token _ year_matcher)].
Qed.

(** *** What [clean_query] returns is settled *)

Lemma clean_query_eq query :
  clean_query query
  = match search year_token_re (tidied query) with
    | Some match_year =>
        (Py.strip (take (m_start match_year) (tidied query)),
         group 1 match_year)
    | None => (tidied query, None)
    end.
Proof. unfold clean_query, tidied. cbv zeta. reflexivity. Qed.

Lemma tidied_clean T query :
  good T ->
  no_empty_parens (sub season_tail_re [] (strip_keywords query)) ->
  clean T None (sub season_tail_re [] (strip_keywords query)) ->
  clean T None (tidied query).
Proof.
  intros Hg Hp Hc. unfold tidied.
  rewrite (empty_parens_noop _ Hp).
  apply strip_clean; [assumption|].
  eapply sedit_clean_text; [assumption|apply spaces_sedit|assumption].
Qed.

Lemma tidied_parts query :
  no_empty_parens (sub season_tail_re [] (strip_keywords query)) ->
  (forall keyword, keyword ∈ remove_keywords ->
     clean (kw_token keyword) None (tidied query))
  /\ clean season_token None (tidied query)
  /\ no_empty_parens (tidied query)
  /\ spaced false (tidied query) = true.
Proof.
  intros Hp.
  split; [|split; [|split]].
  - intros k Hk. apply tidied_clean; [now apply good_keywords|assumption|].
    eapply sedit_clean_text;
      [now apply good_keywords|apply season_sedit|].
    now apply strip_keywords_from_establish; [apply good_remove_keywords|].
  - apply tidied_clean; [apply good_season|assumption|].
    apply (sedit_clean _ _ _ _ _ good_season (season_sedit _)). auto.
  - unfold tidied. rewrite (empty_parens_noop _ Hp).
    now apply no_empty_parens_strip, no_empty_parens_spaces.
  - unfold tidied. apply spaced_strip. unfold sub.
    apply spaces_sub_spaced. lia.
Qed.

(** The title that [clean_query] returns is settled, when the query holds
    no empty pair of parentheses once the keywords and the season tail are
    removed. *)
Lemma clean_query_settled query :
  no_empty_parens (sub season_tail_re [] (strip_keywords query)) ->
  settled (fst (clean_query query)).
Proof.
  intros Hp. rewrite clean_query_eq.
  destruct (tidied_parts query Hp) as (Hkw & Hseason & Hparen & Hsp).
  unfold search.
  destruct (search_from year_token_re 0 None (tidied query)) as [m|] eqn:Es.
  - apply search_from_first in Es
      as (a & b & s' & g & Eq & Hm & -> & Hfirst).
    cbn [fst m_start mk_match Nat.add]. rewrite Eq in *.
    rewrite take_app_length.
    assert (Ho : occ year_token (adv None a) b = true).
    { destruct (occ year_token (adv None a) b) eqn:E; [reflexivity|].
      rewrite (matcher_miss _ _ _ _ _ year_matcher E) in Hm. discriminate. }
    assert (Hb : b <> []).
    { intros ->. rewrite (occ_nil _ _ good_year) in Ho. discriminate. }
    pose proof (occ_true _ _ _ Ho) as (Hpv & _).
    pose proof (cut_sedit None a b Hb Hpv) as Hcut.
    assert (Hcl : forall T, good T -> clean T None (a ++ b) ->
                    clean T None (Py.strip a)).
    { intros T Hg Hc. apply strip_clean; [assumption|].
      eapply sedit_clean_text; [assumption|exact Hcut|assumption]. }
    split; [|split; [|split; [|split; [|split]]]].
    + intros k Hk. apply Hcl; [now apply good_keywords|now apply Hkw].
    + apply Hcl; [apply good_season|assumption].
    + apply strip_clean; [apply good_year|].
      apply (sedit_clean _ _ _ _ _ good_year Hcut).
      intros a0 b0 E Hlen.
      apply (matcher_hit_false _ _ _ _ _ year_matcher).
      assert (Hla : (length a0 < length a)%nat).
      { apply (f_equal length) in E. rewrite !length_app in E. lia. }
      assert (Ea : a = a0 ++ take (length a - length a0) b0
                  /\ b0 = take (length a - length a0) b0 ++ b).
      { apply (f_equal (take (length a))) in E as E1.
        apply (f_equal (drop (length a))) in E as E2.
        rewrite take_app_length in E1. rewrite drop_app_length in E2.
        rewrite take_app_ge in E1 by lia. rewrite drop_app_ge in E2 by lia.
        split; [exact E1|]. rewrite E2. now rewrite take_drop. }
      destruct Ea as [Ea Eb]. rewrite Eb. apply Hfirst; [exact Ea|].
      intros E0. apply (f_equal length) in E0.
      rewrite length_take in E0. cbn in E0.
      apply (f_equal length) in E. rewrite !length_app in E. lia.
    + apply no_empty_parens_strip. now apply (no_empty_parens_prefix a b).
    + apply spaced_strip. now apply (spaced_prefix _ _ b).
    + apply strip_idem.
  - cbn [fst].
    split; [|split; [|split; [|split; [|split]]]]; auto.
    + intros a b E.
      apply (matcher_hit_false _ _ _ _ _ year_matcher).
      now apply (search_from_None_inv _ _ _ _ Es).
    + unfold tidied. apply strip_idem.
Qed.

(** C1, counterexample: a query with a year.  The year is returned by the
    first call and lost by the second; and the title itself changes when
    it is cleaned again after an empty pair of parentheses was removed
    from inside a keyword. *)
Lemma clean_query_not_idempotent :
  clean_query (str "Movie 2019") = (str "Movie", Some (str "2019"))
  /\ clean_query (str "Movie") = (str "Movie", None)
  /\ ~ Claims.clean_query_idempotent (str "Movie 2019")
  /\ clean_query (str "4()K") = (str "4K", None)
  /\ clean_query (str "4K") = ([], None).
Proof.
  unfold Claims.clean_query_idempotent.
  repeat split; try (vm_compute; reflexivity).
  vm_compute. discriminate.
Qed.

(** C1, amended: when [re.sub(r'\(\s*\)', '', query)] has nothing to remove,
    that is, when the query holds no empty pair of parentheses once the
    keywords and the season tail are removed, the title that [clean_query]
    returns is returned unchanged when it is cleaned again, and no year is
    found in it; so the whole result is the same exactly when the first
    call found no year. *)
Theorem clean_query_title_fixed query :
  no_empty_parens (sub season_tail_re [] (strip_keywords query)) ->
  clean_query (fst (clean_query query)) = (fst (clean_query query), None)
  /\ (snd (clean_query query) = None ->
      clean_query (fst (clean_query query)) = clean_query query).
Proof.
  intros Hp.
  pose proof (settled_clean_query _ (clean_query_settled query Hp)) as H.
  split; [exact H|]. intros Hy. rewrite H.
  clear Hp H. destruct (clean_query query) as [t y].
  cbn [fst snd] in *. now subst y.
Qed.

(** The example of the specification: the parentheses around the year
    stay, the first one in the title. *)
Lemma clean_query_title_fixed_witness :
  clean_query (str "Movie.Title.2160p.HDR.x265-GROUP (2019)")
  = (str "Movie.Title...-GROUP (", Some (str "2019"))
  /\ clean_query (str "Movie.Title...-GROUP (")
     = (str "Movie.Title...-GROUP (", None).
Proof.
  assert (E : clean_query (str "Movie.Title.2160p.HDR.x265-GROUP (2019)")
              = (str "Movie.Title...-GROUP (", Some (str "2019")))
    by (vm_compute; reflexivity).
  split; [exact E|].
  assert (Hp : no_empty_parens
                 (sub season_tail_re []
                    (strip_keywords
                       (str "Movie.Title.2160p.HDR.x265-GROUP (2019)"))))
    by (vm_compute; reflexivity).
  pose proof (proj1 (clean_query_title_fixed _ Hp)) as H.
  rewrite E in H. exact H.
Defined.

End CleanQuery.
